(** * Dynamic dashboard query engine: filter translation, join planning,
      aggregation and result enhancement

    A shallow embedding of the planning and translation core of the two
    backends of the repository:

    - the document backend ([Dynamic-Dashboard-MongoDB]): [operators.js],
      [filterBuilder.js], [joinPlanner.js], [relations.js] and the [/query]
      handler with [enhanceResultsWithJoinedFields] of [server.js];
    - the tabular backend ([Dynamic-Dashboard-SQL]): [filterBuilderSQL.js],
      [joinPlanner.js], [sqlQueryBuilder.js] and the [/query] handler of
      [server.js].

    JavaScript values are a closed inductive type; objects are association
    lists in enumeration order; exceptions are an error monad; the database
    drivers are oracles (section variables). *)

From Stdlib Require Import String Ascii List ZArith NArith Bool Arith Lia.
From Stdlib Require Import DecimalString.
Import ListNotations.
Local Open Scope list_scope.
Local Open Scope string_scope.

Set Implicit Arguments.

(* ================================================================== *)
(** * JavaScript values *)
(* ================================================================== *)

(** A string is a sequence of code units; the model keeps the code units
    0..255, one [ascii] each. *)

(** [VNum z] is a number literal of the request or of a stored document
    (integers only); [VNumber s] is the value of [Number(s)] for a numeric
    string [s], kept symbolic; [VObjectId h] is [new ObjectId(h)];
    [VDate s] is [new Date(s)] for a string the runtime parses;
    [VBuiltin k] is the member [k] that every plain object inherits from
    [Object.prototype]. *)
Unset Elimination Schemes.
Inductive jsval : Type :=
  | VUndefined
  | VNull
  | VBool (b : bool)
  | VNum (z : Z)
  | VNumber (s : string)
  | VStr (s : string)
  | VObjectId (hex : string)
  | VDate (s : string)
  | VArr (items : list jsval)
  | VObj (props : list (string * jsval))
  | VBuiltin (name : string).
Set Elimination Schemes.

(** What of the JavaScript runtime the code depends on and the model leaves
    open: which strings [new Date] parses, and which numeric strings
    convert to [0]. *)
Class JSRuntime := {
    DateValid : string -> bool;
    NumberIsZero : string -> bool
}.

(** ** Exceptions *)

Inductive jserror : Type :=
  | JsError (msg : string)
  | JsTypeError (msg : string).

Definition message (e : jserror) : string :=
  match e with JsError m => m | JsTypeError m => m end.

(** The outcome of running a piece of the program: a value, an exception,
    or [Beyond] when the run leaves what is modelled of JavaScript (a call
    of an [Object.prototype] member, a write to [Object.prototype]). *)
Inductive result (A : Type) : Type :=
  | Ok (a : A)
  | Throw (e : jserror)
  | Beyond.
Arguments Ok {A} a.
Arguments Throw {A} e.
Arguments Beyond {A}.

Definition bind {A B} (r : result A) (k : A -> result B) : result B :=
  match r with Ok a => k a | Throw e => Throw e | Beyond => Beyond end.

Notation "x <- r ;; k" := (bind r (fun x => k))
  (at level 61, r at next level, right associativity).

(** What a database driver answers: a value, or the message of the error it
    raises. *)
Inductive reply (A : Type) : Type :=
  | Answer (a : A)
  | Failure (msg : string).
Arguments Answer {A} a.
Arguments Failure {A} msg.

(** [await] of a driver call: a failure is thrown. *)
Definition await {A} (r : reply A) : result A :=
  match r with Answer a => Ok a | Failure m => Throw (JsError m) end.

(** [for (const x of xs) body(x)] over a state [S]; the first exception
    leaves the loop. *)
Fixpoint forEachM {A S} (body : S -> A -> result S) (xs : list A) (s : S)
  : result S :=
  match xs with
  | [] => Ok s
  | x :: xs' => s' <- body s x ;; forEachM body xs' s'
  end.

(* ================================================================== *)
(** * Strings *)
(* ================================================================== *)

Definition chars (s : string) : list ascii := list_ascii_of_string s.
Definition text (l : list ascii) : string := string_of_list_ascii l.

Fixpoint prefixb (p s : list ascii) : bool :=
  match p, s with
  | [], _ => true
  | a :: p', b :: s' => Ascii.eqb a b && prefixb p' s'
  | _ :: _, [] => false
  end.

(** [s.startsWith(p)] *)
Definition startsWith (s p : string) : bool := prefixb (chars p) (chars s).

Fixpoint includesb (p s : list ascii) : bool :=
  prefixb p s || match s with [] => false | _ :: s' => includesb p s' end.

(** [s.includes(p)] *)
Definition includes (s p : string) : bool := includesb (chars p) (chars s).

(** [parts.join(sep)] *)
Fixpoint join (sep : string) (parts : list string) : string :=
  match parts with
  | [] => ""
  | [p] => p
  | p :: rest => p ++ sep ++ join sep rest
  end.

Definition isDigit (c : ascii) : bool :=
  let n := nat_of_ascii c in ((48 <=? n) && (n <=? 57))%nat.

Definition isHexDigit (c : ascii) : bool :=
  let n := nat_of_ascii c in
  isDigit c || ((97 <=? n) && (n <=? 102))%nat || ((65 <=? n) && (n <=? 70))%nat.

(** WhiteSpace and LineTerminator code units below 256: TAB, LF, VT, FF,
    CR, SP, NBSP. *)
Definition isWhiteSpace (c : ascii) : bool :=
  let n := nat_of_ascii c in
  (((9 <=? n) && (n <=? 13)) || (n =? 32) || (n =? 160))%nat.

Fixpoint trimStart (s : list ascii) : list ascii :=
  match s with
  | c :: r => if isWhiteSpace c then trimStart r else s
  | [] => []
  end.

Fixpoint trimEnd (s : list ascii) : list ascii :=
  match s with
  | [] => []
  | c :: r =>
      match trimEnd r with
      | [] => if isWhiteSpace c then [] else [c]
      | r' => c :: r'
      end
  end.

(** [s.trim()] *)
Definition trim (s : string) : string := text (trimEnd (trimStart (chars s))).

(** Replace every code unit [a] by [b]: [s.replace(/a/g, b)] for a
    one-character pattern. *)
Definition replaceChar (a b : ascii) (s : list ascii) : list ascii :=
  map (fun c => if Ascii.eqb c a then b else c) s.

(** [s.replace(/\.\*/g, '%')]: leftmost non-overlapping [.*] become [%]. *)
Fixpoint replaceDotStar (s : list ascii) : list ascii :=
  match s with
  | c :: r =>
      match r with
      | d :: r' =>
          if Ascii.eqb c "."%char && Ascii.eqb d "*"%char
          then "%"%char :: replaceDotStar r'
          else c :: replaceDotStar r
      | [] => [c]
      end
  | [] => []
  end.

(** [s.split('.')] *)
Fixpoint splitDot (s : list ascii) : list (list ascii) :=
  match s with
  | [] => [[]]
  | c :: r =>
      if Ascii.eqb c "."%char then [] :: splitDot r
      else match splitDot r with
           | p :: ps => (c :: p) :: ps
           | [] => [[c]]
           end
  end.

Definition lowerChar (c : ascii) : ascii :=
  let n := nat_of_ascii c in
  if ((65 <=? n) && (n <=? 90))%nat then ascii_of_nat (n + 32) else c.

(** [s.toLowerCase()] on the letters A-Z. *)
Definition toLowerCase (s : string) : string := text (map lowerChar (chars s)).

(** Decimal text of an array index. *)
Definition indexKey (n : nat) : string :=
  NilZero.string_of_uint (Nat.to_uint n).

(* ================================================================== *)
(** * Numeric strings: [isNaN(s)] *)
(* ================================================================== *)

(** [isNaN(s)] on a string is [Number(s)] being NaN, and [Number(s)] follows
    the StringNumericLiteral grammar of ECMA-262: optional white space
    around nothing (the value 0) or around a StrNumericLiteral. *)

Fixpoint skipDigits (s : list ascii) : list ascii :=
  match s with
  | c :: r => if isDigit c then skipDigits r else s
  | [] => []
  end.

Definition startsWithDigit (s : list ascii) : bool :=
  match s with c :: _ => isDigit c | [] => false end.

(** DecimalDigits: one or more digits and nothing else. *)
Definition isDecimalDigits (s : list ascii) : bool :=
  startsWithDigit s && forallb isDigit s.

(** SignedInteger *)
Definition isSignedInteger (s : list ascii) : bool :=
  match s with
  | c :: r =>
      if Ascii.eqb c "+"%char || Ascii.eqb c "-"%char
      then isDecimalDigits r else isDecimalDigits s
  | [] => false
  end.

(** ExponentPart_opt, then the end of the literal. *)
Definition isOptExponent (s : list ascii) : bool :=
  match s with
  | [] => true
  | c :: r =>
      (Ascii.eqb c "e"%char || Ascii.eqb c "E"%char) && isSignedInteger r
  end.

(** StrUnsignedDecimalLiteral *)
Definition isUnsignedDecimal (s : list ascii) : bool :=
  if String.eqb (text s) "Infinity" then true
  else match s with
       | [] => false
       | c :: r =>
           if Ascii.eqb c "."%char
           then startsWithDigit r && isOptExponent (skipDigits r)
           else isDigit c &&
                match skipDigits r with
                | d :: r' =>
                    if Ascii.eqb d "."%char
                    then isOptExponent (skipDigits r')
                    else isOptExponent (d :: r')
                | [] => true
                end
       end.

(** StrDecimalLiteral *)
Definition isStrDecimal (s : list ascii) : bool :=
  match s with
  | c :: r =>
      if Ascii.eqb c "+"%char || Ascii.eqb c "-"%char
      then isUnsignedDecimal r else isUnsignedDecimal s
  | [] => false
  end.

Definition isBinDigit (c : ascii) : bool :=
  Ascii.eqb c "0"%char || Ascii.eqb c "1"%char.

Definition isOctDigit (c : ascii) : bool :=
  let n := nat_of_ascii c in ((48 <=? n) && (n <=? 55))%nat.

(** NonDecimalIntegerLiteral: 0b.., 0o.., 0x.. with at least one digit. *)
Definition isNonDecimalInteger (s : list ascii) : bool :=
  match s with
  | z :: k :: d :: r =>
      Ascii.eqb z "0"%char &&
      (if Ascii.eqb k "b"%char || Ascii.eqb k "B"%char
       then forallb isBinDigit (d :: r)
       else if Ascii.eqb k "o"%char || Ascii.eqb k "O"%char
       then forallb isOctDigit (d :: r)
       else if Ascii.eqb k "x"%char || Ascii.eqb k "X"%char
       then forallb isHexDigit (d :: r)
       else false)
  | _ => false
  end.

(** StringNumericLiteral *)
Definition isStringNumericLiteral (s : string) : bool :=
  match trimEnd (trimStart (chars s)) with
  | [] => true
  | t => isStrDecimal t || isNonDecimalInteger t
  end.

(** [isNaN(s)] for a string [s]. *)
Definition isNaN_string (s : string) : bool := negb (isStringNumericLiteral s).

(* ================================================================== *)
(** * Objects *)
(* ================================================================== *)

Definition props := list (string * jsval).

Fixpoint getOwn (k : string) (o : props) : option jsval :=
  match o with
  | [] => None
  | (k', v) :: r => if String.eqb k' k then Some v else getOwn k r
  end.

Definition hasOwn (k : string) (o : props) : bool :=
  match getOwn k o with Some _ => true | None => false end.

(** The members of [Object.prototype], which every object literal
    inherits. *)
Definition ObjectPrototypeKeys : list string :=
  [ "constructor"; "__defineGetter__"; "__defineSetter__"; "hasOwnProperty";
    "__lookupGetter__"; "__lookupSetter__"; "isPrototypeOf";
    "propertyIsEnumerable"; "toString"; "valueOf"; "__proto__";
    "toLocaleString" ].

Definition inherited (k : string) : bool :=
  existsb (String.eqb k) ObjectPrototypeKeys.

(** [o[k]] on a plain object: the own property, else the inherited member,
    else [undefined]. *)
Definition getProp (o : props) (k : string) : jsval :=
  match getOwn k o with
  | Some v => v
  | None => if inherited k then VBuiltin k else VUndefined
  end.

(** A canonical array index ("0", "1", ... below 2^32 - 1): such keys are
    enumerated first, in ascending order, the others in insertion order. *)
Definition digitsValue (s : list ascii) : N :=
  fold_left (fun acc c => (acc * 10 + (N_of_ascii c - 48))%N) s 0%N.

Definition arrayIndex (k : string) : option N :=
  match chars k with
  | [] => None
  | c :: r =>
      if forallb isDigit (c :: r)
         && (negb (Ascii.eqb c "0"%char) || (Nat.eqb (List.length r) 0))
         && (List.length (c :: r) <=? 10)%nat
         && (digitsValue (c :: r) <? 4294967295)%N
      then Some (digitsValue (c :: r)) else None
  end.

Definition comesBefore (k k' : string) : bool :=
  match arrayIndex k, arrayIndex k' with
  | Some i, Some j => (i <? j)%N
  | Some _, None => true
  | None, _ => false
  end.

Fixpoint replaceOwn (k : string) (v : jsval) (o : props) : props :=
  match o with
  | [] => []
  | (k', v') :: r =>
      if String.eqb k' k then (k, v) :: r else (k', v') :: replaceOwn k v r
  end.

Fixpoint addOwn (k : string) (v : jsval) (o : props) : props :=
  match o with
  | [] => [(k, v)]
  | (k', v') :: r =>
      if comesBefore k k' then (k, v) :: o else (k', v') :: addOwn k v r
  end.

Definition setOwn (k : string) (v : jsval) (o : props) : props :=
  if hasOwn k o then replaceOwn k v o else addOwn k v o.

(** [o[k] = v] on a plain object. Assigning to [__proto__] runs the
    inherited setter and creates no own property. *)
Definition setProp (k : string) (v : jsval) (o : props) : props :=
  if String.eqb k "__proto__" && negb (hasOwn k o) then o else setOwn k v o.

(** [Object.assign(target, source)] on plain objects. *)
Definition objectAssign (target source : props) : props :=
  fold_left (fun t kv => setProp (fst kv) (snd kv) t) source target.

(** An object literal [{k1: v1, ...}]. *)
Definition literal (kvs : props) : props := objectAssign [] kvs.

Fixpoint indexed (n : nat) (xs : list jsval) : props :=
  match xs with
  | [] => []
  | x :: r => (indexKey n, x) :: indexed (S n) r
  end.

(** [Object.entries(v)]: the own enumerable string-keyed properties. *)
Definition ownEntries (v : jsval) : props :=
  match v with
  | VObj o => o
  | VArr xs => indexed 0 xs
  | VStr s => indexed 0 (map (fun c => VStr (String c "")) (chars s))
  | _ => []
  end.

Definition truthy `{JSRuntime} (v : jsval) : bool :=
  match v with
  | VUndefined | VNull => false
  | VBool b => b
  | VNum z => negb (z =? 0)%Z
  | VNumber s => negb (NumberIsZero s)
  | VStr s => negb (String.eqb s "")
  | _ => true
  end.

(** [typeof v === 'object'] *)
Definition typeofObject (v : jsval) : bool :=
  match v with
  | VNull | VArr _ | VObj _ | VObjectId _ | VDate _ => true
  | VBuiltin k => String.eqb k "__proto__"
  | _ => false
  end.

Definition isArray (v : jsval) : bool :=
  match v with VArr _ => true | _ => false end.

(** Template-literal text of the values that reach one: strings as they
    are, [undefined] as "undefined". *)
Definition strOr (d : string) (o : option string) : string :=
  match o with Some s => s | None => d end.

(** Text of an inherited member in a template literal. *)
Definition builtinText (k : string) : string :=
  if String.eqb k "__proto__" then "[object Object]"
  else if String.eqb k "constructor" then "function Object() { [native code] }"
  else "function " ++ k ++ "() { [native code] }".

(** [`${v}`]: the string conversion of a value in a template literal. The
    texts of numbers and dates are the runtime's. *)
Class JSText := {
    NumText : Z -> string;
    NumberText : string -> string;
    DateText : string -> string
}.

Fixpoint templateText `{JSText} (v : jsval) : result string :=
  match v with
  | VUndefined => Ok "undefined"
  | VNull => Ok "null"
  | VBool b => Ok (if b then "true" else "false")
  | VNum z => Ok (NumText z)
  | VNumber s => Ok (NumberText s)
  | VStr s => Ok s
  | VObjectId h => Ok h
  | VDate s => Ok (DateText s)
  | VArr xs =>
      (fix items (l : list jsval) : result string :=
         match l with
         | [] => Ok ""
         | x :: r =>
             t <- match x with
                  | VUndefined | VNull => Ok ""
                  | _ => templateText x
                  end ;;
             match r with
             | [] => Ok t
             | _ => ts <- items r ;; Ok (t ++ "," ++ ts)
             end
         end) xs
  | VObj o =>
      if hasOwn "toString" o
      then Throw (JsTypeError "Cannot convert object to primitive value")
      else Ok "[object Object]"
  | VBuiltin k => Ok (builtinText k)
  end.

(* ================================================================== *)
(** * Requests and the relation graph *)
(* ================================================================== *)

(** A filter of the request body: [{collection, field, operator, value}]. *)
Record Filter : Type := mkFilter {
    collection : string;
    field : string;
    operator : string;
    value : jsval
}.

(** An entry of the request's [aggregation] array; [alias] is optional. *)
Record AggregationOp : Type := mkAggregationOp {
    agg_collection : string;
    agg_field : string;
    agg_operator : string;
    agg_alias : option string
}.

(** [alias || d] *)
Definition aliasOr (a : option string) (d : string) : string :=
  match a with
  | Some s => if String.eqb s "" then d else s
  | None => d
  end.

(** An entry of [relations.js]. *)
Module Rel.
Record t : Type := mk {
  from : string;
  to : string;
  local : string;
  foreign : string
}.
End Rel.

(** [pathResolver.js] is imported by both join planners and is not part of
    the sources at hand: the planners are stated over any resolver.
    [findPath a b] is the path from [a] to [b], [None] for a falsy result. *)
Class PathResolver := {
    findPath : string -> string -> option (list string)
}.

(** [RELATIONS.find(r => (r.from === a && r.to === b) ||
                         (r.from === b && r.to === a))] *)
Definition findRelation (RELATIONS : list Rel.t) (a b : string)
  : option Rel.t :=
  find (fun r => (String.eqb (Rel.from r) a && String.eqb (Rel.to r) b)
              || (String.eqb (Rel.from r) b && String.eqb (Rel.to r) a))
       RELATIONS.

(** [dedupe(arr, keyFn)] of both [joinPlanner.js]: keep an element when its
    key has not been seen, and record the key. *)
Section Dedupe.
Variable A : Type.
Variable keyFn : A -> string.

Fixpoint dedupeFrom (seen : list string) (arr : list A) : list A :=
  match arr with
  | [] => []
  | i :: rest =>
    let k := keyFn i in
    if existsb (String.eqb k) seen then dedupeFrom seen rest
    else i :: dedupeFrom (k :: seen) rest
  end.

Definition dedupe (arr : list A) : list A := dedupeFrom [] arr.
End Dedupe.

(** [[...new Set(xs)]]: distinct strings in first-seen order. *)
Definition unique (xs : list string) : list string := dedupe (fun s => s) xs.

(** [['sum', 'avg', 'min', 'max', 'count'].includes(op)] *)
Definition isAggregationTag (op : string) : bool :=
  existsb (String.eqb op) ["sum"; "avg"; "min"; "max"; "count"].

(** [resolveFieldPath(root, f)] of both servers. *)
Definition resolveFieldPath (root coll fld : string) : string :=
  if String.eqb coll root then fld else coll ++ "." ++ fld.

(** An HTTP response: status and JSON body. *)
Record Response : Type := mkResponse {
    status : nat;
    body : jsval
}.

Definition errorBody (msg : string) : jsval := VObj [("error", VStr msg)].

(** The [catch] clause of both [/query] handlers. *)
Definition catchQuery (e : jserror) : Response :=
  if includes (message e) "Invalid" || includes (message e) "validation"
  then mkResponse 400 (errorBody (message e))
  else mkResponse 500 (errorBody "Internal server error").

Definition vlength {A} (l : list A) : jsval := VNum (Z.of_nat (List.length l)).

(* ================================================================== *)
(** * Document backend *)
(* ================================================================== *)

Module Mongo.

(** ** relations.js *)

Definition RELATIONS : list Rel.t :=
  [ Rel.mk "customers" "invoices" "_id" "customer_id";
    Rel.mk "products" "invoices" "_id" "product_id";
    Rel.mk "categories" "products" "_id" "category_id";
    Rel.mk "categories" "invoices" "_id" "category_id" ].

(** ** operators.js *)

(** [/^[0-9a-fA-F]{24}$/] *)
Definition isObjectIdShape (s : string) : bool :=
  Nat.eqb (List.length (chars s)) 24 && forallb isHexDigit (chars s).

(** [/^\d{4}-\d{2}-\d{2}/] *)
Definition dateRegex (s : list ascii) : bool :=
  match s with
  | y1 :: y2 :: y3 :: y4 :: h1 :: m1 :: m2 :: h2 :: d1 :: d2 :: _ =>
    isDigit y1 && isDigit y2 && isDigit y3 && isDigit y4
    && Ascii.eqb h1 "-"%char && isDigit m1 && isDigit m2
    && Ascii.eqb h2 "-"%char && isDigit d1 && isDigit d2
  | _ => false
  end.

(** [/^\d{4}-\d{2}-\d{2}T/] *)
Definition dateTimeRegex (s : list ascii) : bool :=
  dateRegex s && match skipn 10 s with
               | t :: _ => Ascii.eqb t "T"%char
               | [] => false
               end.

Definition isDateShape (s : string) : bool :=
  dateRegex (chars s) || dateTimeRegex (chars s).

Definition maybeNumber (v : jsval) : jsval :=
  match v with
  | VStr s =>
    if isObjectIdShape s then VObjectId s
    else if negb (String.eqb (trim s) "") && negb (isNaN_string s)
    then VNumber s
    else v
  | _ => v
  end.

Definition maybeDate `{JSRuntime} (v : jsval) : jsval :=
  match v with
  | VStr s => if isDateShape s && DateValid s then VDate s else v
  | _ => v
  end.

Definition AGGREGATION_OPERATORS : list (string * string) :=
  [ ("sum", "$sum"); ("avg", "$avg"); ("min", "$min"); ("max", "$max");
    ("count", "$sum"); ("first", "$first"); ("last", "$last") ].

(** [v.from], [v.to]: reading a property of the filter value. *)
Definition readMember (v : jsval) (k : string) : result jsval :=
  match v with
  | VUndefined =>
    Throw (JsTypeError ("Cannot read properties of undefined (reading '"
                        ++ k ++ "')"))
  | VNull =>
    Throw (JsTypeError ("Cannot read properties of null (reading '"
                        ++ k ++ "')"))
  | VObj o => Ok (getProp o k)
  | _ => Ok VUndefined
  end.

Section Operators.
Context `{JSRuntime} `{JSText}.

Definition coerce (v : jsval) : jsval := maybeDate (maybeNumber v).

(** The mapper of [in]. *)
Definition coerceItem (item : jsval) : jsval :=
  match item with
  | VStr s => if isObjectIdShape s then VObjectId s else coerce item
  | _ => coerce item
  end.

Definition STANDARD_OPERATORS : list (string * (jsval -> result props)) :=
  [ ("eq", fun v => Ok [("$eq", coerce v)]);
    ("ne", fun v => Ok [("$ne", coerce v)]);
    ("gt", fun v => Ok [("$gt", coerce v)]);
    ("gte", fun v => Ok [("$gte", coerce v)]);
    ("lt", fun v => Ok [("$lt", coerce v)]);
    ("lte", fun v => Ok [("$lte", coerce v)]);
    ("startsWith", fun v =>
       t <- templateText v ;;
       Ok [("$regex", VStr ("^" ++ t)); ("$options", VStr "i")]);
    ("endsWith", fun v =>
       t <- templateText v ;;
       Ok [("$regex", VStr (t ++ "$")); ("$options", VStr "i")]);
    ("contains", fun v => Ok [("$regex", v); ("$options", VStr "i")]);
    ("in", fun v =>
       Ok [("$in", match v with
                   | VArr items => VArr (map coerceItem items)
                   | _ => VArr [v]
                   end)]);
    ("between", fun v =>
       lo <- readMember v "from" ;;
       hi <- readMember v "to" ;;
       Ok [("$gte", coerce lo); ("$lte", coerce hi)]) ].

(** What [OPERATORS[k]] evaluates to. *)
Inductive opEntry : Type :=
  | OpFunction (f : jsval -> result props)
  | OpString (s : string)
  | OpInherited (k : string).

Fixpoint assoc {B} (k : string) (l : list (string * B)) : option B :=
  match l with
  | [] => None
  | (k', b) :: r => if String.eqb k' k then Some b else assoc k r
  end.

(** [OPERATORS = {...STANDARD_OPERATORS, ...AGGREGATION_OPERATORS}],
    read at [k]: [None] is [undefined]. *)
Definition OPERATORS (k : string) : option opEntry :=
  match assoc k AGGREGATION_OPERATORS with
  | Some s => Some (OpString s)
  | None =>
      match assoc k STANDARD_OPERATORS with
      | Some f => Some (OpFunction f)
      | None => if inherited k then Some (OpInherited k) else None
      end
  end.
End Operators.

(** ** filterBuilder.js *)

(** An element of the list given to [buildMatch]:
    [{field, operator, value}]. *)
Record MatchFilter : Type := mkMatchFilter {
  mfield : string;
  moperator : string;
  mvalue : jsval
}.

(** Two runs are not modelled, and are [Beyond]. An operator named like a
    member of [Object.prototype]: [OPERATORS[f.operator](f.value)] then
    calls that member on [OPERATORS], and what it returns (a text, a
    boolean, [OPERATORS] itself) is no condition object. The field
    [__proto__]: [Object.assign] then writes the condition onto
    [Object.prototype], and from there on every object of the process
    inherits its keys. [Object.assign] onto another inherited member (the
    field [constructor], [toString], ...) writes to that member and leaves
    [match] as it is. The properties that speak of every run of
    [buildMatch] name the filters they cover (see [buildMatch_covered]). *)
Section FilterBuilder.
Context `{JSRuntime} `{JSText}.

Fixpoint buildMatchFrom (match_ : props) (filters : list MatchFilter)
  : result props :=
  match filters with
  | [] => Ok match_
  | f :: rest =>
      match OPERATORS (moperator f) with
      | None => Throw (JsError ("Invalid operator: " ++ moperator f))
      | Some (OpString _) =>
          Throw (JsTypeError "OPERATORS[f.operator] is not a function")
      | Some (OpInherited _) => Beyond
      | Some (OpFunction op) =>
          condition <- op (mvalue f) ;;
          match getProp match_ (mfield f) with
          | VObj target =>
              buildMatchFrom
                (replaceOwn (mfield f)
                            (VObj (objectAssign target condition)) match_)
                rest
          | VBuiltin k =>
              if String.eqb k "__proto__" then Beyond
              else buildMatchFrom match_ rest
          | other =>
              if truthy other then buildMatchFrom match_ rest
              else buildMatchFrom
                     (setProp (mfield f) (VObj condition) match_) rest
          end
      end
  end.

Definition buildMatch (filters : list MatchFilter) : result props :=
  buildMatchFrom [] filters.
End FilterBuilder.

(** ** joinPlanner.js *)

(** [{from, localField, foreignField, as}] *)
Record JoinEdge : Type := mkJoinEdge {
  from : string;
  localField : string;
  foreignField : string;
  as_ : string
}.

Definition joinKey (j : JoinEdge) : string :=
  from j ++ ":" ++ localField j ++ ":" ++ foreignField j.

Section JoinPlanner.
Context `{PathResolver}.

(** The inner loop over the consecutive pairs of a path. A pair with no
    relation makes [rel.from] fail. *)
Fixpoint pathEdges (path : list string) : result (list JoinEdge) :=
  match path with
  | a :: ((b :: _) as rest) =>
      match findRelation RELATIONS a b with
      | None =>
          Throw (JsTypeError
                   "Cannot read properties of undefined (reading 'from')")
      | Some rel =>
          let fromA := String.eqb (Rel.from rel) a in
          es <- pathEdges rest ;;
          Ok (mkJoinEdge b
                (if fromA then Rel.local rel else Rel.foreign rel)
                (if fromA then Rel.foreign rel else Rel.local rel)
                b :: es)
      end
  | _ => Ok []
  end.

Definition collectJoins (root : string) (filters : list Filter)
  : result (list JoinEdge) :=
  forEachM (fun joins f =>
              if String.eqb (collection f) root then Ok joins
              else match findPath root (collection f) with
                   | None => Ok joins
                   | Some path =>
                       es <- pathEdges path ;; Ok (joins ++ es)%list
                   end)
           filters [].

Definition buildJoinPlan (root : string) (filters : list Filter)
  : result (list JoinEdge) :=
  joins <- collectJoins root filters ;;
  Ok (dedupe joinKey joins).
End JoinPlanner.

(** ** db.js and the driver *)

(** The MongoDB driver as the server uses it: [connect] is the message of
    the error raised when connecting fails; [aggregate coll pipeline] is
    [db.collection(coll).aggregate(pipeline, ...).toArray()];
    [findOne coll id] is [db.collection(coll).findOne({_id: id})], [None]
    for [null]. *)
Record Driver : Type := mkDriver {
  connect : string -> option string;
  aggregate : string -> list jsval -> reply (list jsval);
  findOne : string -> jsval -> reply (option props)
}.

Definition getDB (drv : Driver) (dbName : string) : result unit :=
  match connect drv dbName with
  | None => Ok tt
  | Some m => Throw (JsError ("Failed to connect to MongoDB: " ++ m))
  end.

(** ** server.js *)

Definition resolveRoot (filters : list Filter) : string :=
  let cols := unique (map collection filters) in
  if existsb (String.eqb "invoices") cols then "invoices"
  else if (1 <? List.length cols)%nat then "invoices"
  else match cols with
       | [c] =>
           if existsb (String.eqb c) ["customers"; "products"; "categories"]
           then "invoices"
           else if String.eqb c "" then "invoices" else c
       | _ => "invoices"
       end.

Definition allowedCollections : list string :=
  ["invoices"; "customers"; "products"; "categories"].

Definition allowedOperators : list string :=
  [ "eq"; "ne"; "gt"; "gte"; "lt"; "lte"; "contains"; "startsWith";
    "endsWith"; "between"; "in"; "regex"; "sum"; "avg"; "min"; "max";
    "count" ].

(** [typeof v === 'object' && v !== null && !Array.isArray(v)] *)
Definition isObjectValue (v : jsval) : bool :=
  typeofObject v
  && negb (match v with VNull => true | _ => false end)
  && negb (isArray v).

Definition validateFilter (filter : Filter) : result bool :=
  if negb (existsb (String.eqb (collection filter)) allowedCollections)
  then Throw (JsError ("Invalid collection: " ++ collection filter))
  else if includes (field filter) "$" || includes (field filter) "."
  then Throw (JsError ("Invalid field name: " ++ field filter))
  else if negb (existsb (String.eqb (operator filter)) allowedOperators)
  then Throw (JsError ("Invalid operator: " ++ operator filter))
  else if isObjectValue (value filter)
  then Throw (JsError "Object values not allowed for security reasons")
  else Ok true.

Definition lookupStages (joins : list JoinEdge) : list jsval :=
  flat_map (fun j =>
              [ VObj [("$lookup",
                       VObj [ ("from", VStr (from j));
                              ("localField", VStr (localField j));
                              ("foreignField", VStr (foreignField j));
                              ("as", VStr (as_ j)) ])];
                VObj [("$unwind", VStr ("$" ++ as_ j))] ])
           joins.

(** [filters.map(f => ({field: resolveFieldPath(root, f), ...}))] *)
Definition toMatchFilters (root : string) (filters : list Filter)
  : list MatchFilter :=
  map (fun f => mkMatchFilter
                  (resolveFieldPath root (collection f) (field f))
                  (operator f) (value f))
      filters.

(** The same, followed by
    [.filter(f => !['sum', ...].includes(f.operator))]. *)
Definition nonAggregationMatchFilters (root : string) (filters : list Filter)
  : list MatchFilter :=
  filter (fun f => negb (isAggregationTag (moperator f)))
         (toMatchFilters root filters).

Definition groupStage (root : string) (aggregationOps : list AggregationOp)
  : props :=
  fold_left
    (fun g op =>
       if String.eqb (agg_operator op) "count"
       then setProp (aliasOr (agg_alias op) "count")
                    (VObj [("$sum", VNum 1)]) g
       else if existsb (String.eqb (agg_operator op))
                       ["sum"; "avg"; "min"; "max"]
       then setProp (aliasOr (agg_alias op) (agg_operator op))
              (VObj [("$" ++ agg_operator op,
                      VStr ("$" ++ resolveFieldPath root (agg_collection op)
                                                    (agg_field op)))])
              g
       else g)
    aggregationOps [("_id", VNull)].

Section Server.
Context `{JSRuntime} `{JSText} `{PathResolver}.
Variable drv : Driver.

(** The stages both pipeline builders share: joins, then [$match]. *)
Definition buildDetailedRecordsPipeline (filters : list Filter)
  : result (list jsval) :=
  let root := resolveRoot filters in
  joins <- buildJoinPlan root filters ;;
  let pipeline := lookupStages joins in
  match nonAggregationMatchFilters root filters with
  | [] => Ok pipeline
  | matchFilters =>
      m <- buildMatch matchFilters ;;
      Ok (pipeline ++ [VObj [("$match", VObj m)]])%list
  end.

Definition buildAggregationPipeline (filters : list Filter)
     (aggregationOps : list AggregationOp) : result (list jsval) :=
  let root := resolveRoot filters in
  joins <- buildJoinPlan root filters ;;
  let pipeline := lookupStages joins in
  pipeline <- match nonAggregationMatchFilters root filters with
              | [] => Ok pipeline
              | matchFilters =>
                  m <- buildMatch matchFilters ;;
                  Ok (pipeline ++ [VObj [("$match", VObj m)]])%list
              end ;;
  match aggregationOps with
  | [] => Ok pipeline
  | _ =>
      Ok (pipeline
          ++ [VObj [("$group", VObj (groupStage root aggregationOps))]])%list
  end.

Definition idFieldMappings : list (string * string) :=
  [ ("customer_id", "customers"); ("product_id", "products");
    ("category_id", "categories") ].

(** [a || b] *)
Definition orElse (a b : jsval) : jsval := if truthy a then a else b.

(** One turn of the loop over [idFieldMappings]; a failing lookup is
    caught and leaves the record as it is. *)
Definition resolveIdField (enhancedRecord : props) (m : string * string)
  : props :=
  let '(idField, coll) := m in
  let idValue := getProp enhancedRecord idField in
  if truthy idValue then
    match findOne drv coll idValue with
    | Failure _ => enhancedRecord
    | Answer None => enhancedRecord
    | Answer (Some doc) =>
        let nameField :=
          orElse (getProp doc "name")
            (orElse (getProp doc "title")
               (orElse (getProp doc "label") (getProp doc "_id"))) in
        let r1 := setProp (coll ++ "_name") nameField enhancedRecord in
        let r2 := if truthy (getProp doc "name")
                  then setProp (coll ++ "_name") (getProp doc "name") r1
                  else r1 in
        let r3 := if truthy (getProp doc "region")
                  then setProp "customer_region" (getProp doc "region") r2
                  else r2 in
        if truthy (getProp doc "zone")
        then setProp "customer_zone" (getProp doc "zone") r3
        else r3
    end
  else enhancedRecord.

Definition enhanceRecord (record : jsval) : jsval :=
  VObj (fold_left resolveIdField idFieldMappings (ownEntries record)).

Definition enhanceResultsWithJoinedFields (data : list jsval)
     (filters : list Filter) : list jsval :=
  match data with
  | [] => data
  | _ => map enhanceRecord data
  end.

(** The validation loop of the regular path: an exception of
    [validateFilter], or the early 400 response. *)
Fixpoint validateFilters (filters : list Filter)
  : result (option Response) :=
  match filters with
  | [] => Ok None
  | f :: rest =>
      _ <- validateFilter f ;;
      if String.eqb (collection f) "" || String.eqb (field f) ""
         || String.eqb (operator f) ""
      then Ok (Some (mkResponse 400
                       (errorBody
                          "Each filter must have collection, field, and operator")))
      else validateFilters rest
  end.

Definition queryRegular (filters : list Filter) : result Response :=
  let root := resolveRoot filters in
  joins <- buildJoinPlan root filters ;;
  let pipeline := lookupStages joins in
  early <- validateFilters filters ;;
  match early with
  | Some r => Ok r
  | None =>
      let matchFilters := toMatchFilters root filters in
      pipeline <- match matchFilters with
                  | [] => Ok pipeline
                  | _ =>
                      m <- buildMatch matchFilters ;;
                      Ok (pipeline ++ [VObj [("$match", VObj m)]])%list
                  end ;;
      detailedData <- await (aggregate drv root pipeline) ;;
      let enhancedData :=
        enhanceResultsWithJoinedFields detailedData filters in
      Ok (mkResponse 200
            (VObj [ ("success", VBool true);
                    ("type", VStr "regular");
                    ("root", VStr root);
                    ("pipeline", VArr pipeline);
                    ("count", vlength detailedData);
                    ("data", VArr enhancedData) ]))
  end.

Definition queryBoth (filters : list Filter)
     (aggregation : list AggregationOp) : result Response :=
  detailedPipeline <- buildDetailedRecordsPipeline filters ;;
  detailedData <-
    await (aggregate drv (resolveRoot filters) detailedPipeline) ;;
  aggregationPipeline <- buildAggregationPipeline filters aggregation ;;
  aggregationData <-
    await (aggregate drv (resolveRoot filters) aggregationPipeline) ;;
  let enhancedDetailedData :=
    enhanceResultsWithJoinedFields detailedData filters in
  Ok (mkResponse 200
        (VObj [ ("success", VBool true);
                ("type", VStr "both");
                ("detailed_pipeline", VArr detailedPipeline);
                ("aggregation_pipeline", VArr aggregationPipeline);
                ("detailed_count", vlength detailedData);
                ("aggregation_count", vlength aggregationData);
                ("detailed_data", VArr enhancedDetailedData);
                ("aggregation_data", VArr aggregationData) ])).

(** [app.post("/query", ...)] on a parsed body
    [{database, filters, aggregation}]. *)
Definition query (database : string) (filters : list Filter)
     (aggregation : list AggregationOp) : result Response :=
  if String.eqb database ""
  then Ok (mkResponse 400 (errorBody "Database name is required"))
  else
    match (_ <- getDB drv database ;;
           match aggregation with
           | [] => queryRegular filters
           | _ => queryBoth filters aggregation
           end) with
    | Ok r => Ok r
    | Throw e => Ok (catchQuery e)
    | Beyond => Beyond
    end.
End Server.

End Mongo.

(* ================================================================== *)
(** * Tabular backend *)
(* ================================================================== *)

Module SQL.

(** ** filterBuilderSQL.js *)

Definition SQL_OPERATORS_own : list (string * string) :=
  [ ("$eq", "="); ("$ne", "!="); ("$gt", ">"); ("$gte", ">=");
    ("$lt", "<"); ("$lte", "<="); ("$in", "IN"); ("$nin", "NOT IN");
    ("$regex", "LIKE"); ("$exists", "IS NOT NULL");
    ("$notexists", "IS NULL");
    ("$and", "AND"); ("$or", "OR"); ("$not", "NOT") ].

(** [SQL_OPERATORS[op]] as the template literal prints it; [None] when
    the read is [undefined]. An inherited member is truthy and prints as
    its source text. *)
Definition SQL_OPERATORS (op : string) : option string :=
  match Mongo.assoc op SQL_OPERATORS_own with
  | Some s => Some s
  | None => if inherited op then Some (builtinText op) else None
  end.

(** The two arrays [buildSQLFilter] fills. *)
Definition acc : Type := (list string * list jsval)%type.

Definition push (condition : string) (ps : list jsval) (st : acc) : acc :=
  (fst st ++ [condition], snd st ++ ps)%list.

(** The body of the loop over [Object.entries(value)] in
    [buildCondition]. *)
Definition operatorCondition (column : string) (st : acc)
         (e : string * jsval) : acc :=
  let '(op, opValue) := e in
  match SQL_OPERATORS op with
  | None => st
  | Some sqlOp =>
      if String.eqb op "$in" || String.eqb op "$nin" then
        match opValue with
        | VArr items =>
            push (column ++ " " ++ sqlOp ++ " ("
                    ++ join ", " (map (fun _ => "?") items) ++ ")")
                 items st
        | _ => st
        end
      else if String.eqb op "$regex" then
        match opValue with
        | VStr pattern =>
            push (column ++ " LIKE ?")
                 [VStr (text (replaceChar "*"%char "%"%char
                                (replaceDotStar (chars pattern))))]
                 st
        | _ => st
        end
      else push (column ++ " " ++ sqlOp ++ " ?") [opValue] st
  end.

(** [buildCondition(key, value)]; the prefix is never given, so the
    column is the key. *)
Definition buildCondition (key : string) (value : jsval) (st : acc) : acc :=
  match value with
  | VNull | VUndefined => st
  | _ =>
      if typeofObject value && negb (isArray value)
      then fold_left (operatorCondition key) (ownEntries value) st
      else push (key ++ " = ?") [value] st
  end.

Record SQLFilter : Type := mkSQLFilter {
  whereClause : string;
  params : list jsval
}.

Definition finish (st : acc) : SQLFilter :=
  mkSQLFilter
    (match fst st with
     | [] => ""
     | conditions => "WHERE " ++ join " AND " conditions
     end)
    (snd st).

(** The [$and] / [$or] branch once the children are translated:
    [subs] holds the parenthesised clauses and the parameters of the
    children whose clause is not empty. *)
Definition compose (connective : string) (subs : acc) (st : acc) : acc :=
  (match fst subs with
   | [] => fst st
   | cs => fst st ++ [join connective cs]
   end,
   snd st ++ snd subs)%list.

Definition addChild (sub : SQLFilter) (subs : acc) : acc :=
  if String.eqb (whereClause sub) "" then subs
  else push ("(" ++ whereClause sub ++ ")") (params sub) subs.

Section Filter.
Context `{JSRuntime}.

(** [!filter || Object.keys(filter).length === 0] *)
Definition isEmptyFilter (filter : jsval) : bool :=
  negb (truthy filter) || Nat.eqb (List.length (ownEntries filter)) 0.

(** [buildSQLFilter(filter, tables)]; [tables] is not used. Only an
    object has keys that start with [$]; the keys of an array or a
    string are indices. *)
Fixpoint buildSQLFilter (filter : jsval) : SQLFilter :=
  if isEmptyFilter filter then mkSQLFilter "" []
  else
    match filter with
    | VObj o =>
        let children :=
          fix children (cs : list jsval) (subs : acc) {struct cs} : acc :=
            match cs with
            | [] => subs
            | cond :: cs' =>
                children cs' (addChild (buildSQLFilter cond) subs)
            end in
        finish
          ((fix entries (es : props) (st : acc) {struct es} : acc :=
              match es with
              | [] => st
              | (key, value) :: es' =>
                  entries es'
                    (if startsWith key "$" then
                       if String.eqb key "$and" && isArray value then
                         match value with
                         | VArr conds =>
                             compose " AND " (children conds ([], [])) st
                         | _ => st
                         end
                       else if String.eqb key "$or" && isArray value then
                         match value with
                         | VArr conds =>
                             compose " OR " (children conds ([], [])) st
                         | _ => st
                         end
                       else st
                     else buildCondition key value st)
              end) o ([], []))
    | _ =>
        finish (fold_left (fun st e => buildCondition (fst e) (snd e) st)
                          (ownEntries filter) ([], []))
    end.
End Filter.

(** ** joinPlanner.js *)

(** [{from, to, type}] *)
Record JoinEdge : Type := mkJoinEdge {
  from : string;
  to : string;
  type : string
}.

(** [j => `${j.from}:${j.localField}:${j.foreignField}`]: an edge of this
    planner has no [localField] and no [foreignField], and the template
    prints the missing members as "undefined". *)
Definition joinKey (j : JoinEdge) : string :=
  from j ++ ":" ++ "undefined" ++ ":" ++ "undefined".

Section JoinPlanner.
Context `{PathResolver}.
(** [relations.js] of this backend is not among the sources. *)
Variable RELATIONS : list Rel.t.

Fixpoint pathEdges (path : list string) : result (list JoinEdge) :=
  match path with
  | a :: ((b :: _) as rest) =>
      match findRelation RELATIONS a b with
      | None =>
          Throw (JsTypeError
                   "Cannot read properties of undefined (reading 'from')")
      | Some rel =>
          let fromA := String.eqb (Rel.from rel) a in
          es <- pathEdges rest ;;
          Ok (mkJoinEdge
                (a ++ "." ++ (if fromA then Rel.local rel
                              else Rel.foreign rel))
                (b ++ "." ++ (if fromA then Rel.foreign rel
                              else Rel.local rel))
                "INNER" :: es)
      end
  | _ => Ok []
  end.

Definition collectJoins (root : string) (targets : list string)
  : result (list JoinEdge) :=
  forEachM (fun joins coll =>
              if String.eqb coll root then Ok joins
              else match findPath root coll with
                   | None => Ok joins
                   | Some path =>
                       es <- pathEdges path ;; Ok (joins ++ es)%list
                   end)
           targets [].

(** [buildJoinPlan(root, filters)] reads only [f.collection] of each
    filter: [targets] is [filters.map(f => f.collection)]. *)
Definition buildJoinPlan (root : string) (targets : list string)
  : result (list JoinEdge) :=
  joins <- collectJoins root targets ;;
  Ok (dedupe joinKey joins).
End JoinPlanner.

(** ** sqlQueryBuilder.js *)

Record QueryPlan : Type := mkQueryPlan {
  tables : list string;
  joins : list JoinEdge;
  projection : list string
}.

(** An element of the [aggregations] argument:
    [{operation, field, alias}]. *)
Record Aggregation : Type := mkAggregation {
  operation : string;
  afield : string;
  alias : option string
}.

(** The mapper of [joins.map(...)], the same in [executeSQLQuery] and in
    [executeAggregations]. *)
Definition joinClause (j : JoinEdge) : string :=
  if String.eqb (from j) "" || String.eqb (to j) "" then ""
  else
    let part (l : list (list ascii)) (n : nat) : string :=
      text (nth n l []) in
    let fromParts := splitDot (chars (from j)) in
    let toParts := splitDot (chars (to j)) in
    let fromTable := part fromParts 0 in
    let fromField := part fromParts 1 in
    let toTable := part toParts 0 in
    let toField := part toParts 1 in
    if String.eqb fromTable "" || String.eqb fromField ""
       || String.eqb toTable "" || String.eqb toField ""
    then ""
    else type j ++ " JOIN " ++ toTable ++ " ON " ++ fromTable ++ "."
         ++ fromField ++ " = " ++ toTable ++ "." ++ toField.

(** [joins.map(...).filter(clause => clause.trim() !== '').join(' ')] *)
Definition joinClauses (js : list JoinEdge) : string :=
  join " " (filter (fun clause => negb (String.eqb (trim clause) ""))
                   (map joinClause js)).

(** [tables[0]] in a template literal. *)
Definition firstTable (ts : list string) : string :=
  match ts with t :: _ => t | [] => "undefined" end.

(** The [switch] of [executeAggregations]. *)
Definition aggregateExpression (a : Aggregation) : result string :=
  let op := toLowerCase (operation a) in
  if String.eqb op "count" then
    Ok (if String.eqb (afield a) "*" then "COUNT(*)"
        else "COUNT(" ++ afield a ++ ")")
  else if String.eqb op "sum" then Ok ("SUM(" ++ afield a ++ ")")
  else if String.eqb op "avg" then Ok ("AVG(" ++ afield a ++ ")")
  else if String.eqb op "min" then Ok ("MIN(" ++ afield a ++ ")")
  else if String.eqb op "max" then Ok ("MAX(" ++ afield a ++ ")")
  else Throw (JsError ("Unsupported aggregation operation: "
                       ++ operation a)).

(** [field.replace(/\./g, '_')] *)
Definition underscored (fld : string) : string :=
  text (replaceChar "."%char "_"%char (chars fld)).

(** [alias || `${operation}_${field.replace(/\./g, '_')}`] *)
Definition resultAlias (a : Aggregation) : string :=
  aliasOr (alias a) (operation a ++ "_" ++ underscored (afield a)).

(** [aggRows[0][Object.keys(aggRows[0])[0]]] *)
Definition firstValue (aggRows : list props) : result jsval :=
  match aggRows with
  | [] => Throw (JsTypeError "Cannot convert undefined or null to object")
  | row :: _ =>
      match row with
      | [] => Ok (getProp row "undefined")
      | (k, _) :: _ => Ok (getProp row k)
      end
  end.

(** The MySQL pool: [execute query params] are the rows of
    [pool.execute(query, params)]. *)
Definition Pool : Type := string -> list jsval -> reply (list props).

Section Executor.
Context `{JSRuntime}.
Variable pool : Pool.

(** What follows the select list of an aggregation query; it does not
    depend on the aggregation. *)
Definition aggregationSource (queryPlan : QueryPlan) (filter : jsval)
  : string :=
  " FROM " ++ firstTable (tables queryPlan)
  ++ (match joins queryPlan with
      | [] => ""
      | js => " " ++ joinClauses js
      end)
  ++ (let w := whereClause (buildSQLFilter filter) in
      if String.eqb w "" then "" else " " ++ w).

(** The text [executeAggregations] sends for one aggregation. *)
Definition aggregationQuery (a : Aggregation) (queryPlan : QueryPlan)
     (filter : jsval) : result string :=
  expr <- aggregateExpression a ;;
  Ok ("SELECT " ++ expr
      ++ " as " ++ aliasOr (alias a) (operation a) ++ "_"
      ++ underscored (afield a)
      ++ aggregationSource queryPlan filter).

(** The body of the [try] for one aggregation. *)
Definition runAggregation (a : Aggregation) (queryPlan : QueryPlan)
     (filter : jsval) : result jsval :=
  aggQuery <- aggregationQuery a queryPlan filter ;;
  aggRows <- await (pool aggQuery (params (buildSQLFilter filter))) ;;
  v <- firstValue aggRows ;;
  Ok (VObj [ ("operation", VStr (operation a));
             ("field", VStr (afield a));
             ("alias", VStr (resultAlias a));
             ("value", v) ]).

(** One turn of the loop: [try { ... } catch (error) { ... }]. No run of
    [runAggregation] leaves the model. *)
Definition aggregationEntry (queryPlan : QueryPlan) (filter : jsval)
     (a : Aggregation) : jsval :=
  match runAggregation a queryPlan filter with
  | Ok entry => entry
  | Throw e =>
      VObj [ ("operation", VStr (operation a));
             ("field", VStr (afield a));
             ("alias", VStr (resultAlias a));
             ("error", VStr (message e));
             ("value", VNull) ]
  | Beyond => VUndefined
  end.

Definition executeAggregations (aggregations : list Aggregation)
     (queryPlan : QueryPlan) (filter : jsval) : list jsval :=
  map (aggregationEntry queryPlan filter) aggregations.

(** What [executeSQLQuery] returns. *)
Record QueryResult : Type := mkQueryResult {
  success : bool;
  error : option string;
  data : list props;
  aggregations : list jsval;
  queryText : option string;
  queryParams : list jsval
}.

Definition selectFields (queryPlan : QueryPlan) : string :=
  join ", " (map (fun fld => if includes fld "." then fld
                             else firstTable (tables queryPlan)
                                  ++ "." ++ fld)
                 (projection queryPlan)).

(** The text of the main query. *)
Definition mainQuery (queryPlan : QueryPlan) (filter : jsval) : string :=
  let w := whereClause (buildSQLFilter filter) in
  let j := joinClauses (joins queryPlan) in
  "SELECT " ++ selectFields queryPlan
  ++ " FROM " ++ firstTable (tables queryPlan)
  ++ (if String.eqb j "" then "" else " " ++ j)
  ++ (if String.eqb w "" then "" else " " ++ w).

Definition executeSQLQuery (queryPlan : QueryPlan) (filter : jsval)
     (aggs : list Aggregation) : QueryResult :=
  match tables queryPlan with
  | [] => mkQueryResult false (Some "No tables specified in query plan")
                        [] [] None []
  | _ =>
      let q := mainQuery queryPlan filter in
      let ps := params (buildSQLFilter filter) in
      match pool q ps with
      | Failure m => mkQueryResult false (Some m) [] [] None []
      | Answer rows =>
          mkQueryResult true None rows
            (match aggs with
             | [] => []
             | _ => executeAggregations aggs queryPlan filter
             end)
            (Some q) ps
      end
  end.
End Executor.

(** ** server.js *)

Definition resolveRoot (filters : list Filter) : string :=
  let ts := unique (map collection filters) in
  if existsb (String.eqb "invoices") ts then "invoices"
  else if (1 <? List.length ts)%nat then "invoices"
  else match ts with
       | [t] => t
       | _ => "invoices"
       end.

Definition allowedTables : list string :=
  ["invoices"; "customers"; "products"; "categories"].

Definition validateFilter (filter : Filter) : result bool :=
  if negb (existsb (String.eqb (collection filter)) allowedTables)
  then Throw (JsError ("Invalid table: " ++ collection filter))
  else if includes (field filter) "`" || includes (field filter) ";"
  then Throw (JsError ("Invalid field name: " ++ field filter))
  else if negb (existsb (String.eqb (operator filter))
                      Mongo.allowedOperators)
  then Throw (JsError ("Invalid operator: " ++ operator filter))
  else if Mongo.isObjectValue (value filter)
  then Throw (JsError "Object values not allowed for security reasons")
  else Ok true.

(** The state of the [filters.forEach] that converts the request:
    [sqlFilter] and [aggregationOps]. *)
Definition converted : Type := (props * list Aggregation)%type.

Section Server.
Context `{JSRuntime} `{PathResolver}.
Variable RELATIONS : list Rel.t.
Variable pool : Pool.

(** The callback of [filters.forEach]. A field path that names an
    inherited member makes [sqlFilter[fieldPath]] that member: the
    write of the operator lands on it and not in [sqlFilter]. On
    [__proto__] it lands on [Object.prototype], and from there on every
    object of the process inherits the key: that run is not modelled, and
    is [Beyond]. The properties that speak of every run of the handler
    name the requests they cover (see [convertFilters_covered]). *)
Definition convertFilter (root : string) (st : converted) (f : Filter)
  : result converted :=
  _ <- validateFilter f ;;
  let fieldPath := resolveFieldPath root (collection f) (field f) in
  let '(sqlFilter, aggregationOps) := st in
  if isAggregationTag (operator f) then
    let op :=
      mkAggregation (operator f) fieldPath
        (Some (operator f ++ "_" ++ underscored fieldPath)) in
    Ok (sqlFilter, app aggregationOps [op])
  else
    let sqlFilter :=
      if truthy (getProp sqlFilter fieldPath) then sqlFilter
      else setProp fieldPath (VObj []) sqlFilter in
    match getProp sqlFilter fieldPath with
    | VObj conds =>
        Ok (replaceOwn fieldPath
              (VObj (setProp ("$" ++ operator f) (value f) conds))
              sqlFilter,
            aggregationOps)
    | VBuiltin k =>
        if String.eqb k "__proto__" then Beyond
        else Ok (sqlFilter, aggregationOps)
    | _ => Ok (sqlFilter, aggregationOps)
    end.

Definition convertFilters (filters : list Filter) : result converted :=
  forEachM (convertFilter (resolveRoot filters)) filters ([], []).

Definition buildDetailedQueryPlan (filters : list Filter)
  : result QueryPlan :=
  let root := resolveRoot filters in
  js <- buildJoinPlan RELATIONS root (map collection filters) ;;
  let otherTableFilters :=
    filter (fun f => negb (String.eqb (collection f) root)
                     && negb (isAggregationTag (operator f)))
           filters in
  Ok (mkQueryPlan [root] js
        (unique ((root ++ ".*")
                 :: map (fun f => resolveFieldPath root (collection f)
                                                   (field f))
                        otherTableFilters))).

Definition buildAggregationQueryPlan (filters : list Filter)
     (aggregationOps : list AggregationOp) : result QueryPlan :=
  let root := resolveRoot filters in
  js <- buildJoinPlan RELATIONS root
          (app (map collection filters)
               (map agg_collection aggregationOps)) ;;
  Ok (mkQueryPlan [root] js
        (map (fun op =>
                if String.eqb (agg_operator op) "count" then "*"
                else resolveFieldPath root (agg_collection op)
                                      (agg_field op))
             aggregationOps)).

Definition transformAggregation (agg : AggregationOp) : Aggregation :=
  mkAggregation (agg_operator agg)
    (agg_collection agg ++ "." ++ agg_field agg)
    (Some (aliasOr (agg_alias agg)
                   (agg_operator agg ++ "_" ++ agg_field agg))).

Definition rowsValue (rows : list props) : jsval := VArr (map VObj rows).

Fixpoint validateFilters (filters : list Filter)
  : result (option Response) :=
  match filters with
  | [] => Ok None
  | f :: rest =>
      _ <- validateFilter f ;;
      if String.eqb (collection f) "" || String.eqb (field f) ""
         || String.eqb (operator f) ""
      then Ok (Some (mkResponse 400
                       (errorBody
                          "Each filter must have collection, field, and operator")))
      else validateFilters rest
  end.

Definition queryBoth (filters : list Filter)
     (aggregation : list AggregationOp) (sqlFilter : props)
  : result Response :=
  let transformedAggregations := map transformAggregation aggregation in
  detailedQueryPlan <- buildDetailedQueryPlan filters ;;
  let detailedData :=
    data (executeSQLQuery pool detailedQueryPlan (VObj sqlFilter) []) in
  aggregationQueryPlan <- buildAggregationQueryPlan filters aggregation ;;
  let aggregationData :=
    aggregations (executeSQLQuery pool aggregationQueryPlan
                    (VObj sqlFilter) transformedAggregations) in
  Ok (mkResponse 200
        (VObj [ ("success", VBool true);
                ("type", VStr "both");
                ("detailed_count", vlength detailedData);
                ("aggregation_count", vlength aggregationData);
                ("detailed_data", rowsValue detailedData);
                ("aggregation_data", VArr aggregationData) ])).

Definition queryRegular (filters : list Filter) (sqlFilter : props)
  : result Response :=
  let root := resolveRoot filters in
  js <- buildJoinPlan RELATIONS root (map collection filters) ;;
  early <- validateFilters filters ;;
  match early with
  | Some r => Ok r
  | None =>
      let otherTableFilters :=
        filter (fun f => negb (String.eqb (collection f) root)) filters in
      let queryPlan :=
        mkQueryPlan [root] js
          (unique ((root ++ ".*")
                   :: map (fun f => resolveFieldPath root (collection f)
                                                     (field f))
                          otherTableFilters)) in
      let detailedData :=
        data (executeSQLQuery pool queryPlan (VObj sqlFilter) []) in
      Ok (mkResponse 200
            (VObj [ ("success", VBool true);
                    ("type", VStr "regular");
                    ("root", VStr root);
                    ("count", vlength detailedData);
                    ("data", rowsValue detailedData) ]))
  end.

(** [app.post("/query", ...)] on a parsed body
    [{database, filters, aggregation}]. *)
Definition query (database : string) (filters : list Filter)
     (aggregation : list AggregationOp) : result Response :=
  if String.eqb database ""
  then Ok (mkResponse 400 (errorBody "Database name is required"))
  else
    match (st <- convertFilters filters ;;
           match aggregation with
           | [] => queryRegular filters (fst st)
           | _ => queryBoth filters aggregation (fst st)
           end) with
    | Ok r => Ok r
    | Throw e => Ok (catchQuery e)
    | Beyond => Beyond
    end.
End Server.

End SQL.

(* ================================================================== *)
(** * A runtime and a path resolver to evaluate examples *)
(* ================================================================== *)

Module Sample.

(** Ten-character ISO dates with a month 01..12 and a day 01..31 parse;
    the numeric strings written with the digit 0 alone are zero. *)
Definition twoDigits (a b : ascii) : nat :=
  (nat_of_ascii a - 48) * 10 + (nat_of_ascii b - 48).

Definition dateValid (s : string) : bool :=
  match chars s with
  | [_; _; _; _; _; m1; m2; _; d1; d2] =>
    Mongo.dateRegex (chars s)
    && (1 <=? twoDigits m1 m2)%nat && (twoDigits m1 m2 <=? 12)%nat
    && (1 <=? twoDigits d1 d2)%nat && (twoDigits d1 d2 <=? 31)%nat
  | _ => false
  end.

Definition runtime : JSRuntime :=
  {| DateValid := dateValid;
     NumberIsZero := fun s => String.eqb (trim s) "0" |}.

Definition jstext : JSText :=
  {| NumText := fun z => NilZero.string_of_int (Z.to_int z);
     NumberText := trim;
     DateText := fun s => s |}.

(** Modelled from the spec: [pathResolver.js] is missing from the sources.
    [findPath(start, end)] is a breadth-first search over the relation
    list read as an undirected graph; it returns the first path found,
    the neighbours of an entity taken in the order of the list, the
    one-element path when start and end are the same entity, and no path
    when the two are not connected. *)
Definition neighbours (rels : list Rel.t) (n : string) : list string :=
  flat_map (fun r => if String.eqb (Rel.from r) n then [Rel.to r]
                     else if String.eqb (Rel.to r) n then [Rel.from r]
                     else [])
           rels.

(** Modelled from the spec: the breadth-first search of [pathResolver.js].
    The queue holds the paths found so far, each from its last entity back
    to the start. *)
Fixpoint search (fuel : nat) (rels : list Rel.t) (target : string)
       (queue : list (list string)) (visited : list string)
  : option (list string) :=
  match fuel with
  | O => None
  | S fuel' =>
    match queue with
    | [] => None
    | [] :: rest => search fuel' rels target rest visited
    | (node :: before) :: rest =>
        if String.eqb node target then Some (rev (node :: before))
        else
          let fresh :=
            filter (fun n => negb (existsb (String.eqb n) visited))
                   (unique (neighbours rels node)) in
          search fuel' rels target
                 (rest ++ map (fun n => n :: node :: before) fresh)%list
                 (visited ++ fresh)%list
    end
  end.

(** Modelled from the spec: [findPath] of [pathResolver.js] over a relation
    list. The fuel is one more than the number of entities the relations
    can name besides the start; each turn takes one path from the queue,
    and no entity enters the queue twice. *)
Definition bfs (rels : list Rel.t) : PathResolver :=
  {| findPath := fun a b =>
       search (2 * List.length rels + 2) rels b [[a]] [a] |}.

(** A driver that answers every query with no rows. *)
Definition emptyPool : SQL.Pool := fun _ _ => Answer [].

(** A MongoDB driver that connects, finds no document and answers every
    pipeline with no rows. *)
Definition emptyDriver : Mongo.Driver :=
  Mongo.mkDriver (fun _ => None) (fun _ _ => Answer []) (fun _ _ => Answer None).

(** A MongoDB driver that holds the one customer [{_id: 7, name: "Ann"}]. *)
Definition customerDriver : Mongo.Driver :=
  Mongo.mkDriver
    (fun _ => None)
    (fun _ _ => Answer [])
    (fun coll id =>
       if String.eqb coll "customers"
       then match id with
            | VNum 7 => Answer (Some [("_id", VNum 7); ("name", VStr "Ann")])
            | _ => Answer None
            end
       else Failure "connection closed").

(** A pool on which the statements that name the alias [total amount] fail
    with the syntax error of the server, and every other statement returns
    the one row [{value: 42}]. *)
Definition syntaxErrorMessage : string :=
  "You have an error in your SQL syntax; check the manual that corresponds to your MySQL server version for the right syntax to use near 'amount_invoices_amount FROM invoices' at line 1".

Definition aliasPool : SQL.Pool :=
  fun q _ => if includes q " as total amount_"
             then Failure syntaxErrorMessage
             else Answer [[("value", VNum 42)]].


End Sample.

(* ================================================================== *)
(** * Notions the properties are stated with *)
(* ================================================================== *)

(** [Subseq l1 l2]: [l1] is [l2] with some elements left out, the order
    kept. *)
Inductive Subseq {A : Type} : list A -> list A -> Prop :=
  | Subseq_nil : Subseq [] []
  | Subseq_skip (x : A) (l1 l2 : list A) : Subseq l1 l2 -> Subseq l1 (x :: l2)
  | Subseq_keep (x : A) (l1 l2 : list A) :
      Subseq l1 l2 -> Subseq (x :: l1) (x :: l2).

(** The edges the document planner can emit for a relation list: each
    relation walked in either direction. *)
Definition edgesOf (rels : list Rel.t) : list Mongo.JoinEdge :=
  flat_map (fun rel =>
              [ Mongo.mkJoinEdge (Rel.to rel) (Rel.local rel)
                                 (Rel.foreign rel) (Rel.to rel);
                Mongo.mkJoinEdge (Rel.from rel) (Rel.foreign rel)
                                 (Rel.local rel) (Rel.from rel) ])
           rels.

Definition edge_eqb (e1 e2 : Mongo.JoinEdge) : bool :=
  String.eqb (Mongo.from e1) (Mongo.from e2)
  && String.eqb (Mongo.localField e1) (Mongo.localField e2)
  && String.eqb (Mongo.foreignField e1) (Mongo.foreignField e2)
  && String.eqb (Mongo.as_ e1) (Mongo.as_ e2).

(** The key tells the edges of a list apart. *)
Definition keySeparates (edges : list Mongo.JoinEdge) : bool :=
  forallb (fun e1 =>
             forallb (fun e2 =>
                        implb (String.eqb (Mongo.joinKey e1) (Mongo.joinKey e2))
                              (edge_eqb e1 e2))
                     edges)
          edges.

(** The coercion of a filter value in the order the specification gives:
    the identifier shape first, then the date shape, then the numeric
    check, else the value as it is. *)
Definition coerceInSpecOrder `{JSRuntime} (v : jsval) : jsval :=
  match v with
  | VStr s =>
      if Mongo.isObjectIdShape s then VObjectId s
      else if Mongo.isDateShape s && DateValid s then VDate s
      else if negb (String.eqb (trim s) "") && negb (isNaN_string s)
      then VNumber s
      else v
  | _ => v
  end.

(** [occurs v w]: [v] is [w] or a value held, at any depth, in the own
    properties of [w] (the members of an object, the items of an array, the
    characters of a string). *)
Inductive occurs (v : jsval) : jsval -> Prop :=
  | occurs_here : occurs v v
  | occurs_inside (w x : jsval) (k : string) :
      In (k, x) (ownEntries w) -> occurs v x -> occurs v w.

(** What [$regex] binds for a pattern:
    [pattern.replace(/\.\*/g, '%').replace(/\*/g, '%')]. *)
Definition likePattern (pattern : string) : string :=
  text (replaceChar "*"%char "%"%char (replaceDotStar (chars pattern))).

Section FilterLoop.
Context `{JSRuntime}.

(** The loop over the children of [$and] / [$or]. *)
Definition translateChildren (conds : list jsval) (subs : SQL.acc)
  : SQL.acc :=
  fold_left (fun subs cond => SQL.addChild (SQL.buildSQLFilter cond) subs)
          conds subs.

(** The body of the loop over [Object.entries(filter)]. *)
Definition entryStep (st : SQL.acc) (e : string * jsval) : SQL.acc :=
  let '(key, value) := e in
  if startsWith key "$" then
    if String.eqb key "$and" && isArray value then
      match value with
      | VArr conds => SQL.compose " AND " (translateChildren conds ([], [])) st
      | _ => st
      end
    else if String.eqb key "$or" && isArray value then
      match value with
      | VArr conds => SQL.compose " OR " (translateChildren conds ([], [])) st
      | _ => st
      end
    else st
  else SQL.buildCondition key value st.
End FilterLoop.

(** A parameter of the tabular translation comes from the filter: it is a
    value of the filter as it stands, or the LIKE pattern of a string of
    the filter. *)
Definition fromFilter (p filter : jsval) : Prop :=
  occurs p filter
  \/ exists s, occurs (VStr s) filter /\ p = VStr (likePattern s).

(** The parameters of a translation come from the filter. *)
Definition paramsFrom `{JSRuntime} (filter : jsval) : Prop :=
  forall p, In p (SQL.params (SQL.buildSQLFilter filter)) ->
            fromFilter p filter.

(** ** Placeholders and the values bound to them *)

(** A piece of a statement once its parameters are bound: a code unit of
    the text, or the value bound at a placeholder. *)
Inductive token : Type :=
  | Lit (c : ascii)
  | Bound (v : jsval).



Definition countPlaceholders (s : string) : nat :=
  List.length (filter (Ascii.eqb "?"%char) (chars s)).

Definition noPlaceholder (s : string) : bool :=
  forallb (fun c => negb (Ascii.eqb c "?"%char)) (chars s).








Section BoundFilter.
Context `{JSRuntime}.



End BoundFilter.



(** The text of a bound predicate: each bound value taken out and a [?]
    written in its place. *)
Definition tokenChar (t : token) : ascii :=
  match t with Lit c => c | Bound _ => "?"%char end.

Definition withPlaceholders (ts : list token) : string :=
  text (map tokenChar ts).




(** The fields the enhancement writes. *)
Definition decorationKeys : list string :=
  [ "customers_name"; "products_name"; "categories_name";
    "customer_region"; "customer_zone" ].

(** No lookup of the driver finds a document: each fails or answers
    [null]. *)
Definition noLookupSucceeds (drv : Mongo.Driver) : Prop :=
  forall coll id, match Mongo.findOne drv coll id with
                  | Answer (Some _) => False
                  | _ => True
                  end.

(** The condition [buildMatch] computes for one filter:
    [OPERATORS[f.operator](f.value)]. *)
Definition conditionOf `{JSRuntime} `{JSText} (f : Mongo.MatchFilter)
  : result props :=
  match Mongo.OPERATORS (Mongo.moperator f) with
  | None => Throw (JsError ("Invalid operator: " ++ Mongo.moperator f))
  | Some (Mongo.OpString _) =>
      Throw (JsTypeError "OPERATORS[f.operator] is not a function")
  | Some (Mongo.OpInherited _) => Beyond
  | Some (Mongo.OpFunction op) => op (Mongo.mvalue f)
  end.





(** The [$group] stage as the words describe it. The alias an aggregation
    is computed under: its own, else [count] for a count and the operator
    for a sum, an average, a minimum or a maximum; none for another
    operator. *)
Definition groupAlias (op : AggregationOp) : option string :=
  if String.eqb (agg_operator op) "count"
  then Some (aliasOr (agg_alias op) "count")
  else if existsb (String.eqb (agg_operator op)) ["sum"; "avg"; "min"; "max"]
  then Some (aliasOr (agg_alias op) (agg_operator op))
  else None.

(** The accumulator of an aggregation: [{$sum: 1}] for a count, else
    [{$<operator>: "$<field path>"}]. *)
Definition accumulator (root : string) (op : AggregationOp) : jsval :=
  if String.eqb (agg_operator op) "count" then VObj [("$sum", VNum 1)]
  else VObj [("$" ++ agg_operator op,
              VStr ("$" ++ resolveFieldPath root (agg_collection op)
                                            (agg_field op)))].

Definition hasAlias (k : string) (op : AggregationOp) : bool :=
  match groupAlias op with Some a => String.eqb a k | None => false end.

(** The last aggregation of the list that is computed under the alias
    [k]. *)
Definition lastWithAlias (k : string) (ops : list AggregationOp)
  : option AggregationOp :=
  find (hasAlias k) (rev ops).

(** The member [k] of the stage: none for [__proto__]; the accumulator of
    the last aggregation with the alias [k]; else [null] for [_id]. *)
Definition groupMember (root : string) (ops : list AggregationOp)
           (k : string) : option jsval :=
  if String.eqb k "__proto__" then None
  else match lastWithAlias k ops with
       | Some op => Some (accumulator root op)
       | None => if String.eqb k "_id" then Some VNull else None
       end.


(* ================================================================== *)
(** * Further parts of the two servers *)
(* ================================================================== *)

(** ** sanitizeInput (both [server.js]) *)

(** [[a-zA-Z0-9_]] *)
Definition isWordChar (c : ascii) : bool :=
  let n := nat_of_ascii c in
  (isDigit c || ((97 <=? n) && (n <=? 122)) || ((65 <=? n) && (n <=? 90))
   || (n =? 95))%nat.

(** [s.replace(/[^a-zA-Z0-9_]/g, '')] *)
Definition keepWordChars (s : string) : string :=
  text (filter isWordChar (chars s)).

(** [s.replace(/[.$]/g, '')] *)
Definition dropDotDollar (s : string) : string :=
  text (filter (fun c => negb (Ascii.eqb c "."%char || Ascii.eqb c "$"%char))
               (chars s)).

(** The body of the loop of [sanitizeInput]; the three members of a filter
    are strings here, and the value is not touched. *)
Definition sanitizeFilter (f : Filter) : Filter :=
  mkFilter (keepWordChars (collection f)) (dropDotDollar (field f))
           (keepWordChars (operator f)) (value f).

(** [sanitizeInput] on [req.body.filters]. *)
Definition sanitizeInput (filters : list Filter) : list Filter :=
  map sanitizeFilter filters.

(** ** getTableSchema ([sqlQueryBuilder.js]) *)

Module Schema.

(** [/^[a-zA-Z0-9_$]+$/.test(tableName)] *)
Definition validTableName (tableName : string) : bool :=
  match chars tableName with
  | [] => false
  | l => forallb (fun c => isWordChar c || Ascii.eqb c "$"%char) l
  end.

(** What [getTableSchema] returns. *)
Record TableSchema : Type := mkTableSchema {
  success : bool;
  tableName : string;
  error : option string;
  columns : list jsval
}.

(** [row.Null === 'YES'] *)
Definition isYes (v : jsval) : bool :=
  match v with VStr s => String.eqb s "YES" | _ => false end.

(** The mapper of [rows.map(...)]. *)
Definition column (row : props) : jsval :=
  VObj [ ("name", getProp row "Field");
         ("type", getProp row "Type");
         ("nullable", VBool (isYes (getProp row "Null")));
         ("key", getProp row "Key");
         ("default", getProp row "Default");
         ("extra", getProp row "Extra") ].

(** The statement sent for a table. *)
Definition describeStatement (name : string) : string :=
  "DESCRIBE `" ++ name ++ "`".

Definition getTableSchema (pool : SQL.Pool) (name : string) : TableSchema :=
  if negb (validTableName name)
  then mkTableSchema false name (Some "Invalid table name") []
  else match pool (describeStatement name) [] with
       | Failure m => mkTableSchema false name (Some m) []
       | Answer rows => mkTableSchema true name None (map column rows)
       end.

End Schema.

(** ** updateQueryConfig ([queryConfigManager.js]) *)

Module QueryConfig.

(** [JSON.stringify], the runtime's. *)
Class JSON := {
  stringify : jsval -> jsval
}.

(** [pool.execute(statement, values)] for a statement that writes: the
    result header. *)
Definition Executor : Type := string -> list jsval -> reply jsval.

Definition isUndefined (v : jsval) : bool :=
  match v with VUndefined => true | _ => false end.

(** What the functions of the module return:
    [{success, error}] or [{success, message}]. *)
Record Outcome : Type := mkOutcome {
  success : bool;
  error : option string;
  message_ : option string
}.

Definition failed (msg : string) : Outcome := mkOutcome false (Some msg) None.

(** [if (test !== undefined) { fields.push(`k = ?`); values.push(v); }] *)
Definition addField (k : string) (test v : jsval)
           (st : list string * list jsval) : list string * list jsval :=
  if isUndefined test then st
  else (fst st ++ [(k ++ " = ?")%string], snd st ++ [v])%list.

Definition updateStatement (fields : list string) : string :=
  "UPDATE query_configs SET " ++ join ", " fields ++ " WHERE id = ?".

(** [v === 0] *)
Definition isZero `{JSRuntime} (v : jsval) : bool :=
  match v with
  | VNum z => (z =? 0)%Z
  | VNumber s => NumberIsZero s
  | _ => false
  end.

(** [updates.k] and [result.k]. A function has a [name] of its own, and
    neither a request body nor a result header is one. *)
Definition member (v : jsval) (k : string) : result jsval :=
  match v with
  | VBuiltin _ => Beyond
  | _ => Mongo.readMember v k
  end.

Section Update.
Context `{JSRuntime} `{JSON}.
Variable execute : Executor.

(** The two arrays once the four members of [updates] are looked at. *)
Definition setFields (updates : jsval)
  : result (list string * list jsval) :=
  name <- member updates "name" ;;
  description <- member updates "description" ;;
  filters <- member updates "filters" ;;
  aggregation <- member updates "aggregation" ;;
  Ok (addField "aggregation" aggregation (stringify aggregation)
        (addField "filters" filters (stringify filters)
           (addField "description" description description
              (addField "name" name name ([], []))))).

(** What [updateQueryConfig] passes to [pool.execute]; [None] when it
    returns before. *)
Definition updateCall (id updates : jsval)
  : result (option (string * list jsval)) :=
  st <- setFields updates ;;
  match fst st with
  | [] => Ok None
  | fields => Ok (Some (updateStatement fields, (snd st ++ [id])%list))
  end.

(** [updateQueryConfig(id, updates)]: every exception is caught and
    returned as [{success: false, error}]. *)
Definition updateQueryConfig (id updates : jsval) : result Outcome :=
  match updateCall id updates with
  | Beyond => Beyond
  | Throw e => Ok (failed (message e))
  | Ok None => Ok (failed "No fields to update")
  | Ok (Some (statement, values)) =>
      match execute statement values with
      | Failure m => Ok (failed m)
      | Answer result =>
          match member result "affectedRows" with
          | Beyond => Beyond
          | Throw e => Ok (failed (message e))
          | Ok affectedRows =>
              Ok (if isZero affectedRows
                  then failed "Configuration not found"
                  else mkOutcome true None
                         (Some "Configuration updated successfully"))
          end
      end
  end.
End Update.

(** A [JSON.stringify] to evaluate examples: the texts of [null], of the
    booleans, of the empty array and of the empty object, and [undefined]
    for [undefined]; the examples serialise nothing else. *)
Definition exampleJSON : JSON :=
  {| stringify v :=
       match v with
       | VNull => VStr "null"
       | VBool true => VStr "true"
       | VBool false => VStr "false"
       | VArr [] => VStr "[]"
       | VObj [] => VStr "{}"
       | _ => VUndefined
       end |}.

End QueryConfig.

(** ** What a [/query] handler answers *)

(** The three answers of a [/query] handler: status 200 with
    [success: true]; status 400 with a message; status 500 with the
    generic message. *)
Definition queryAnswer (r : Response) : Prop :=
  (status r = 200%nat
   /\ exists o, body r = VObj o /\ getOwn "success" o = Some (VBool true))
  \/ (status r = 400%nat /\ exists msg, body r = errorBody msg)
  \/ r = mkResponse 500 (errorBody "Internal server error").

(* ================================================================== *)
(** * Properties *)
(* ================================================================== *)

(** ** Strings and lists of code units *)

Lemma chars_append (a b : string) : chars (a ++ b) = (chars a ++ chars b)%list.
Proof.
  induction a as [|c a IH]; simpl; [reflexivity|].
  unfold chars in *. simpl. now rewrite IH.
Qed.


Lemma chars_text (l : list ascii) : chars (text l) = l.
Proof. apply list_ascii_of_string_of_list_ascii. Qed.

Lemma text_chars (s : string) : text (chars s) = s.
Proof. apply string_of_list_ascii_of_string. Qed.

Lemma string_eqb_neq (a b : string) : a <> b -> String.eqb a b = false.
Proof. intro Hn. now apply String.eqb_neq. Qed.

(** ** The error monad *)

Lemma bind_Ok {A B} (r : result A) (k : A -> result B) (b : B) :
  bind r k = Ok b -> exists a, r = Ok a /\ k a = Ok b.
Proof. destruct r; simpl; intro E; try discriminate. now exists a. Qed.

(** ** Unknown operators *)

Section UnknownOperators.
Context `{JSRuntime} `{JSText}.

(** Document backend: an operator that [OPERATORS] does not hold makes
    [buildMatch] throw "Invalid operator", whatever was built before. *)
Lemma buildMatchFrom_unknown_operator (m : props) (f : Mongo.MatchFilter)
    (rest : list Mongo.MatchFilter) :
  Mongo.OPERATORS (Mongo.moperator f) = None ->
  Mongo.buildMatchFrom m (f :: rest)
  = Throw (JsError ("Invalid operator: " ++ Mongo.moperator f)).
Proof. intro E. simpl. now rewrite E. Qed.

(** ... and the handler answers that error with status 400 and the
    message. *)
Lemma invalid_operator_is_client_error (op : string) :
  catchQuery (JsError ("Invalid operator: " ++ op))
  = mkResponse 400 (errorBody ("Invalid operator: " ++ op)).
Proof. reflexivity. Qed.

(** C1. Tabular backend: a condition [{key: {op: v}}] whose operator
    [SQL_OPERATORS] does not hold is translated to the empty clause with
    no parameter and no error: the operator is dropped. *)
Theorem tabular_unknown_operator_dropped (key op : string) (v : jsval) :
  startsWith key "$" = false ->
  SQL.SQL_OPERATORS op = None ->
  SQL.buildSQLFilter (VObj [(key, VObj [(op, v)])]) = SQL.mkSQLFilter "" [].
Proof.
  intros Hkey Hop. cbn [SQL.buildSQLFilter SQL.isEmptyFilter truthy ownEntries
                      List.length Nat.eqb negb orb].
  rewrite Hkey. unfold SQL.buildCondition. cbn [typeofObject isArray negb andb
                                              ownEntries fold_left].
  unfold SQL.operatorCondition. rewrite Hop. reflexivity.
Qed.
End UnknownOperators.

Lemma tabular_unknown_operator_dropped_witness :
  startsWith "name" "$" = false
  /\ SQL.SQL_OPERATORS "$contains" = None
  /\ @SQL.buildSQLFilter Sample.runtime
       (VObj [("name", VObj [("$contains", VStr "abc")])])
     = SQL.mkSQLFilter "" [].
Proof.
  split; [reflexivity|]. split; [reflexivity|].
  apply (@tabular_unknown_operator_dropped Sample.runtime);
    reflexivity.
Defined.

(** The same request through the tabular [/query] handler: the whitelisted
    operator [contains] is validated, turned into [$contains], and lost;
    the query that runs has no WHERE clause and the answer is a success. *)
Lemma tabular_query_contains_unfiltered
      (rt : JSRuntime) (pr : PathResolver) (rels : list Rel.t)
      (pool : SQL.Pool) :
  SQL.query rels pool "salesDB"
            [mkFilter "invoices" "name" "contains" (VStr "abc")] []
  = Ok (mkResponse 200
          (VObj [ ("success", VBool true);
                  ("type", VStr "regular");
                  ("root", VStr "invoices");
                  ("count",
                   vlength (SQL.data
                     (SQL.executeSQLQuery pool
                        (SQL.mkQueryPlan ["invoices"] [] ["invoices.*"])
                        (VObj [("name", VObj [("$contains", VStr "abc")])])
                        [])));
                  ("data",
                   SQL.rowsValue (SQL.data
                     (SQL.executeSQLQuery pool
                        (SQL.mkQueryPlan ["invoices"] [] ["invoices.*"])
                        (VObj [("name", VObj [("$contains", VStr "abc")])])
                        []))) ]))
  /\ SQL.mainQuery (SQL.mkQueryPlan ["invoices"] [] ["invoices.*"])
                   (VObj [("name", VObj [("$contains", VStr "abc")])])
     = "SELECT invoices.* FROM invoices".
Proof. split; reflexivity. Qed.

(** ** [dedupe] *)

Lemma existsb_eqb_In (k : string) (l : list string) :
  existsb (String.eqb k) l = true <-> In k l.
Proof.
  rewrite existsb_exists. split.
  - intros [x [Hin Heq]]. apply String.eqb_eq in Heq. now subst.
  - intro Hin. exists k. split; [assumption | apply String.eqb_refl].
Qed.

Lemma existsb_eqb_not_In (k : string) (l : list string) :
  existsb (String.eqb k) l = false <-> ~ In k l.
Proof.
  rewrite <- existsb_eqb_In.
  destruct (existsb (String.eqb k) l); split; intro Hx;
    solve [ congruence | discriminate | exfalso; now apply Hx ].
Qed.

Section DedupeFacts.
Variable A : Type.
Variable keyFn : A -> string.

Lemma dedupeFrom_Subseq (seen : list string) (arr : list A) :
  Subseq (dedupeFrom keyFn seen arr) arr.
Proof.
  revert seen. induction arr as [|i rest IH]; intro seen; simpl.
  - constructor.
  - destruct (existsb (String.eqb (keyFn i)) seen); constructor; apply IH.
Qed.

(** An element that is kept is the first of the array with its key. *)
Lemma dedupeFrom_first (seen : list string) (arr : list A) (x : A) :
  In x (dedupeFrom keyFn seen arr) ->
  ~ In (keyFn x) seen
  /\ exists l1 l2, arr = (l1 ++ x :: l2)%list
                 /\ ~ In (keyFn x) (map keyFn l1).
Proof.
  revert seen. induction arr as [|i rest IH]; intro seen; simpl.
  - intros [].
  - destruct (existsb (String.eqb (keyFn i)) seen) eqn:E.
    + intro Hin. destruct (IH _ Hin) as [Hs [l1 [l2 [-> Hn]]]].
      split; [assumption|]. exists (i :: l1), l2. split; [reflexivity|].
      simpl. intros [Heq | Hin']; [|auto].
      apply existsb_eqb_In in E. rewrite Heq in E. auto.
    + intros [-> | Hin].
      * apply existsb_eqb_not_In in E. split; [assumption|].
        exists [], rest. split; [reflexivity | intros []].
      * destruct (IH _ Hin) as [Hs [l1 [l2 [-> Hn]]]].
        split; [intro; apply Hs; now right|].
        exists (i :: l1), l2. split; [reflexivity|].
        simpl. intros [Heq | Hin']; [|auto].
        apply Hs. now left.
Qed.

(** No two kept elements share a key. *)
Lemma dedupeFrom_keys_NoDup (seen : list string) (arr : list A) :
  NoDup (map keyFn (dedupeFrom keyFn seen arr)).
Proof.
  revert seen. induction arr as [|i rest IH]; intro seen; simpl.
  - constructor.
  - destruct (existsb (String.eqb (keyFn i)) seen) eqn:E; [apply IH|].
    simpl. constructor; [|apply IH].
    rewrite in_map_iff. intros [y [Hk Hy]].
    apply dedupeFrom_first in Hy. destruct Hy as [Hs _].
    apply Hs. left. now symmetry.
Qed.

(** Every key of the array is the key of a kept element, unless it was
    seen before. *)
Lemma dedupeFrom_keys_complete (seen : list string) (arr : list A) (x : A) :
  In x arr ->
  In (keyFn x) seen \/ In (keyFn x) (map keyFn (dedupeFrom keyFn seen arr)).
Proof.
  revert seen. induction arr as [|i rest IH]; intro seen; simpl.
  - intros [].
  - intros [-> | Hin].
    + destruct (existsb (String.eqb (keyFn x)) seen) eqn:E.
      * left. now apply existsb_eqb_In.
      * right. now left.
    + destruct (existsb (String.eqb (keyFn i)) seen) eqn:E.
      * now apply IH.
      * destruct (IH (keyFn i :: seen) Hin) as [[Heq | Hs] | Hk].
        -- right. left. assumption.
        -- now left.
        -- right. right. assumption.
Qed.

(** Where the key tells the elements of the array apart, every element of
    the array is kept. *)
Lemma dedupe_keeps_distinct (arr : list A) :
  (forall x y, In x arr -> In y arr -> keyFn x = keyFn y -> x = y) ->
  forall x, In x arr <-> In x (dedupe keyFn arr).
Proof.
  intros Hinj x. split.
  - intro Hin. destruct (dedupeFrom_keys_complete [] arr x Hin) as [[] | Hk].
    apply in_map_iff in Hk. destruct Hk as [y [Hk Hy]].
    assert (Hy' : In y arr).
    { apply dedupeFrom_first in Hy. destruct Hy as [_ [l1 [l2 [-> _]]]].
      apply in_or_app. right. now left. }
    rewrite <- (Hinj y x Hy' Hin Hk). exact Hy.
  - intro Hin. apply dedupeFrom_first in Hin.
    destruct Hin as [_ [l1 [l2 [-> _]]]]. apply in_or_app. right. now left.
Qed.

Lemma dedupe_NoDup (arr : list A) : NoDup (dedupe keyFn arr).
Proof.
  apply (NoDup_map_inv keyFn). apply dedupeFrom_keys_NoDup.
Qed.
End DedupeFacts.

(** ** Join plans *)

Lemma forEachM_invariant {A S} (P : S -> Prop) (body : S -> A -> result S)
      (xs : list A) (s0 s : S) :
  P s0 ->
  (forall s1 x s2, P s1 -> In x xs -> body s1 x = Ok s2 -> P s2) ->
  forEachM body xs s0 = Ok s -> P s.
Proof.
  revert s0. induction xs as [|x xs IH]; intros s0 H0 Hstep; simpl.
  - intro E. inversion E. now subst.
  - intro E. apply bind_Ok in E. destruct E as [s1 [E1 E2]].
    apply (IH s1).
    + apply (Hstep s0 x); [assumption | now left | assumption].
    + intros s2 y s3 H2 Hy. apply Hstep; [assumption | now right].
    + assumption.
Qed.

Lemma edge_eqb_eq (e1 e2 : Mongo.JoinEdge) : edge_eqb e1 e2 = true -> e1 = e2.
Proof.
  destruct e1, e2. unfold edge_eqb. simpl.
  rewrite !andb_true_iff, !String.eqb_eq. intros [[[-> ->] ->] ->].
  reflexivity.
Qed.

Lemma keySeparates_sound (edges : list Mongo.JoinEdge) :
  keySeparates edges = true ->
  forall e1 e2, In e1 edges -> In e2 edges ->
                Mongo.joinKey e1 = Mongo.joinKey e2 -> e1 = e2.
Proof.
  unfold keySeparates. rewrite forallb_forall. intros Hall e1 e2 H1 H2 Hk.
  specialize (Hall e1 H1). rewrite forallb_forall in Hall.
  specialize (Hall e2 H2). apply edge_eqb_eq.
  apply String.eqb_eq in Hk. now rewrite Hk in Hall.
Qed.

Section DocumentJoinPlan.
Context `{PathResolver}.

Lemma findRelation_Some (rels : list Rel.t) (a b : string) (rel : Rel.t) :
  findRelation rels a b = Some rel ->
  In rel rels
  /\ ((Rel.from rel = a /\ Rel.to rel = b)
    \/ (Rel.from rel = b /\ Rel.to rel = a)).
Proof.
  unfold findRelation. intro E. apply find_some in E.
  destruct E as [Hin Hp]. split; [assumption|].
  apply orb_true_iff in Hp.
  destruct Hp as [Hp | Hp]; apply andb_true_iff in Hp;
  rewrite !String.eqb_eq in Hp; tauto.
Qed.

Lemma pathEdges_possible (path : list string) (es : list Mongo.JoinEdge) :
  Mongo.pathEdges path = Ok es ->
  Forall (fun e => In e (edgesOf Mongo.RELATIONS)) es.
Proof.
  revert es. induction path as [|a path IH]; intros es E.
  - simpl in E. inversion E. constructor.
  - destruct path as [|b rest].
    + simpl in E. inversion E. constructor.
    + cbn [Mongo.pathEdges] in E.
      destruct (findRelation Mongo.RELATIONS a b) as [rel|] eqn:Er;
        [|discriminate].
      apply bind_Ok in E. destruct E as [es' [E1 E2]]. inversion E2; subst.
      apply findRelation_Some in Er. destruct Er as [Hin Hab].
      constructor; [|now apply IH].
      unfold edgesOf. apply in_flat_map. exists rel. split; [assumption|].
      destruct (String.eqb (Rel.from rel) a) eqn:Ea.
      * apply String.eqb_eq in Ea. left.
        destruct Hab as [[_ <-] | [Hb Ha]]; [reflexivity|].
        replace b with (Rel.to rel) by congruence. reflexivity.
      * apply String.eqb_neq in Ea. right. left.
        destruct Hab as [[Ha _] | [<- _]]; [contradiction | reflexivity].
Qed.

Lemma collectJoins_possible (root : string) (filters : list Filter)
    (joins : list Mongo.JoinEdge) :
  Mongo.collectJoins root filters = Ok joins ->
  Forall (fun e => In e (edgesOf Mongo.RELATIONS)) joins.
Proof.
  unfold Mongo.collectJoins.
  apply (forEachM_invariant
         (fun js => Forall (fun e => In e (edgesOf Mongo.RELATIONS)) js)).
  - constructor.
  - intros s1 f s2 Hs1 _ E.
    destruct (String.eqb (collection f) root); [now inversion E; subst|].
    destruct (findPath root (collection f)) as [path|];
      [|now inversion E; subst].
    apply bind_Ok in E. destruct E as [es [E1 E2]]. inversion E2; subst.
    apply Forall_app. split; [assumption|].
    now apply (pathEdges_possible path).
Qed.

(** X3. Document backend: the plan is the list of emitted edges with the
    repetitions of an edge left out. It holds every emitted edge once, in
    first-seen order; no two distinct edges are merged. *)
Theorem document_join_plan_deduplicated (root : string)
      (filters : list Filter) (plan : list Mongo.JoinEdge) :
  Mongo.buildJoinPlan root filters = Ok plan ->
  exists joins,
  Mongo.collectJoins root filters = Ok joins
  /\ NoDup plan
  /\ Subseq plan joins
  /\ (forall e, In e joins <-> In e plan)
  /\ (forall e, In e plan ->
                exists l1 l2, joins = (l1 ++ e :: l2)%list /\ ~ In e l1).
Proof.
  unfold Mongo.buildJoinPlan. intro E. apply bind_Ok in E.
  destruct E as [joins [E1 E2]]. inversion E2; subst. clear E2.
  exists joins. split; [assumption|].
  split; [apply dedupe_NoDup|].
  split; [apply dedupeFrom_Subseq|].
  assert (Hinj : forall x y, In x joins -> In y joins ->
                           Mongo.joinKey x = Mongo.joinKey y -> x = y).
  { pose proof (collectJoins_possible _ _ E1) as Hp.
    rewrite Forall_forall in Hp. intros x y Hx Hy.
    apply (keySeparates_sound (edgesOf Mongo.RELATIONS));
      [vm_compute; reflexivity | now apply Hp | now apply Hp]. }
  split; [now apply dedupe_keeps_distinct|].
  intros e He. apply dedupeFrom_first in He.
  destruct He as [_ [l1 [l2 [-> Hn]]]]. exists l1, l2.
  split; [reflexivity|]. intro Hin. apply Hn. now apply in_map.
Qed.
End DocumentJoinPlan.

Lemma document_join_plan_deduplicated_witness :
  exists plan,
    @Mongo.buildJoinPlan (Sample.bfs Mongo.RELATIONS) "invoices"
      [ mkFilter "customers" "region" "eq" (VStr "EU");
        mkFilter "customers" "zone" "eq" (VStr "N") ] = Ok plan
    /\ plan = [Mongo.mkJoinEdge "customers" "customer_id" "_id" "customers"]
    /\ NoDup plan.
Proof.
  eexists. split; [reflexivity|]. split; [reflexivity|].
  destruct (@document_join_plan_deduplicated (Sample.bfs Mongo.RELATIONS)
              "invoices"
              [ mkFilter "customers" "region" "eq" (VStr "EU");
                mkFilter "customers" "zone" "eq" (VStr "N") ]
              _ eq_refl) as [joins [_ [Hnd _]]].
  exact Hnd.
Defined.

(** Tabular backend: the key ends in ":undefined:undefined" for every edge,
    so [dedupe] tells edges apart by [from] alone. *)
Lemma append_right_cancel (a b sfx : string) :
  a ++ sfx = b ++ sfx -> a = b.
Proof.
  intro E. apply (f_equal chars) in E. rewrite !chars_append in E.
  apply app_inv_tail in E. apply (f_equal text) in E.
  now rewrite !text_chars in E.
Qed.

Lemma tabular_dedupeFrom_by_from (seen : list string)
      (joins : list SQL.JoinEdge) :
  dedupeFrom SQL.joinKey (map (fun s => s ++ ":undefined:undefined") seen) joins
  = dedupeFrom SQL.from seen joins.
Proof.
  revert seen. induction joins as [|j rest IH]; intro seen; simpl;
    [reflexivity|].
  assert (Ex : existsb (String.eqb (SQL.joinKey j))
                       (map (fun s => s ++ ":undefined:undefined") seen)
               = existsb (String.eqb (SQL.from j)) seen).
  { clear IH. induction seen as [|s seen IHs]; simpl; [reflexivity|].
    rewrite IHs. f_equal. change (SQL.joinKey j)
      with (SQL.from j ++ ":undefined:undefined").
    destruct (String.eqb (SQL.from j) s) eqn:E.
    - apply String.eqb_eq in E. subst. apply String.eqb_refl.
    - apply String.eqb_neq. intro Heq. apply append_right_cancel in Heq.
      apply String.eqb_neq in E. contradiction. }
  rewrite Ex. destruct (existsb (String.eqb (SQL.from j)) seen);
    [apply IH|].
  f_equal. apply (IH (SQL.from j :: seen)).
Qed.

(** Tabular backend: two edges with the same [from] are one edge to
    [dedupe], whatever their [to]. *)
Lemma tabular_dedupe_by_from (joins : list SQL.JoinEdge) :
  dedupe SQL.joinKey joins = dedupe SQL.from joins.
Proof. apply (tabular_dedupeFrom_by_from []). Qed.

(** Tabular backend: a plan holds at most one edge per [from], whatever
    the relations and the paths. *)
Lemma tabular_join_plan_one_edge_per_from (pr : PathResolver)
      (rels : list Rel.t) (root : string) (targets : list string)
      (plan : list SQL.JoinEdge) :
  SQL.buildJoinPlan rels root targets = Ok plan ->
  NoDup (map SQL.from plan).
Proof.
  unfold SQL.buildJoinPlan. intro E. apply bind_Ok in E.
  destruct E as [joins [_ E]]. inversion E. subst plan.
  rewrite tabular_dedupe_by_from. apply dedupeFrom_keys_NoDup.
Qed.

(** C2. Tabular backend, root [categories], references to [products] and
    to [invoices]: the planner emits the two distinct edges
    categories._id -> products.category_id and
    categories._id -> invoices.category_id, and the plan keeps the first
    only. *)
Theorem tabular_join_plan_merges_distinct_edges :
  let e1 := SQL.mkJoinEdge "categories._id" "products.category_id" "INNER" in
  let e2 := SQL.mkJoinEdge "categories._id" "invoices.category_id" "INNER" in
  @SQL.collectJoins (Sample.bfs Mongo.RELATIONS) Mongo.RELATIONS
     "categories" ["products"; "invoices"] = Ok [e1; e2]
  /\ e1 <> e2
  /\ @SQL.buildJoinPlan (Sample.bfs Mongo.RELATIONS) Mongo.RELATIONS
       "categories" ["products"; "invoices"] = Ok [e1].
Proof.
  cbv zeta. split; [reflexivity|]. split; [discriminate | reflexivity].
Qed.

(** The same through the tabular server: one filter on [categories] makes
    it the root, and aggregations over [products] and [invoices] ask for
    both joins; the plan of the aggregation queries joins [products]
    only. *)
Lemma tabular_aggregation_plan_misses_join :
  @SQL.buildAggregationQueryPlan (Sample.bfs Mongo.RELATIONS) Mongo.RELATIONS
     [mkFilter "categories" "name" "eq" (VStr "Toys")]
     [ mkAggregationOp "products" "price" "sum" None;
       mkAggregationOp "invoices" "amount" "sum" None ]
  = Ok (SQL.mkQueryPlan ["categories"]
          [SQL.mkJoinEdge "categories._id" "products.category_id" "INNER"]
          ["products.price"; "invoices.amount"]).
Proof. reflexivity. Qed.

(** ** Aggregation-tagged filters *)

(** Document backend, the two pipeline builders: no filter given to
    [buildMatch] carries an aggregation tag. *)
Lemma nonAggregationMatchFilters_untagged (root : string)
      (filters : list Filter) :
  Forall (fun f => isAggregationTag (Mongo.moperator f) = false)
         (Mongo.nonAggregationMatchFilters root filters).
Proof.
  unfold Mongo.nonAggregationMatchFilters. apply Forall_forall.
  intros f Hin. apply filter_In in Hin. destruct Hin as [_ Hf].
  now apply negb_true_iff in Hf.
Qed.

(** Tabular backend: the conversion of the request keeps an
    aggregation-tagged filter out of [sqlFilter]. *)
Lemma convertFilter_aggregation_tag
      (rt : JSRuntime) (root : string) (sqlFilter : props)
      (ops : list SQL.Aggregation) (f : Filter) (st : SQL.converted) :
  isAggregationTag (operator f) = true ->
  SQL.convertFilter root (sqlFilter, ops) f = Ok st ->
  fst st = sqlFilter.
Proof.
  intros Htag E. unfold SQL.convertFilter in E.
  apply bind_Ok in E. destruct E as [_ [_ E]].
  rewrite Htag in E. now inversion E.
Qed.

(** C3. Document backend, regular path (no aggregation in the request):
    the filter [{collection: invoices, field: amount, operator: sum}] is
    whitelisted by [validateFilter], is handed to [buildMatch] with its
    tag, [buildMatch] calls the string ["$sum"], and the request ends in
    the 500 answer. *)
Theorem document_regular_path_passes_aggregation_tag
        (rt : JSRuntime) (tx : JSText) (pr : PathResolver)
        (drv : Mongo.Driver) :
  let fs := [mkFilter "invoices" "amount" "sum" (VNum 1)] in
  Mongo.validateFilter (mkFilter "invoices" "amount" "sum" (VNum 1)) = Ok true
  /\ Mongo.toMatchFilters (Mongo.resolveRoot fs) fs
     = [Mongo.mkMatchFilter "amount" "sum" (VNum 1)]
  /\ Mongo.buildMatch [Mongo.mkMatchFilter "amount" "sum" (VNum 1)]
     = Throw (JsTypeError "OPERATORS[f.operator] is not a function")
  /\ Mongo.queryRegular drv fs
     = Throw (JsTypeError "OPERATORS[f.operator] is not a function")
  /\ Mongo.query drv "salesDB" fs []
     = match Mongo.connect drv "salesDB" with
       | None => Ok (mkResponse 500 (errorBody "Internal server error"))
       | Some m =>
           Ok (catchQuery (JsError ("Failed to connect to MongoDB: " ++ m)))
       end.
Proof.
  cbv zeta. repeat split; try reflexivity.
  unfold Mongo.query, Mongo.getDB. cbn [String.eqb Ascii.eqb Bool.eqb].
  destruct (Mongo.connect drv "salesDB"); reflexivity.
Qed.

(** ** Induction on values *)

Lemma jsval_ind (P : jsval -> Prop) :
  P VUndefined -> P VNull -> (forall b, P (VBool b)) -> (forall z, P (VNum z)) ->
  (forall s, P (VNumber s)) -> (forall s, P (VStr s)) ->
  (forall h, P (VObjectId h)) -> (forall s, P (VDate s)) ->
  (forall items, Forall P items -> P (VArr items)) ->
  (forall o, Forall (fun kv => P (snd kv)) o -> P (VObj o)) ->
  (forall k, P (VBuiltin k)) ->
  forall v, P v.
Proof.
  intros Hu Hn Hb Hz Hnum Hs Hid Hd Harr Hobj Hbi.
  fix IH 1. intros [| | b | z | s | s | h | s | items | o | k].
  - exact Hu.
  - exact Hn.
  - apply Hb.
  - apply Hz.
  - apply Hnum.
  - apply Hs.
  - apply Hid.
  - apply Hd.
  - apply Harr. induction items as [|x xs IHxs]; constructor;
      [apply IH | exact IHxs].
  - apply Hobj. induction o as [|[k x] o IHo]; constructor;
      [apply IH | exact IHo].
  - apply Hbi.
Qed.

(** ** Value coercion *)

Lemma isDigit_facts (c : ascii) :
  isDigit c = true ->
  isWhiteSpace c = false
  /\ Ascii.eqb c "+"%char = false /\ Ascii.eqb c "-"%char = false
  /\ Ascii.eqb c "."%char = false /\ Ascii.eqb c "I"%char = false
  /\ Ascii.eqb c "b"%char = false /\ Ascii.eqb c "B"%char = false
  /\ Ascii.eqb c "o"%char = false /\ Ascii.eqb c "O"%char = false
  /\ Ascii.eqb c "x"%char = false /\ Ascii.eqb c "X"%char = false.
Proof.
  destruct c as [[] [] [] [] [] [] [] []]; vm_compute; intro E;
    try discriminate E; repeat split; reflexivity.
Qed.

Lemma trimEnd_cons (c : ascii) (r : list ascii) :
  isWhiteSpace c = false -> trimEnd (c :: r) = c :: trimEnd r.
Proof. intro E. simpl. rewrite E. now destruct (trimEnd r). Qed.

(** A string that begins like a date is not a numeric string. *)
Lemma dateRegex_isNaN (s : string) :
  Mongo.dateRegex (chars s) = true -> isNaN_string s = true.
Proof.
  unfold isNaN_string, isStringNumericLiteral.
  destruct (chars s) as [|y1 [|y2 [|y3 [|y4 [|h1 r]]]]]; try discriminate.
  intro E.
  assert (Hd : isDigit y1 = true /\ isDigit y2 = true /\ isDigit y3 = true
               /\ isDigit y4 = true /\ h1 = "-"%char).
  { destruct r as [|m1 [|m2 [|h2 [|d1 [|d2 r]]]]]; try discriminate.
    cbn [Mongo.dateRegex] in E. rewrite !andb_true_iff in E.
    rewrite Ascii.eqb_eq in E. tauto. }
  clear E. destruct Hd as [H1 [H2 [H3 [H4 ->]]]].
  destruct (isDigit_facts _ H1) as [W1 [P1 [M1 [D1 [I1 [b1 [B1 [o1 [O1 [x1 X1]]]]]]]]]].
  destruct (isDigit_facts _ H2) as [W2 [_ [_ [_ [_ [b2 [B2 [o2 [O2 [x2 X2]]]]]]]]]].
  destruct (isDigit_facts _ H3) as [W3 _].
  destruct (isDigit_facts _ H4) as [W4 _].
  cbn [trimStart]. rewrite W1.
  rewrite !trimEnd_cons by (assumption || reflexivity).
  generalize (trimEnd r). intro r'.
  cbn [negb]. apply negb_true_iff. apply orb_false_iff. split.
  - unfold isStrDecimal. rewrite P1, M1. cbn [orb].
    unfold isUnsignedDecimal.
    replace (String.eqb (text (y1 :: y2 :: y3 :: y4 :: "-"%char :: r'))
                        "Infinity") with false
      by (cbn [text string_of_list_ascii String.eqb]; now rewrite I1).
    rewrite D1, H1. cbn [skipDigits andb]. rewrite H2, H3, H4.
    reflexivity.
  - unfold isNonDecimalInteger. rewrite b2, B2, o2, O2, x2, X2.
    cbn [orb]. apply andb_false_r.
Qed.

Lemma isDateShape_isNaN (s : string) :
  Mongo.isDateShape s = true -> isNaN_string s = true.
Proof.
  unfold Mongo.isDateShape, Mongo.dateTimeRegex. intro E.
  apply dateRegex_isNaN. destruct (Mongo.dateRegex (chars s)); [reflexivity|].
  discriminate E.
Qed.

(** The code tries the numeric check before the date shape; no string
    passes both, so the order of the two does not show: [maybeDate] after
    [maybeNumber] is the coercion in the order of the specification. *)
Lemma coerce_in_spec_order (rt : JSRuntime) (v : jsval) :
  Mongo.coerce v = coerceInSpecOrder v.
Proof.
  unfold Mongo.coerce, coerceInSpecOrder, Mongo.maybeNumber.
  destruct v as [| | b | z | n | s | h | d | items | o | k]; try reflexivity.
  destruct (Mongo.isObjectIdShape s); [reflexivity|].
  destruct (Mongo.isDateShape s) eqn:Ed.
  - rewrite (isDateShape_isNaN _ Ed). rewrite andb_false_r.
    cbn [Mongo.maybeDate andb]. rewrite Ed. reflexivity.
  - cbn [andb].
    destruct (negb (String.eqb (trim s) "") && negb (isNaN_string s));
      [reflexivity|].
    cbn [Mongo.maybeDate]. now rewrite Ed.
Qed.

(** ** The tabular translator as a loop *)

Lemma indexKey_not_dollar (n : nat) : startsWith (indexKey n) "$" = false.
Proof.
  unfold indexKey, NilZero.string_of_uint.
  destruct (Nat.to_uint n); reflexivity.
Qed.

Lemma indexed_In (n : nat) (xs : list jsval) (k : string) (x : jsval) :
  In (k, x) (indexed n xs) -> In x xs /\ exists i, k = indexKey i.
Proof.
  revert n. induction xs as [|y xs IH]; intro n; simpl; [intros []|].
  intros [E | Hin].
  - inversion E; subst. split; [now left | now exists n].
  - destruct (IH _ Hin) as [Hx Hk]. split; [now right | assumption].
Qed.

Lemma In_indexed (n : nat) (xs : list jsval) (x : jsval) :
  In x xs -> exists k, In (k, x) (indexed n xs).
Proof.
  revert n. induction xs as [|y xs IH]; intro n; simpl; [intros []|].
  intros [-> | Hin].
  - exists (indexKey n). now left.
  - destruct (IH (S n) Hin) as [k Hk]. exists k. now right.
Qed.

Section TranslatorLoop.
Context `{JSRuntime}.

Lemma entryStep_index (st : SQL.acc) (n : nat) (xs : list jsval) :
  fold_left (fun st e => SQL.buildCondition (fst e) (snd e) st)
          (indexed n xs) st
  = fold_left entryStep (indexed n xs) st.
Proof.
  revert n st. induction xs as [|x xs IH]; intros n st; [reflexivity|].
  cbn [indexed fold_left]. rewrite IH. f_equal.
  unfold entryStep. now rewrite indexKey_not_dollar.
Qed.

(** [buildSQLFilter] is the loop of [entryStep] over the entries of the
    filter. *)
Lemma buildSQLFilter_loop (filter : jsval) :
  SQL.buildSQLFilter filter
  = if SQL.isEmptyFilter filter then SQL.mkSQLFilter "" []
  else SQL.finish (fold_left entryStep (ownEntries filter) ([], [])).
Proof.
  destruct filter as [| | b | z | n | s | h | d | items | o | k];
  try reflexivity.
  - cbn [SQL.buildSQLFilter]. destruct (SQL.isEmptyFilter (VStr s));
    [reflexivity|]. f_equal. apply entryStep_index.
  - cbn [SQL.buildSQLFilter]. destruct (SQL.isEmptyFilter (VArr items));
    [reflexivity|]. f_equal. apply entryStep_index.
  - cbn [SQL.buildSQLFilter ownEntries].
    destruct (SQL.isEmptyFilter (VObj o)); [reflexivity|]. f_equal.
    match goal with
    | |- ?F o _ = _ =>
        assert (HF : forall es st, F es st = fold_left entryStep es st);
          [|apply HF]
    end.
    induction es as [|[key value] es IH]; intro st; [reflexivity|].
    cbn [fold_left]. rewrite <- IH. reflexivity.
Qed.

Lemma fold_left_invariant {S E} (P : S -> Prop) (f : S -> E -> S)
    (es : list E) (s : S) :
  P s -> (forall s e, In e es -> P s -> P (f s e)) -> P (fold_left f es s).
Proof.
  revert s. induction es as [|e es IH]; intros s Hs Hstep; [exact Hs|].
  simpl. apply IH.
  - apply Hstep; [now left | assumption].
  - intros s' e' Hin. apply Hstep. now right.
Qed.
End TranslatorLoop.

(** ** Where the parameters of the tabular translation come from *)

Lemma occurs_trans (a b c : jsval) : occurs a b -> occurs b c -> occurs a c.
Proof.
  intros Hab Hbc. induction Hbc as [|w x k Hk _ IH]; [exact Hab|].
  apply occurs_inside with (x := x) (k := k); assumption.
Qed.

(** A member of a value of the filter is a value of the filter. *)
Lemma occurs_member (p x w : jsval) (k : string) :
  In (k, p) (ownEntries x) -> occurs x w -> occurs p w.
Proof.
  intros Hin Hx. apply occurs_trans with (b := x); [|exact Hx].
  apply occurs_inside with (x := p) (k := k); [exact Hin | constructor].
Qed.

Lemma fromFilter_inside (p w x : jsval) (k : string) :
  In (k, x) (ownEntries w) -> fromFilter p x -> fromFilter p w.
Proof.
  intros Hin [Ho | [s [Ho ->]]].
  - left. now apply occurs_inside with (x := x) (k := k).
  - right. exists s. split; [now apply occurs_inside with (x := x) (k := k) | reflexivity].
Qed.

Section Provenance.
Context `{JSRuntime}.

Lemma operatorCondition_from (w : jsval) (column : string) (st : SQL.acc)
    (e : string * jsval) :
  (forall p, In p (snd st) -> fromFilter p w) ->
  occurs (snd e) w ->
  forall p, In p (snd (SQL.operatorCondition column st e)) -> fromFilter p w.
Proof.
  intros Hst He p. destruct e as [op opValue]. unfold SQL.operatorCondition.
  destruct (SQL.SQL_OPERATORS op) as [sqlOp|]; [|apply Hst].
  destruct (String.eqb op "$in" || String.eqb op "$nin").
  - destruct opValue; try apply Hst. cbn [SQL.push snd].
    intro Hin. apply in_app_or in Hin. destruct Hin as [Hin | Hin];
      [now apply Hst|].
    destruct (In_indexed 0 items p Hin) as [k Hk].
    left. now apply occurs_member with (x := VArr items) (k := k).
  - destruct (String.eqb op "$regex").
    + destruct opValue; try apply Hst. cbn [SQL.push snd].
      intro Hin. apply in_app_or in Hin. destruct Hin as [Hin | [<- | []]];
        [now apply Hst|].
      right. exists s. split; [exact He | reflexivity].
    + cbn [SQL.push snd]. intro Hin. apply in_app_or in Hin.
      destruct Hin as [Hin | [<- | []]]; [now apply Hst | now left].
Qed.

Lemma buildCondition_from (w : jsval) (key : string) (value : jsval)
    (st : SQL.acc) :
  (forall p, In p (snd st) -> fromFilter p w) ->
  occurs value w ->
  forall p, In p (snd (SQL.buildCondition key value st)) -> fromFilter p w.
Proof.
  intros Hst Hv. unfold SQL.buildCondition.
  assert (Hobj : forall p,
           In p (snd (fold_left (SQL.operatorCondition key)
                                (ownEntries value) st)) ->
           fromFilter p w).
  { apply (fold_left_invariant
           (fun st => forall p, In p (snd st) -> fromFilter p w));
    [exact Hst|].
    intros s [op opValue] Hin Hs. apply operatorCondition_from; [exact Hs|].
    cbn [snd]. now apply occurs_member with (x := value) (k := op). }
  assert (Hpush : forall p,
           In p (snd (SQL.push (key ++ " = ?") [value] st)) ->
           fromFilter p w).
  { cbn [SQL.push snd]. intros p Hin. apply in_app_or in Hin.
    destruct Hin as [Hin | [<- | []]]; [now apply Hst | now left]. }
  destruct value; try exact Hst; try exact Hpush;
  destruct (typeofObject _ && negb (isArray _)); assumption.
Qed.

Lemma translateChildren_from (w : jsval) (conds : list jsval)
    (subs : SQL.acc) :
  (forall p, In p (snd subs) -> fromFilter p w) ->
  Forall (fun c => forall p, In p (SQL.params (SQL.buildSQLFilter c)) ->
                           fromFilter p w) conds ->
  forall p, In p (snd (translateChildren conds subs)) -> fromFilter p w.
Proof.
  intros Hsubs Hall. unfold translateChildren.
  apply (fold_left_invariant
         (fun st => forall p, In p (snd st) -> fromFilter p w));
  [exact Hsubs|].
  intros s c Hin Hs p. rewrite Forall_forall in Hall.
  unfold SQL.addChild.
  destruct (String.eqb (SQL.whereClause (SQL.buildSQLFilter c)) "");
  [apply Hs|].
  cbn [SQL.push snd]. intro Hp. apply in_app_or in Hp.
  destruct Hp as [Hp | Hp]; [now apply Hs | now apply (Hall c)].
Qed.

Lemma entryStep_from (w : jsval) (st : SQL.acc) (e : string * jsval) :
  In e (ownEntries w) ->
  (forall conds, snd e = VArr conds -> Forall paramsFrom conds) ->
  (forall p, In p (snd st) -> fromFilter p w) ->
  forall p, In p (snd (entryStep st e)) -> fromFilter p w.
Proof.
  intros Hin Hch Hst. destruct e as [key value]. cbn [snd] in Hch.
  assert (Hcompose : forall connective conds,
           value = VArr conds ->
           forall p,
             In p (snd (SQL.compose connective
                          (translateChildren conds ([], [])) st)) ->
             fromFilter p w).
  { intros connective conds -> p. cbn [SQL.compose snd]. intro Hp.
    apply in_app_or in Hp. destruct Hp as [Hp | Hp]; [now apply Hst|].
    revert p Hp. apply translateChildren_from; [intros p []|].
    specialize (Hch conds eq_refl). rewrite Forall_forall in Hch.
    apply Forall_forall. intros c Hc p Hp.
    destruct (In_indexed 0 conds c Hc) as [k Hk].
    apply fromFilter_inside with (x := (VArr conds)) (k := key); [exact Hin|].
    apply fromFilter_inside with (x := c) (k := k); [exact Hk|].
    now apply (Hch c). }
  unfold entryStep. destruct (startsWith key "$").
  - destruct (String.eqb key "$and" && isArray value).
    { destruct value; try exact Hst. now apply Hcompose. }
    destruct (String.eqb key "$or" && isArray value); [|exact Hst].
    destruct value; try exact Hst. now apply Hcompose.
  - apply buildCondition_from; [exact Hst|].
    apply occurs_inside with (x := value) (k := key); [exact Hin | constructor].
Qed.

Lemma paramsFrom_entries (w : jsval) :
  (forall e conds, In e (ownEntries w) -> snd e = VArr conds ->
                 Forall paramsFrom conds) ->
  paramsFrom w.
Proof.
  intros Hch p. rewrite buildSQLFilter_loop.
  destruct (SQL.isEmptyFilter w); [intros []|].
  cbn [SQL.finish SQL.params]. revert p.
  apply (fold_left_invariant
         (fun st => forall p, In p (snd st) -> fromFilter p w));
  [intros p []|].
  intros s e Hin Hs. apply entryStep_from; [exact Hin | | exact Hs].
  intros conds. now apply Hch.
Qed.

Lemma paramsFrom_all (w : jsval) :
  paramsFrom w
  /\ (forall conds, w = VArr conds -> Forall paramsFrom conds).
Proof.
  induction w as [| | b | z | n | s | h | d | items IH | o IH | k]
  using jsval_ind;
  try (split; [apply paramsFrom_entries; intros e conds []
              | intros conds E; discriminate E]).
  - split; [|intros conds E; discriminate E].
    apply paramsFrom_entries. intros [k x] conds Hin E. cbn [snd] in E.
    subst x. cbn [ownEntries] in Hin. apply indexed_In in Hin.
    destruct Hin as [Hin _]. apply in_map_iff in Hin.
    destruct Hin as [c [E _]]. discriminate E.
  - assert (Hall : Forall paramsFrom items).
    { apply Forall_forall. intros x Hx. rewrite Forall_forall in IH.
      now apply IH. }
    split; [|intros conds E; inversion E; now subst].
    apply paramsFrom_entries. intros [k x] conds Hin E. cbn [snd] in E.
    subst x. cbn [ownEntries] in Hin. apply indexed_In in Hin.
    destruct Hin as [Hin _]. rewrite Forall_forall in IH.
    now apply (IH (VArr conds) Hin).
  - split; [|intros conds E; discriminate E].
    apply paramsFrom_entries. intros [k x] conds Hin E. cbn [snd] in E.
    subst x. cbn [ownEntries] in Hin. rewrite Forall_forall in IH.
    now apply (IH (k, VArr conds) Hin).
Qed.
End Provenance.

(** The comparison operators compare with the coerced value. *)
Lemma conditionOf_comparison (rt : JSRuntime) (tx : JSText)
      (fld op : string) (v : jsval) :
  In op ["eq"; "ne"; "gt"; "gte"; "lt"; "lte"] ->
  conditionOf (Mongo.mkMatchFilter fld op v) = Ok [("$" ++ op, Mongo.coerce v)].
Proof.
  intro Hin. cbn [In] in Hin.
  repeat (destruct Hin as [<- | Hin]; [reflexivity|]). destruct Hin.
Qed.

(** C4, as stated, fails on the tabular backend: the value ["a*"] of a
    [$regex] condition is not passed unmodified, the parameter is ["a%"]. *)
Lemma tabular_regex_parameter_rewritten :
  SQL.params (@SQL.buildSQLFilter Sample.runtime
                (VObj [("name", VObj [("$regex", VStr "a*")])]))
  = [VStr "a%"]
  /\ [VStr "a%"] <> [VStr "a*"].
Proof. split; [reflexivity | discriminate]. Qed.

(** ** Placeholders and parameters *)






Lemma noPlaceholder_append (a b : string) :
  noPlaceholder (a ++ b) = noPlaceholder a && noPlaceholder b.
Proof. unfold noPlaceholder. now rewrite chars_append, forallb_app. Qed.






Lemma assoc_In {B} (k : string) (l : list (string * B)) (b : B) :
  Mongo.assoc k l = Some b -> In (k, b) l.
Proof.
  induction l as [|[k' b'] l IH]; simpl; [discriminate|].
  destruct (String.eqb k' k) eqn:E.
  - apply String.eqb_eq in E. intro Eb. inversion Eb. subst. now left.
  - intro Eb. right. now apply IH.
Qed.








Section Alignment.
Context `{JSRuntime}.








End Alignment.





(** ** The WHERE fragment is the bound predicate with its values taken out *)




Lemma withPlaceholders_empty (t : list token) :
  withPlaceholders t = "" -> t = [].
Proof. destruct t as [|x t]; [reflexivity|]. intro E. discriminate E. Qed.












Section Marking.
Context `{JSRuntime}.





End Marking.




(** ** Objects: reading after writing *)

Lemma getOwn_replaceOwn_other (k k' : string) (v : jsval) (o : props) :
  k <> k' -> getOwn k (replaceOwn k' v o) = getOwn k o.
Proof.
  intro Hn. induction o as [|[k0 v0] o IH]; [reflexivity|].
  cbn [replaceOwn]. destruct (String.eqb k0 k') eqn:E.
  - apply String.eqb_eq in E. subst k0. cbn [getOwn].
    now rewrite (string_eqb_neq (not_eq_sym Hn)).
  - cbn [getOwn]. now rewrite IH.
Qed.

Lemma getOwn_replaceOwn_same (k : string) (v : jsval) (o : props) :
  hasOwn k o = true -> getOwn k (replaceOwn k v o) = Some v.
Proof.
  unfold hasOwn. induction o as [|[k0 v0] o IH]; [discriminate|].
  cbn [replaceOwn getOwn]. destruct (String.eqb k0 k) eqn:E.
  - intros _. cbn [getOwn]. now rewrite String.eqb_refl.
  - intro Ho. cbn [getOwn]. rewrite E. now apply IH.
Qed.

Lemma getOwn_addOwn_other (k k' : string) (v : jsval) (o : props) :
  k <> k' -> getOwn k (addOwn k' v o) = getOwn k o.
Proof.
  intro Hn. induction o as [|[k0 v0] o IH].
  - cbn [addOwn getOwn]. now rewrite (string_eqb_neq (not_eq_sym Hn)).
  - cbn [addOwn]. destruct (comesBefore k' k0).
    + cbn [getOwn]. now rewrite (string_eqb_neq (not_eq_sym Hn)).
    + cbn [getOwn]. now rewrite IH.
Qed.

Lemma getOwn_addOwn_same (k : string) (v : jsval) (o : props) :
  hasOwn k o = false -> getOwn k (addOwn k v o) = Some v.
Proof.
  unfold hasOwn. induction o as [|[k0 v0] o IH].
  - intros _. cbn [addOwn getOwn]. now rewrite String.eqb_refl.
  - cbn [addOwn getOwn]. destruct (String.eqb k0 k) eqn:E; [discriminate|].
    intro Ho. destruct (comesBefore k k0).
    + cbn [getOwn]. now rewrite String.eqb_refl.
    + cbn [getOwn]. rewrite E. now apply IH.
Qed.

Lemma getOwn_setOwn_other (k k' : string) (v : jsval) (o : props) :
  k <> k' -> getOwn k (setOwn k' v o) = getOwn k o.
Proof.
  intro Hn. unfold setOwn. destruct (hasOwn k' o).
  - now apply getOwn_replaceOwn_other.
  - now apply getOwn_addOwn_other.
Qed.

Lemma getOwn_setOwn_same (k : string) (v : jsval) (o : props) :
  getOwn k (setOwn k v o) = Some v.
Proof.
  unfold setOwn. destruct (hasOwn k o) eqn:E.
  - now apply getOwn_replaceOwn_same.
  - now apply getOwn_addOwn_same.
Qed.

(** A write to [k'] leaves every other property as it is. *)
Lemma getOwn_setProp_other (k k' : string) (v : jsval) (o : props) :
  k <> k' -> getOwn k (setProp k' v o) = getOwn k o.
Proof.
  intro Hn. unfold setProp.
  destruct (String.eqb k' "__proto__" && negb (hasOwn k' o)); [reflexivity|].
  now apply getOwn_setOwn_other.
Qed.

Lemma getOwn_setProp_same (k : string) (v : jsval) (o : props) :
  k <> "__proto__" -> getOwn k (setProp k v o) = Some v.
Proof.
  intro Hn. unfold setProp. rewrite (string_eqb_neq Hn). cbn [andb].
  apply getOwn_setOwn_same.
Qed.

(** ** Aggregations *)

Section DocumentAggregation.
Context `{JSRuntime} `{JSText} `{PathResolver}.

(** The aggregation pipeline is the pipeline of the detailed records, and
    one [$group] stage after it when there is an aggregation. *)
Lemma aggregation_pipeline_extends_detailed (filters : list Filter)
      (ops : list AggregationOp) :
  Mongo.buildAggregationPipeline filters ops
  = (p <- Mongo.buildDetailedRecordsPipeline filters ;;
     Ok (p ++ match ops with
              | [] => []
              | _ => [VObj [("$group",
                             VObj (Mongo.groupStage (Mongo.resolveRoot filters)
                                                    ops))]]
              end)%list).
Proof.
  unfold Mongo.buildAggregationPipeline, Mongo.buildDetailedRecordsPipeline.
  destruct (Mongo.buildJoinPlan (Mongo.resolveRoot filters) filters)
    as [joins | e |]; cbn [bind]; try reflexivity.
  destruct (Mongo.nonAggregationMatchFilters (Mongo.resolveRoot filters)
                                             filters) as [|f fs].
  - cbn [bind]. destruct ops; [now rewrite app_nil_r | reflexivity].
  - destruct (Mongo.buildMatch (f :: fs)) as [m | e |]; cbn [bind];
      try reflexivity.
    destruct ops; [now rewrite app_nil_r | reflexivity].
Qed.
End DocumentAggregation.


(** The loop of the group stage, one aggregation at a time. *)
Lemma groupStage_fold (root : string) (ops : list AggregationOp) :
  Mongo.groupStage root ops
  = fold_left (fun g op => match groupAlias op with
                           | Some a => setProp a (accumulator root op) g
                           | None => g
                           end)
              ops [("_id", VNull)].
Proof.
  unfold Mongo.groupStage. generalize [("_id", VNull)].
  induction ops as [|op ops IH]; intro g; [reflexivity|].
  cbn [fold_left]. rewrite IH. f_equal.
  unfold groupAlias, accumulator.
  destruct (String.eqb (agg_operator op) "count"); [reflexivity|].
  now destruct (existsb (String.eqb (agg_operator op))
                        ["sum"; "avg"; "min"; "max"]).
Qed.

Lemma getOwn_setProp_proto (k : string) (v : jsval) (o : props) :
  getOwn "__proto__" o = None -> getOwn "__proto__" (setProp k v o) = None.
Proof.
  intro Ho. destruct (String.eqb k "__proto__") eqn:E.
  - apply String.eqb_eq in E. subst k. unfold setProp, hasOwn.
    now rewrite Ho.
  - apply String.eqb_neq in E. rewrite getOwn_setProp_other; [exact Ho|].
    congruence.
Qed.

Lemma groupFold_lookup (root : string) (ops : list AggregationOp)
      (g : props) (k : string) :
  getOwn "__proto__" g = None ->
  getOwn k (fold_left (fun g op => match groupAlias op with
                                   | Some a => setProp a (accumulator root op) g
                                   | None => g
                                   end)
                      ops g)
  = if String.eqb k "__proto__" then None
    else match lastWithAlias k ops with
         | Some op => Some (accumulator root op)
         | None => getOwn k g
         end.
Proof.
  intro Hg. induction ops as [|op ops IH] using rev_ind.
  - cbn. destruct (String.eqb k "__proto__") eqn:E; [|reflexivity].
    apply String.eqb_eq in E. now subst k.
  - rewrite fold_left_app. cbn [fold_left]. unfold lastWithAlias.
    rewrite rev_app_distr. cbn [rev app find]. unfold hasAlias at 1.
    fold (lastWithAlias k ops).
    destruct (groupAlias op) as [a|]; [|exact IH].
    destruct (String.eqb a k) eqn:Ea.
    + apply String.eqb_eq in Ea. subst a.
      destruct (String.eqb k "__proto__") eqn:Ek.
      * apply String.eqb_eq in Ek. subst k.
        apply getOwn_setProp_proto. rewrite IH. reflexivity.
      * apply String.eqb_neq in Ek. now apply getOwn_setProp_same.
    + apply String.eqb_neq in Ea. rewrite getOwn_setProp_other by congruence.
      exact IH.
Qed.

(** The members of the group stage. *)
Lemma groupStage_lookup (root : string) (ops : list AggregationOp)
      (k : string) :
  getOwn k (Mongo.groupStage root ops) = groupMember root ops k.
Proof.
  rewrite groupStage_fold, groupFold_lookup by reflexivity.
  unfold groupMember. destruct (String.eqb k "__proto__"); [reflexivity|].
  destruct (lastWithAlias k ops); [reflexivity|].
  cbn [getOwn]. rewrite String.eqb_sym. now destruct (String.eqb k "_id").
Qed.






(** ** [between] *)

Lemma not_inherited_not_proto (k : string) :
  inherited k = false -> String.eqb k "__proto__" = false.
Proof.
  intro E. apply String.eqb_neq. intros ->. discriminate E.
Qed.

(** A first write to an ordinary key of the empty object. *)
Lemma setProp_empty (k : string) (v : jsval) :
  inherited k = false -> setProp k v [] = [(k, v)].
Proof.
  intro E. unfold setProp. now rewrite (not_inherited_not_proto _ E).
Qed.

Section Between.
Context `{JSRuntime} `{JSText}.

Lemma buildMatch_between (fld : string) (o : props) :
  inherited fld = false ->
  Mongo.buildMatch [Mongo.mkMatchFilter fld "between" (VObj o)]
  = Ok [(fld, VObj [ ("$gte", Mongo.coerce (getProp o "from"));
                     ("$lte", Mongo.coerce (getProp o "to")) ])].
Proof.
  intro E. unfold Mongo.buildMatch.
  cbn [Mongo.buildMatchFrom Mongo.moperator Mongo.mfield Mongo.mvalue].
  change (Mongo.OPERATORS "between")
    with (Some (Mongo.OpFunction
                  (fun v => lo <- Mongo.readMember v "from" ;;
                            hi <- Mongo.readMember v "to" ;;
                            Ok [("$gte", Mongo.coerce lo);
                                ("$lte", Mongo.coerce hi)]))).
  cbn [Mongo.readMember bind]. unfold getProp at 1. cbn [getOwn].
  rewrite E. cbn [truthy]. now rewrite setProp_empty by exact E.
Qed.

Lemma validateFilter_object_value (f : Filter) (o : props) :
  value f = VObj o ->
  (exists msg, Mongo.validateFilter f = Throw (JsError msg))
  /\ (exists msg, SQL.validateFilter f = Throw (JsError msg)).
Proof.
  intro Ev. unfold Mongo.validateFilter, SQL.validateFilter. rewrite Ev.
  cbn [Mongo.isObjectValue typeofObject isArray negb andb].
  split.
  - destruct (negb (existsb (String.eqb (collection f))
                            Mongo.allowedCollections)); [eexists; reflexivity|].
    destruct (includes (field f) "$" || includes (field f) ".");
      [eexists; reflexivity|].
    destruct (negb (existsb (String.eqb (operator f)) Mongo.allowedOperators));
      eexists; reflexivity.
  - destruct (negb (existsb (String.eqb (collection f)) SQL.allowedTables));
      [eexists; reflexivity|].
    destruct (includes (field f) "`" || includes (field f) ";");
      [eexists; reflexivity|].
    destruct (negb (existsb (String.eqb (operator f)) Mongo.allowedOperators));
      eexists; reflexivity.
Qed.

(** The aggregation path of the document backend does not validate: there
    a [between] filter on a field of the root reaches the [$match] stage. *)
Lemma detailed_pipeline_between `{PathResolver} (fld : string) (o : props) :
  inherited fld = false ->
  Mongo.buildDetailedRecordsPipeline
    [mkFilter "invoices" fld "between" (VObj o)]
  = Ok [VObj [("$match",
               VObj [(fld, VObj [ ("$gte", Mongo.coerce (getProp o "from"));
                                  ("$lte", Mongo.coerce (getProp o "to")) ])])]].
Proof.
  intro E. unfold Mongo.buildDetailedRecordsPipeline.
  change (Mongo.resolveRoot [mkFilter "invoices" fld "between" (VObj o)])
    with "invoices".
  change (Mongo.buildJoinPlan "invoices"
            [mkFilter "invoices" fld "between" (VObj o)])
    with (@Ok (list Mongo.JoinEdge) []).
  cbn [bind Mongo.lookupStages flat_map].
  change (Mongo.nonAggregationMatchFilters "invoices"
            [mkFilter "invoices" fld "between" (VObj o)])
    with [Mongo.mkMatchFilter fld "between" (VObj o)].
  cbv beta iota. now rewrite buildMatch_between by exact E.
Qed.
End Between.

(** C7, as stated, fails: on the regular path of either server the
    [between] filter with its two bounds is refused by [validateFilter],
    and the request is answered with status 500. *)
Lemma between_refused_by_query :
  let f := mkFilter "invoices" "amount" "between"
                    (VObj [("from", VNum 10); ("to", VNum 20)]) in
  Mongo.validateFilter f
  = Throw (JsError "Object values not allowed for security reasons")
  /\ Mongo.query (H := Sample.runtime) (H0 := Sample.jstext)
                 (H1 := Sample.bfs Mongo.RELATIONS)
                 Sample.emptyDriver "salesDB" [f] []
     = Ok (mkResponse 500 (errorBody "Internal server error"))
  /\ SQL.query (H := Sample.runtime) (H0 := Sample.bfs Mongo.RELATIONS)
               Mongo.RELATIONS Sample.emptyPool "salesDB" [f] []
     = Ok (mkResponse 500 (errorBody "Internal server error")).
Proof. cbv zeta. repeat split; reflexivity. Qed.

(** ** Failures of the backend *)

(** Document backend: the [catch] clause returns the message of any error
    that holds the word "Invalid", the driver's errors included. *)
Lemma document_catch_returns_message (msg : string) :
  includes msg "Invalid" = true ->
  catchQuery (JsError msg) = mkResponse 400 (errorBody msg).
Proof. intro E. unfold catchQuery. cbn [message]. now rewrite E. Qed.

Lemma document_driver_failure (rt : JSRuntime) (tx : JSText)
      (pr : PathResolver) (drv : Mongo.Driver) (msg : string) :
  Mongo.connect drv "salesDB" = None ->
  Mongo.aggregate drv "invoices" [] = Failure msg ->
  Mongo.query drv "salesDB" [] [] = Ok (catchQuery (JsError msg)).
Proof.
  intros Ec Ea. unfold Mongo.query, Mongo.getDB.
  cbn [String.eqb Ascii.eqb Bool.eqb]. rewrite Ec. cbn [bind].
  unfold Mongo.queryRegular.
  change (Mongo.resolveRoot []) with "invoices".
  change (Mongo.buildJoinPlan "invoices" [])
    with (@Ok (list Mongo.JoinEdge) []).
  cbn [bind Mongo.lookupStages flat_map Mongo.validateFilters
       Mongo.toMatchFilters map].
  now rewrite Ea.
Qed.

(** C8. Tabular backend: when the statement of an aggregation fails, the
    entry returned for it carries the message of the driver in its [error]
    member. *)
Theorem tabular_aggregation_error_returned
        (rt : JSRuntime) (pool : SQL.Pool) (a : SQL.Aggregation)
        (queryPlan : SQL.QueryPlan) (filter : jsval) (q msg : string) :
  SQL.aggregationQuery a queryPlan filter = Ok q ->
  pool q (SQL.params (SQL.buildSQLFilter filter)) = Failure msg ->
  SQL.executeAggregations pool [a] queryPlan filter
  = [VObj [ ("operation", VStr (SQL.operation a));
            ("field", VStr (SQL.afield a));
            ("alias", VStr (SQL.resultAlias a));
            ("error", VStr msg);
            ("value", VNull) ]].
Proof.
  intros Eq Ep. unfold SQL.executeAggregations. cbn [map].
  unfold SQL.aggregationEntry, SQL.runAggregation.
  rewrite Eq. cbn [bind]. rewrite Ep. reflexivity.
Qed.

Lemma tabular_aggregation_error_returned_witness :
  let a := SQL.mkAggregation "sum" "invoices.amount" (Some "total amount") in
  let plan := SQL.mkQueryPlan ["invoices"] [] ["amount"] in
  SQL.executeAggregations (H := Sample.runtime) Sample.aliasPool [a] plan
                          (VObj [])
  = [VObj [ ("operation", VStr "sum");
            ("field", VStr "invoices.amount");
            ("alias", VStr "total amount");
            ("error", VStr Sample.syntaxErrorMessage);
            ("value", VNull) ]].
Proof.
  cbv zeta.
  apply (@tabular_aggregation_error_returned Sample.runtime Sample.aliasPool
           (SQL.mkAggregation "sum" "invoices.amount" (Some "total amount"))
           (SQL.mkQueryPlan ["invoices"] [] ["amount"]) (VObj [])
           "SELECT SUM(invoices.amount) as total amount_invoices_amount FROM invoices"
           Sample.syntaxErrorMessage);
    reflexivity.
Defined.

(** The same through the tabular [/query] handler: the request succeeds
    and the message of the server is in the body. *)
Lemma tabular_query_returns_driver_message :
  SQL.query (H := Sample.runtime) (H0 := Sample.bfs Mongo.RELATIONS)
            Mongo.RELATIONS Sample.aliasPool "salesDB" []
            [mkAggregationOp "invoices" "amount" "sum" (Some "total amount")]
  = Ok (mkResponse 200
          (VObj [ ("success", VBool true);
                  ("type", VStr "both");
                  ("detailed_count", VNum 1);
                  ("aggregation_count", VNum 1);
                  ("detailed_data", VArr [VObj [("value", VNum 42)]]);
                  ("aggregation_data",
                   VArr [ VObj [ ("operation", VStr "sum");
                                 ("field", VStr "invoices.amount");
                                 ("alias", VStr "total amount");
                                 ("error", VStr Sample.syntaxErrorMessage);
                                 ("value", VNull) ] ]) ])).
Proof. reflexivity. Qed.

(** ** Result enhancement *)

Lemma hasOwn_setProp (k k' : string) (v : jsval) (o : props) :
  hasOwn k o = true -> hasOwn k (setProp k' v o) = true.
Proof.
  intro Ho. destruct (String.eqb k k') eqn:E.
  - apply String.eqb_eq in E. subst k'. unfold setProp. rewrite Ho.
    rewrite andb_false_r. unfold hasOwn. now rewrite getOwn_setOwn_same.
  - apply String.eqb_neq in E. unfold hasOwn in *.
    now rewrite getOwn_setProp_other.
Qed.

Section Enhancement.
Context `{JSRuntime}.
Variable drv : Mongo.Driver.

Lemma resolveIdField_frame (rec : props) (m : string * string) (k : string) :
  In m Mongo.idFieldMappings -> ~ In k decorationKeys ->
  getOwn k (Mongo.resolveIdField drv rec m) = getOwn k rec.
Proof.
  intros Hm Hk.
  assert (Hne : k <> "customers_name" /\ k <> "products_name"
                /\ k <> "categories_name" /\ k <> "customer_region"
                /\ k <> "customer_zone").
  { unfold decorationKeys in Hk. cbn [In] in Hk.
    repeat split; intro E; apply Hk; subst k; tauto. }
  destruct Hne as [N1 [N2 [N3 [N4 N5]]]].
  unfold Mongo.idFieldMappings in Hm.
  destruct Hm as [<- | [<- | [<- | []]]];
    unfold Mongo.resolveIdField;
    (destruct (truthy (getProp rec _)); [|reflexivity]);
    (destruct (Mongo.findOne drv _ _) as [[doc|]|]; try reflexivity);
    cbv zeta;
    repeat match goal with
           | |- context [if ?b then _ else _] => destruct b
           end;
    repeat (rewrite getOwn_setProp_other by assumption);
    reflexivity.
Qed.

Lemma resolveIdField_keeps (rec : props) (m : string * string) (k : string) :
  hasOwn k rec = true -> hasOwn k (Mongo.resolveIdField drv rec m) = true.
Proof.
  intro Hk. destruct m as [idField coll]. unfold Mongo.resolveIdField.
  destruct (truthy (getProp rec idField)); [|exact Hk].
  destruct (Mongo.findOne drv coll _) as [[doc|]|]; try exact Hk.
  cbv zeta.
  repeat match goal with
         | |- context [if ?b then _ else _] => destruct b
         end;
    repeat apply hasOwn_setProp; exact Hk.
Qed.

Lemma resolveIdField_no_lookup (rec : props) (m : string * string) :
  noLookupSucceeds drv -> Mongo.resolveIdField drv rec m = rec.
Proof.
  intro Hno. destruct m as [idField coll]. unfold Mongo.resolveIdField.
  destruct (truthy (getProp rec idField)); [|reflexivity].
  specialize (Hno coll (getProp rec idField)).
  destruct (Mongo.findOne drv coll _) as [[doc|]|];
    [contradiction | reflexivity | reflexivity].
Qed.

(** C9 (amended). The enhancer returns one row per input row, in the same
    order; in each row every field that is not one of the decoration
    fields is unchanged, and every field of the input is still there; when
    no lookup finds a document (each fails or returns null) the row comes
    back with the fields it had. No error is raised in any case. *)
Theorem enhancer_keeps_rows (data : list jsval) (filters : list Filter) :
  Mongo.enhanceResultsWithJoinedFields drv data filters
  = map (Mongo.enhanceRecord drv) data
  /\ (forall record, exists o',
         Mongo.enhanceRecord drv record = VObj o'
         /\ (forall k, ~ In k decorationKeys ->
                       getOwn k o' = getOwn k (ownEntries record))
         /\ (forall k, hasOwn k (ownEntries record) = true ->
                       hasOwn k o' = true)
         /\ (noLookupSucceeds drv -> o' = ownEntries record)).
Proof.
  split; [now destruct data|].
  intro record. eexists. split; [reflexivity|].
  split; [|split].
  - intros k Hk.
    apply (fold_left_invariant
             (fun rec => getOwn k rec = getOwn k (ownEntries record)));
      [reflexivity|].
    intros rec m Hm Hrec. now rewrite resolveIdField_frame.
  - intros k Hk.
    apply (fold_left_invariant (fun rec => hasOwn k rec = true));
      [exact Hk|].
    intros rec m _ Hrec. now apply resolveIdField_keeps.
  - intro Hno.
    apply (fold_left_invariant (fun rec => rec = ownEntries record));
      [reflexivity|].
    intros rec m _ ->. now apply resolveIdField_no_lookup.
Qed.
End Enhancement.

Lemma enhancer_keeps_rows_witness :
  ~ In "amount" decorationKeys
  /\ exists o',
       Mongo.enhanceRecord (H := Sample.runtime) Sample.customerDriver
         (VObj [("customer_id", VNum 7); ("amount", VNum 120)])
       = VObj o'
       /\ getOwn "amount" o' = Some (VNum 120).
Proof.
  assert (Hk : ~ In "amount" decorationKeys).
  { unfold decorationKeys. cbn [In].
    intros [E | [E | [E | [E | [E | []]]]]]; discriminate E. }
  split; [exact Hk|].
  destruct (proj2 (@enhancer_keeps_rows Sample.runtime Sample.customerDriver
                     [] [])
                  (VObj [("customer_id", VNum 7); ("amount", VNum 120)]))
    as [o' [Eo [Hframe _]]].
  exists o'. split; [exact Eo|]. now rewrite (Hframe "amount" Hk).
Defined.

(** C9, as stated, fails: a field of the input row that bears the name of a
    decoration field is overwritten. *)
Lemma enhancer_overwrites_decoration_field :
  Mongo.enhanceResultsWithJoinedFields (H := Sample.runtime)
    Sample.customerDriver
    [VObj [("customer_id", VNum 7); ("customers_name", VStr "Bob")]] []
  = [VObj [("customer_id", VNum 7); ("customers_name", VStr "Ann")]].
Proof. reflexivity. Qed.

(** ** [Object.assign] and the merge of [buildMatch] *)



Lemma getOwn_None_iff (k : string) (o : props) :
  getOwn k o = None <-> ~ In k (map fst o).
Proof.
  induction o as [|[k0 v0] o IH]; [cbn; tauto|].
  cbn [getOwn map fst In]. destruct (String.eqb k0 k) eqn:E.
  - apply String.eqb_eq in E. split; [discriminate | tauto].
  - apply String.eqb_neq in E. rewrite IH. tauto.
Qed.

Lemma keys_replaceOwn (k : string) (v : jsval) (o : props) :
  map fst (replaceOwn k v o) = map fst o.
Proof.
  induction o as [|[k0 v0] o IH]; [reflexivity|].
  cbn [replaceOwn]. destruct (String.eqb k0 k) eqn:E.
  - apply String.eqb_eq in E. now subst.
  - cbn [map fst]. now rewrite IH.
Qed.

Lemma keys_addOwn_In (k k' : string) (v : jsval) (o : props) :
  In k' (map fst (addOwn k v o)) <-> k' = k \/ In k' (map fst o).
Proof.
  induction o as [|[k0 v0] o IH]; [cbn; intuition congruence|].
  cbn [addOwn]. destruct (comesBefore k k0).
  - cbn [map fst In]. intuition congruence.
  - cbn [map fst In]. rewrite IH. intuition congruence.
Qed.

Lemma keys_addOwn_NoDup (k : string) (v : jsval) (o : props) :
  ~ In k (map fst o) -> NoDup (map fst o) -> NoDup (map fst (addOwn k v o)).
Proof.
  induction o as [|[k0 v0] o IH]; intros Hk Hnd.
  - cbn. constructor; [intros [] | constructor].
  - cbn [addOwn]. destruct (comesBefore k k0).
    + cbn [map fst]. constructor; assumption.
    + cbn [map fst] in *. inversion Hnd as [|x l Hx Hl]; subst.
      constructor.
      * rewrite keys_addOwn_In. cbn [In] in Hk. intuition congruence.
      * apply IH; [cbn [In] in Hk; tauto | assumption].
Qed.



Section Merge.
Context `{JSRuntime} `{JSText}.





End Merge.



(* ================================================================== *)
(** * Further properties of the code *)
(* ================================================================== *)

(** ** [dedupe] of the two join planners *)

Section DedupeMore.
Variable A : Type.
Variable keyFn : A -> string.

(** X1. [dedupe] keeps, in their order, exactly the elements that are the
    first of the array with their key: the keys of the result are pairwise
    distinct, the result is the array with elements left out, every key of
    the array is still there, and nothing before a kept element has its
    key. *)
Theorem dedupe_first_of_each_key (arr : list A) :
  NoDup (map keyFn (dedupe keyFn arr))
  /\ Subseq (dedupe keyFn arr) arr
  /\ (forall x, In x arr -> In (keyFn x) (map keyFn (dedupe keyFn arr)))
  /\ (forall x, In x (dedupe keyFn arr) ->
                exists l1 l2, arr = (l1 ++ x :: l2)%list
                              /\ ~ In (keyFn x) (map keyFn l1)).
Proof.
  split; [apply dedupeFrom_keys_NoDup|].
  split; [apply dedupeFrom_Subseq|].
  split.
  - intros x Hin.
    destruct (dedupeFrom_keys_complete keyFn [] arr x Hin) as [[] | Hk].
    exact Hk.
  - intros x Hin. apply dedupeFrom_first in Hin. tauto.
Qed.

Lemma dedupeFrom_fixed (seen : list string) (l : list A) :
  NoDup (map keyFn l) ->
  (forall x, In x l -> ~ In (keyFn x) seen) ->
  dedupeFrom keyFn seen l = l.
Proof.
  revert seen. induction l as [|i rest IH]; intros seen Hnd Hseen;
    [reflexivity|].
  cbn [dedupeFrom].
  assert (E : existsb (String.eqb (keyFn i)) seen = false).
  { apply existsb_eqb_not_In. apply Hseen. now left. }
  rewrite E. f_equal. cbn [map] in Hnd.
  inversion Hnd as [|k ks Hk Hks]; subst.
  apply IH; [exact Hks|].
  intros x Hx [Heq | Hin].
  - apply Hk. rewrite Heq. now apply in_map.
  - apply (Hseen x); [now right | exact Hin].
Qed.

(** X2. Deduplicating twice is deduplicating once. *)
Theorem dedupe_idempotent (arr : list A) :
  dedupe keyFn (dedupe keyFn arr) = dedupe keyFn arr.
Proof.
  unfold dedupe at 1. apply dedupeFrom_fixed.
  - apply dedupeFrom_keys_NoDup.
  - intros x _ [].
Qed.
End DedupeMore.

(** ** Join plans without a join *)

Lemma forEachM_unchanged {A S} (body : S -> A -> result S) (xs : list A)
      (s : S) :
  (forall x, In x xs -> body s x = Ok s) -> forEachM body xs s = Ok s.
Proof.
  induction xs as [|x xs IH]; intro Hx; [reflexivity|].
  cbn [forEachM]. rewrite (Hx x (or_introl eq_refl)). cbn [bind].
  apply IH. intros y Hy. apply Hx. now right.
Qed.

(** X4. A reference to the root itself, or to an entity the resolver finds
    no path to, adds no join: when every reference is of that kind, the
    plan of either planner is empty and no relation is looked up. *)
Theorem join_plan_without_foreign_reference (pr : PathResolver)
        (rels : list Rel.t) (root : string) (filters : list Filter) :
  (forall f, In f filters ->
             collection f = root \/ findPath root (collection f) = None) ->
  Mongo.buildJoinPlan root filters = Ok []
  /\ SQL.buildJoinPlan rels root (map collection filters) = Ok [].
Proof.
  intro Hall. split.
  - unfold Mongo.buildJoinPlan, Mongo.collectJoins.
    rewrite forEachM_unchanged; [reflexivity|].
    intros f Hf. destruct (Hall f Hf) as [-> | E].
    + now rewrite String.eqb_refl.
    + rewrite E. now destruct (String.eqb (collection f) root).
  - unfold SQL.buildJoinPlan, SQL.collectJoins.
    rewrite forEachM_unchanged; [reflexivity|].
    intros c Hc. apply in_map_iff in Hc. destruct Hc as [f [<- Hf]].
    destruct (Hall f Hf) as [-> | E].
    + now rewrite String.eqb_refl.
    + rewrite E. now destruct (String.eqb (collection f) root).
Qed.

Lemma join_plan_without_foreign_reference_witness :
  @Mongo.buildJoinPlan (Sample.bfs Mongo.RELATIONS) "invoices"
    [ mkFilter "invoices" "amount" "gt" (VNum 100);
      mkFilter "warehouses" "city" "eq" (VStr "Oslo") ] = Ok [].
Proof.
  apply (@join_plan_without_foreign_reference (Sample.bfs Mongo.RELATIONS)
           Mongo.RELATIONS "invoices").
  intros f [<- | [<- | []]]; [left | right]; reflexivity.
Defined.

(** ** The root of a request *)

Lemma In_unique (x : string) (l : list string) : In x (unique l) <-> In x l.
Proof.
  unfold unique. symmetry.
  apply (dedupe_keeps_distinct (fun s : string => s)). auto.
Qed.

Lemma unique_constant (t : string) (l : list string) :
  l <> [] -> Forall (fun x => x = t) l -> unique l = [t].
Proof.
  destruct l as [|x rest]; [congruence|]. intros _ Hall.
  inversion Hall as [|x' rest' Hx Hrest]; subst. clear Hall.
  unfold unique, dedupe. cbn [dedupeFrom existsb]. f_equal.
  induction Hrest as [|y rest Hy _ IH]; [reflexivity|].
  subst y. cbn [dedupeFrom existsb]. rewrite String.eqb_refl.
  cbn [orb]. exact IH.
Qed.

(** X5. Document backend: for filters on the collections the server
    allows, the root of the request is [invoices], also when every filter
    is on [customers], on [products] or on [categories]. *)
Theorem document_root_is_invoices (filters : list Filter) :
  Forall (fun f => In (collection f) Mongo.allowedCollections) filters ->
  Mongo.resolveRoot filters = "invoices".
Proof.
  intro Hall. unfold Mongo.resolveRoot.
  destruct (existsb (String.eqb "invoices") (unique (map collection filters)));
    [reflexivity|].
  destruct (1 <? List.length (unique (map collection filters)))%nat;
    [reflexivity|].
  destruct (unique (map collection filters)) as [|c [|c' cols]] eqn:Eu;
    try reflexivity.
  assert (Hc : In c Mongo.allowedCollections).
  { assert (Hin : In c (unique (map collection filters)))
      by (rewrite Eu; now left).
    apply In_unique, in_map_iff in Hin. destruct Hin as [f [<- Hf]].
    rewrite Forall_forall in Hall. now apply Hall. }
  unfold Mongo.allowedCollections in Hc. cbn [In] in Hc.
  destruct Hc as [<- | [<- | [<- | [<- | []]]]]; reflexivity.
Qed.

Lemma document_root_is_invoices_witness :
  Mongo.resolveRoot [ mkFilter "customers" "region" "eq" (VStr "EU");
                      mkFilter "customers" "zone" "eq" (VStr "N") ]
  = "invoices".
Proof.
  apply document_root_is_invoices.
  repeat constructor; cbn; tauto.
Defined.

(** X6. Tabular backend: the root is a table other than [invoices] exactly
    when the request has filters and all of them are on that one table;
    it is then that table. *)
Theorem tabular_root_single_table (filters : list Filter) (t : string) :
  t <> "invoices" ->
  (SQL.resolveRoot filters = t
   <-> filters <> [] /\ Forall (fun f => collection f = t) filters).
Proof.
  intro Ht. split.
  - unfold SQL.resolveRoot.
    destruct (existsb (String.eqb "invoices")
                      (unique (map collection filters))) eqn:Ei;
      [intro E; congruence|].
    destruct (1 <? List.length (unique (map collection filters)))%nat;
      [intro E; congruence|].
    destruct (unique (map collection filters)) as [|c [|c' cols]] eqn:Eu;
      try (intro E; congruence).
    intros ->. split.
    + intros ->. discriminate Eu.
    + apply Forall_forall. intros f Hf.
      assert (Hin : In (collection f) (unique (map collection filters)))
        by (apply In_unique; now apply in_map).
      rewrite Eu in Hin. destruct Hin as [E | []]. now symmetry.
  - intros [Hne Hall]. unfold SQL.resolveRoot.
    rewrite (@unique_constant t (map collection filters)).
    + cbn [existsb List.length Nat.ltb Nat.leb orb].
      now rewrite (string_eqb_neq (not_eq_sym Ht)).
    + destruct filters; [congruence | discriminate].
    + apply Forall_forall. intros c Hc. apply in_map_iff in Hc.
      destruct Hc as [f [<- Hf]]. rewrite Forall_forall in Hall.
      now apply Hall.
Qed.

Lemma tabular_root_single_table_witness :
  SQL.resolveRoot [ mkFilter "customers" "region" "eq" (VStr "EU");
                    mkFilter "customers" "zone" "eq" (VStr "N") ]
  = "customers".
Proof.
  apply (tabular_root_single_table _ (t := "customers")); [discriminate|].
  split; [discriminate | repeat constructor].
Defined.

(** ** Validation and sanitization of a filter *)

(** [validateFilter] of the document server accepts a filter exactly when
    the four checks pass. *)
Lemma document_validateFilter_Ok (f : Filter) :
  Mongo.validateFilter f = Ok true
  <-> (existsb (String.eqb (collection f)) Mongo.allowedCollections = true
       /\ includes (field f) "$" = false /\ includes (field f) "." = false
       /\ existsb (String.eqb (operator f)) Mongo.allowedOperators = true
       /\ Mongo.isObjectValue (value f) = false).
Proof.
  unfold Mongo.validateFilter.
  destruct (existsb (String.eqb (collection f)) Mongo.allowedCollections);
    cbn [negb]; [|split; [discriminate | intros [E _]; discriminate E]].
  destruct (includes (field f) "$");
    cbn [orb]; [split; [discriminate | intros [_ [E _]]; discriminate E]|].
  destruct (includes (field f) ".");
    [split; [discriminate | intros [_ [_ [E _]]]; discriminate E]|].
  destruct (existsb (String.eqb (operator f)) Mongo.allowedOperators);
    cbn [negb]; [|split; [discriminate | intros [_ [_ [_ [E _]]]]; discriminate E]].
  destruct (Mongo.isObjectValue (value f));
    [split; [discriminate | intros [_ [_ [_ [_ E]]]]; discriminate E]|].
  tauto.
Qed.

(** X7. What the [/query] handlers answer when [validateFilter] refuses a
    filter: a collection, a field name or an operator that is refused is
    answered with status 400 and the message that names it; a value that is
    an object is answered with status 500 and the generic message, its
    text is not sent. *)
Theorem refused_filter_answer (f : Filter) :
  (forall e, Mongo.validateFilter f = Throw e ->
             (Mongo.isObjectValue (value f) = true
              /\ catchQuery e = mkResponse 500 (errorBody "Internal server error"))
             \/ (includes (message e) "Invalid" = true
                 /\ catchQuery e = mkResponse 400 (errorBody (message e))))
  /\ (forall e, SQL.validateFilter f = Throw e ->
                (Mongo.isObjectValue (value f) = true
                 /\ catchQuery e
                    = mkResponse 500 (errorBody "Internal server error"))
                \/ (includes (message e) "Invalid" = true
                    /\ catchQuery e = mkResponse 400 (errorBody (message e)))).
Proof.
  split; intros e.
  - unfold Mongo.validateFilter.
    destruct (negb (existsb (String.eqb (collection f))
                            Mongo.allowedCollections));
      [intro E; inversion E; right; split; reflexivity|].
    destruct (includes (field f) "$" || includes (field f) ".");
      [intro E; inversion E; right; split; reflexivity|].
    destruct (negb (existsb (String.eqb (operator f)) Mongo.allowedOperators));
      [intro E; inversion E; right; split; reflexivity|].
    destruct (Mongo.isObjectValue (value f)); [|discriminate].
    intro E. inversion E. left. split; reflexivity.
  - unfold SQL.validateFilter.
    destruct (negb (existsb (String.eqb (collection f)) SQL.allowedTables));
      [intro E; inversion E; right; split; reflexivity|].
    destruct (includes (field f) "`" || includes (field f) ";");
      [intro E; inversion E; right; split; reflexivity|].
    destruct (negb (existsb (String.eqb (operator f)) Mongo.allowedOperators));
      [intro E; inversion E; right; split; reflexivity|].
    destruct (Mongo.isObjectValue (value f)); [|discriminate].
    intro E. inversion E. left. split; reflexivity.
Qed.

Lemma refused_filter_answer_witness :
  catchQuery (JsError "Invalid field name: a.b")
  = mkResponse 400 (errorBody "Invalid field name: a.b").
Proof.
  destruct (proj1 (refused_filter_answer
                     (mkFilter "invoices" "a.b" "eq" (VNum 1)))
                  (JsError "Invalid field name: a.b") eq_refl)
    as [[Ho _] | [_ E]]; [discriminate Ho | exact E].
Defined.

Lemma includesb_one (c : ascii) (l : list ascii) :
  includesb [c] l = existsb (Ascii.eqb c) l.
Proof.
  induction l as [|x l IH]; [reflexivity|].
  cbn [includesb prefixb existsb]. rewrite IH. now rewrite andb_true_r.
Qed.

Lemma filter_idempotent {A} (p : A -> bool) (l : list A) :
  filter p (filter p l) = filter p l.
Proof.
  induction l as [|x l IH]; [reflexivity|].
  cbn [filter]. destruct (p x) eqn:E; [|exact IH].
  cbn [filter]. now rewrite E, IH.
Qed.

Lemma filter_all {A} (p : A -> bool) (l : list A) :
  forallb p l = true -> filter p l = l.
Proof.
  induction l as [|x l IH]; [reflexivity|].
  cbn [forallb filter]. intro E. apply andb_true_iff in E.
  destruct E as [Ex El]. now rewrite Ex, IH.
Qed.

Lemma dropDotDollar_clean (s : string) :
  includes (dropDotDollar s) "$" = false
  /\ includes (dropDotDollar s) "." = false.
Proof.
  unfold includes, dropDotDollar. rewrite chars_text.
  change (chars "$") with ["$"%char]. change (chars ".") with ["."%char].
  rewrite !includesb_one.
  induction (chars s) as [|c l [IH1 IH2]]; [now split|].
  cbn [filter]. destruct (Ascii.eqb c "."%char) eqn:Ed; [now split|].
  destruct (Ascii.eqb c "$"%char) eqn:Es; [now split|].
  cbn [orb negb existsb]. rewrite IH1, IH2.
  rewrite (Ascii.eqb_sym "$"%char c), (Ascii.eqb_sym "."%char c), Ed, Es.
  now split.
Qed.

Lemma dropDotDollar_fixed (s : string) :
  includes s "$" = false -> includes s "." = false -> dropDotDollar s = s.
Proof.
  unfold includes, dropDotDollar.
  change (chars "$") with ["$"%char]. change (chars ".") with ["."%char].
  rewrite !includesb_one. intros Hs Hd.
  rewrite filter_all; [apply text_chars|].
  induction (chars s) as [|c l IH]; [reflexivity|].
  cbn [existsb] in Hs, Hd. apply orb_false_iff in Hs, Hd.
  destruct Hs as [Hs Hs'], Hd as [Hd Hd'].
  cbn [forallb]. rewrite (Ascii.eqb_sym c "."%char), (Ascii.eqb_sym c "$"%char).
  rewrite Hs, Hd. cbn [orb negb andb]. now apply IH.
Qed.

(** X8. [sanitizeInput] on a filter: sanitizing twice is sanitizing once;
    the value is not touched; the sanitized field name holds neither [$]
    nor [.], the characters the document server's validation refuses; and
    a filter that this validation accepts is not changed by
    sanitization. *)
Theorem sanitizeFilter_and_validation (f : Filter) :
  sanitizeFilter (sanitizeFilter f) = sanitizeFilter f
  /\ value (sanitizeFilter f) = value f
  /\ includes (field (sanitizeFilter f)) "$" = false
  /\ includes (field (sanitizeFilter f)) "." = false
  /\ (Mongo.validateFilter f = Ok true -> sanitizeFilter f = f).
Proof.
  split.
  { unfold sanitizeFilter. cbn [collection field operator value].
    unfold keepWordChars, dropDotDollar. rewrite !chars_text.
    now rewrite !filter_idempotent. }
  split; [reflexivity|].
  split; [apply dropDotDollar_clean|].
  split; [apply dropDotDollar_clean|].
  intro Hv. apply document_validateFilter_Ok in Hv.
  destruct Hv as [Hc [Hs [Hd [Ho _]]]].
  destruct f as [c fld op v]. cbn [collection field operator value] in *.
  unfold sanitizeFilter. cbn [collection field operator value].
  rewrite (dropDotDollar_fixed _ Hs Hd).
  apply existsb_exists in Hc. destruct Hc as [c' [Hc Ec]].
  apply String.eqb_eq in Ec. subst c'.
  apply existsb_exists in Ho. destruct Ho as [op' [Ho Eo]].
  apply String.eqb_eq in Eo. subst op'.
  assert (Ekc : keepWordChars c = c).
  { unfold Mongo.allowedCollections in Hc. cbn [In] in Hc.
    repeat (destruct Hc as [<- | Hc]; [reflexivity|]). destruct Hc. }
  assert (Eko : keepWordChars op = op).
  { unfold Mongo.allowedOperators in Ho. cbn [In] in Ho.
    repeat (destruct Ho as [<- | Ho]; [reflexivity|]). destruct Ho. }
  now rewrite Ekc, Eko.
Qed.

Lemma sanitizeFilter_and_validation_witness :
  sanitizeFilter (mkFilter "invoices" "amount" "gte" (VStr "10"))
  = mkFilter "invoices" "amount" "gte" (VStr "10")
  /\ sanitizeFilter (mkFilter "inv-oices" "a.$b" "g t" (VStr "10"))
     = mkFilter "invoices" "ab" "gt" (VStr "10").
Proof.
  split; [|reflexivity].
  apply (proj2 (proj2 (proj2 (proj2 (sanitizeFilter_and_validation _))))).
  reflexivity.
Defined.

(** ** The coercions of [operators.js] *)

Lemma isHexDigit_hyphen : isHexDigit "-"%char = false.
Proof. reflexivity. Qed.

(** A string that begins like a date is no ObjectId: its fifth character
    is a hyphen. *)
Lemma dateRegex_not_ObjectId (s : string) :
  Mongo.dateRegex (chars s) = true -> Mongo.isObjectIdShape s = false.
Proof.
  unfold Mongo.isObjectIdShape.
  destruct (chars s) as [|y1 [|y2 [|y3 [|y4 [|h1 r]]]]]; try discriminate.
  intro E.
  assert (Eh : h1 = "-"%char).
  { destruct r as [|m1 [|m2 [|h2 [|d1 [|d2 r]]]]]; try discriminate.
    cbn [Mongo.dateRegex] in E. rewrite !andb_true_iff in E.
    rewrite Ascii.eqb_eq in E. tauto. }
  subst h1. cbn [forallb]. rewrite isHexDigit_hyphen.
  now rewrite !andb_false_r.
Qed.

Lemma isDateShape_not_ObjectId (s : string) :
  Mongo.isDateShape s = true -> Mongo.isObjectIdShape s = false.
Proof.
  unfold Mongo.isDateShape, Mongo.dateTimeRegex. intro E.
  apply dateRegex_not_ObjectId.
  destruct (Mongo.dateRegex (chars s)); [reflexivity | discriminate E].
Qed.

(** X9. The two coercions can be applied in either order, and coercing a
    coerced value changes nothing. A string of the date shape has neither
    the ObjectId shape nor the shape of a number; a string of the ObjectId
    shape becomes an ObjectId in either order, also when it is numeric (24
    digits). *)
Theorem coercions_commute (rt : JSRuntime) (v : jsval) :
  Mongo.maybeNumber (Mongo.maybeDate v) = Mongo.maybeDate (Mongo.maybeNumber v)
  /\ Mongo.coerce (Mongo.coerce v) = Mongo.coerce v
  /\ (forall s, Mongo.isDateShape s = true ->
                Mongo.isObjectIdShape s = false /\ isNaN_string s = true)
  /\ (forall s, Mongo.isObjectIdShape s = true ->
                Mongo.maybeDate (Mongo.maybeNumber (VStr s)) = VObjectId s
                /\ Mongo.maybeNumber (Mongo.maybeDate (VStr s)) = VObjectId s).
Proof.
  assert (Hshapes : forall s, Mongo.isObjectIdShape s = true ->
              Mongo.maybeDate (Mongo.maybeNumber (VStr s)) = VObjectId s
              /\ Mongo.maybeNumber (Mongo.maybeDate (VStr s)) = VObjectId s).
  { intros s Eo.
    assert (Ed : Mongo.isDateShape s = false).
    { destruct (Mongo.isDateShape s) eqn:Ed; [|reflexivity].
      rewrite (isDateShape_not_ObjectId _ Ed) in Eo. discriminate Eo. }
    cbn [Mongo.maybeNumber Mongo.maybeDate]. rewrite Eo, Ed.
    cbn [andb Mongo.maybeDate Mongo.maybeNumber]. now rewrite Eo. }
  cut (Mongo.maybeNumber (Mongo.maybeDate v)
       = Mongo.maybeDate (Mongo.maybeNumber v)
       /\ Mongo.coerce (Mongo.coerce v) = Mongo.coerce v).
  { intros [H1 H2]. split; [exact H1|]. split; [exact H2|].
    split; [|exact Hshapes].
    intros s Ed. split;
      [now apply isDateShape_not_ObjectId | now apply isDateShape_isNaN]. }
  clear Hshapes.
  assert (Hcomm : Mongo.maybeNumber (Mongo.maybeDate v)
                  = Mongo.maybeDate (Mongo.maybeNumber v)).
  { destruct v as [| | b | z | n | s | h | d | items | o | k];
      try reflexivity.
    cbn [Mongo.maybeDate].
    destruct (Mongo.isDateShape s) eqn:Ed.
    - cbn [Mongo.maybeNumber].
      rewrite (isDateShape_not_ObjectId _ Ed), (isDateShape_isNaN _ Ed).
      rewrite andb_false_r. cbn [Mongo.maybeDate andb]. rewrite Ed.
      cbn [andb]. destruct (DateValid s); [reflexivity|].
      cbn [Mongo.maybeNumber].
      rewrite (isDateShape_not_ObjectId _ Ed), (isDateShape_isNaN _ Ed).
      now rewrite andb_false_r.
    - cbn [andb Mongo.maybeNumber].
      destruct (Mongo.isObjectIdShape s); [reflexivity|].
      destruct (negb (String.eqb (trim s) "") && negb (isNaN_string s));
        [reflexivity|].
      cbn [Mongo.maybeDate]. now rewrite Ed. }
  split; [exact Hcomm|].
  rewrite !coerce_in_spec_order.
  destruct v as [| | b | z | n | s | h | d | items | o | k]; try reflexivity.
  cbn [coerceInSpecOrder].
  destruct (Mongo.isObjectIdShape s) eqn:Eo; [reflexivity|].
  destruct (Mongo.isDateShape s && DateValid s) eqn:Ed; [reflexivity|].
  destruct (negb (String.eqb (trim s) "") && negb (isNaN_string s)) eqn:En;
    [reflexivity|].
  cbn [coerceInSpecOrder]. now rewrite Eo, Ed, En.
Qed.

Lemma coercions_commute_witness :
  (Mongo.isObjectIdShape "2024-01-15" = false
   /\ isNaN_string "2024-01-15" = true)
  /\ Mongo.maybeDate (H := Sample.runtime)
       (Mongo.maybeNumber (VStr "123456789012345678901234"))
     = VObjectId "123456789012345678901234"
  /\ Mongo.maybeNumber
       (Mongo.maybeDate (H := Sample.runtime)
          (VStr "123456789012345678901234"))
     = VObjectId "123456789012345678901234".
Proof.
  destruct (coercions_commute Sample.runtime VNull) as [_ [_ [Hd Ho]]].
  split; [exact (Hd "2024-01-15" eq_refl)|].
  exact (Ho "123456789012345678901234" eq_refl).
Defined.

Lemma coerceItem_coerce (rt : JSRuntime) (item : jsval) :
  Mongo.coerceItem item = Mongo.coerce item.
Proof.
  destruct item as [| | b | z | n | s | h | d | items | o | k];
    try reflexivity.
  unfold Mongo.coerceItem, Mongo.coerce. cbn [Mongo.maybeNumber].
  now destruct (Mongo.isObjectIdShape s).
Qed.

(** X10. The operator [in]: the items of an array are coerced one by one,
    each as the value of a comparison is (the ObjectId case of the mapper
    gives what the coercion gives), so the list keeps its length and its
    order; a value that is no array becomes a list of one item, and is not
    coerced. *)
Theorem in_operator_condition (rt : JSRuntime) (tx : JSText)
        (fld : string) (v : jsval) :
  conditionOf (Mongo.mkMatchFilter fld "in" v)
  = Ok [("$in", match v with
                | VArr items => VArr (map Mongo.coerce items)
                | _ => VArr [v]
                end)].
Proof.
  destruct v as [| | b | z | n | s | h | d | items | o | k]; try reflexivity.
  change (conditionOf (Mongo.mkMatchFilter fld "in" (VArr items)))
    with (@Ok props [("$in", VArr (map Mongo.coerceItem items))]).
  do 4 f_equal. apply map_ext. intro a. apply coerceItem_coerce.
Qed.

(** X11. The operator [between] on a value that [validateFilter] lets
    through, one that is no object: reading [from] of [null] or of
    [undefined] throws a TypeError, and for every other such value both
    bounds are [undefined]. No such value gives a bound. *)
Theorem between_without_object (rt : JSRuntime) (tx : JSText)
        (fld : string) (v : jsval) :
  Mongo.isObjectValue v = false ->
  conditionOf (Mongo.mkMatchFilter fld "between" v)
  = match v with
    | VUndefined =>
        Throw (JsTypeError
                 "Cannot read properties of undefined (reading 'from')")
    | VNull =>
        Throw (JsTypeError "Cannot read properties of null (reading 'from')")
    | _ => Ok [("$gte", VUndefined); ("$lte", VUndefined)]
    end.
Proof.
  destruct v as [| | b | z | n | s | h | d | items | o | k];
    try reflexivity; discriminate.
Qed.

Lemma between_without_object_witness :
  conditionOf (H := Sample.runtime) (H0 := Sample.jstext)
    (Mongo.mkMatchFilter "amount" "between" (VArr [VNum 10; VNum 20]))
  = Ok [("$gte", VUndefined); ("$lte", VUndefined)].
Proof.
  apply (@between_without_object Sample.runtime Sample.jstext "amount"
           (VArr [VNum 10; VNum 20])).
  reflexivity.
Defined.

(** ** What [buildMatch] returns *)

Lemma In_replaceOwn (k : string) (v : jsval) (o : props) (e : string * jsval) :
  In e (replaceOwn k v o) -> e = (k, v) \/ In e o.
Proof.
  induction o as [|[k0 v0] o IH]; [intros []|].
  cbn [replaceOwn]. destruct (String.eqb k0 k).
  - intros [<- | Hin]; [now left | right; now right].
  - intros [<- | Hin]; [right; now left|].
    destruct (IH Hin) as [-> | Ho]; [now left | right; now right].
Qed.

Lemma In_addOwn (k : string) (v : jsval) (o : props) (e : string * jsval) :
  In e (addOwn k v o) -> e = (k, v) \/ In e o.
Proof.
  induction o as [|[k0 v0] o IH].
  - intros [<- | []]. now left.
  - cbn [addOwn]. destruct (comesBefore k k0).
    + intros [<- | Hin]; [now left | now right].
    + intros [<- | Hin]; [right; now left|].
      destruct (IH Hin) as [-> | Ho]; [now left | right; now right].
Qed.

Lemma In_setProp (k : string) (v : jsval) (o : props) (e : string * jsval) :
  In e (setProp k v o) -> e = (k, v) \/ In e o.
Proof.
  unfold setProp, setOwn.
  destruct (String.eqb k "__proto__" && negb (hasOwn k o)); [now right|].
  destruct (hasOwn k o); [apply In_replaceOwn | apply In_addOwn].
Qed.

Section MatchShape.
Context `{JSRuntime} `{JSText}.

Lemma OPERATORS_function (k : string) (op : jsval -> result props) :
  Mongo.OPERATORS k = Some (Mongo.OpFunction op) ->
  In k [ "eq"; "ne"; "gt"; "gte"; "lt"; "lte"; "startsWith"; "endsWith";
         "contains"; "in"; "between" ].
Proof.
  unfold Mongo.OPERATORS.
  destruct (Mongo.assoc k Mongo.AGGREGATION_OPERATORS); [discriminate|].
  destruct (Mongo.assoc k Mongo.STANDARD_OPERATORS) as [f|] eqn:E.
  - intros _. apply assoc_In in E. apply (in_map fst) in E. exact E.
  - destruct (inherited k); discriminate.
Qed.

Lemma buildMatchFrom_shape (filters : list Mongo.MatchFilter) :
  forall m0 m,
    Mongo.buildMatchFrom m0 filters = Ok m ->
    Forall (fun f => In (Mongo.moperator f)
                        [ "eq"; "ne"; "gt"; "gte"; "lt"; "lte"; "startsWith";
                          "endsWith"; "contains"; "in"; "between" ])
           filters
    /\ forall k v, In (k, v) m ->
                   In (k, v) m0
                   \/ (In k (map Mongo.mfield filters)
                       /\ exists c, v = VObj c).
Proof.
  induction filters as [|f rest IH]; intros m0 m E.
  - inversion E; subst. split; [constructor | auto].
  - cbn [Mongo.buildMatchFrom] in E.
    destruct (Mongo.OPERATORS (Mongo.moperator f)) as [[op|s|k0]|] eqn:Eop;
      try discriminate.
    apply bind_Ok in E. destruct E as [condition [Ec E]].
    assert (Hstep : forall m1,
               Mongo.buildMatchFrom m1 rest = Ok m ->
               (forall e, In e m1 ->
                          In e m0
                          \/ (fst e = Mongo.mfield f
                              /\ exists c, snd e = VObj c)) ->
               Forall (fun f => In (Mongo.moperator f)
                                   [ "eq"; "ne"; "gt"; "gte"; "lt"; "lte";
                                     "startsWith"; "endsWith"; "contains";
                                     "in"; "between" ])
                      (f :: rest)
               /\ forall k v, In (k, v) m ->
                              In (k, v) m0
                              \/ (In k (map Mongo.mfield (f :: rest))
                                  /\ exists c, v = VObj c)).
    { intros m1 E1 H1. destruct (IH _ _ E1) as [Hops Hin]. split.
      - constructor; [now apply (OPERATORS_function _ Eop) | exact Hops].
      - intros k v Hkv. destruct (Hin k v Hkv) as [Hm1 | [Hk Hc]].
        + destruct (H1 _ Hm1) as [H0' | [Hk Hc]]; [now left|].
          cbn [fst snd] in Hk, Hc. right. split; [left; now symmetry | exact Hc].
        + right. split; [now right | exact Hc]. }
    assert (Hsame : forall e, In e m0 ->
                      In e m0
                      \/ (fst e = Mongo.mfield f /\ exists c, snd e = VObj c))
      by (intros e He; now left).
    assert (Hset : forall e, In e (setProp (Mongo.mfield f) (VObj condition) m0) ->
                     In e m0
                     \/ (fst e = Mongo.mfield f /\ exists c, snd e = VObj c)).
    { intros e He. apply In_setProp in He. destruct He as [-> | He];
        [right; split; [reflexivity | now eexists] | now left]. }
    destruct (getProp m0 (Mongo.mfield f))
      as [| | b | z | n | s | h | d | items | target | k0];
      cbn [truthy] in E;
      repeat match type of E with
             | context [if ?b then _ else _] => destruct b
             end;
      try discriminate E;
      try (apply (Hstep _ E Hsame)); try (apply (Hstep _ E Hset)).
    apply (Hstep _ E). intros e He. apply In_replaceOwn in He.
    destruct He as [-> | He];
      [right; split; [reflexivity | now eexists] | now left].
Qed.

End MatchShape.

(** ** The shape of a tabular translation *)

Section TabularShape.
Context `{JSRuntime}.

Lemma push_not_empty (c : string) (ps : list jsval) (st : SQL.acc) :
  fst (SQL.push c ps st) <> [].
Proof. cbn [SQL.push fst]. now destruct (fst st). Qed.

Lemma operatorCondition_paired (column : string) (st : SQL.acc)
      (e : string * jsval) :
  (fst st = [] -> snd st = []) ->
  fst (SQL.operatorCondition column st e) = [] ->
  snd (SQL.operatorCondition column st e) = [].
Proof.
  intro Hst. destruct e as [op opValue]. unfold SQL.operatorCondition.
  destruct (SQL.SQL_OPERATORS op) as [sqlOp|]; [|exact Hst].
  destruct (String.eqb op "$in" || String.eqb op "$nin").
  - destruct opValue; try exact Hst.
    intro E. now apply push_not_empty in E.
  - destruct (String.eqb op "$regex").
    + destruct opValue; try exact Hst.
      intro E. now apply push_not_empty in E.
    + intro E. now apply push_not_empty in E.
Qed.

Lemma buildCondition_paired (key : string) (v : jsval) (st : SQL.acc) :
  (fst st = [] -> snd st = []) ->
  fst (SQL.buildCondition key v st) = [] ->
  snd (SQL.buildCondition key v st) = [].
Proof.
  intro Hst. unfold SQL.buildCondition.
  assert (Hfold : forall es,
             fst (fold_left (SQL.operatorCondition key) es st) = [] ->
             snd (fold_left (SQL.operatorCondition key) es st) = []).
  { intro es.
    apply (fold_left_invariant
             (fun st => fst st = [] -> snd st = [])
             (SQL.operatorCondition key) es st Hst).
    intros s e _. apply operatorCondition_paired. }
  destruct v; try exact Hst;
    destruct (typeofObject _ && negb (isArray _));
    try apply Hfold; intro E; now apply push_not_empty in E.
Qed.

Lemma addChild_paired (sub : SQL.SQLFilter) (subs : SQL.acc) :
  (fst subs = [] -> snd subs = []) ->
  fst (SQL.addChild sub subs) = [] -> snd (SQL.addChild sub subs) = [].
Proof.
  intro Hst. unfold SQL.addChild.
  destruct (String.eqb (SQL.whereClause sub) ""); [exact Hst|].
  intro E. now apply push_not_empty in E.
Qed.

Lemma compose_paired (connective : string) (subs st : SQL.acc) :
  (fst subs = [] -> snd subs = []) ->
  (fst st = [] -> snd st = []) ->
  fst (SQL.compose connective subs st) = [] ->
  snd (SQL.compose connective subs st) = [].
Proof.
  intros Hsubs Hst. unfold SQL.compose. cbn [fst snd].
  destruct (fst subs) as [|c cs].
  - intro E. now rewrite (Hst E), (Hsubs eq_refl).
  - intro E. now destruct (fst st).
Qed.

Lemma translateChildren_paired (conds : list jsval) :
  fst (translateChildren conds ([], [])) = [] ->
  snd (translateChildren conds ([], [])) = [].
Proof.
  unfold translateChildren.
  apply (fold_left_invariant
           (fun subs => fst subs = [] -> snd subs = [])
           (fun subs cond => SQL.addChild (SQL.buildSQLFilter cond) subs)
           conds ([], [])); [reflexivity|].
  intros s e _. apply addChild_paired.
Qed.

Lemma entryStep_paired (st : SQL.acc) (e : string * jsval) :
  (fst st = [] -> snd st = []) ->
  fst (entryStep st e) = [] -> snd (entryStep st e) = [].
Proof.
  intro Hst. destruct e as [key v]. unfold entryStep.
  destruct (startsWith key "$"); [|now apply buildCondition_paired].
  destruct (String.eqb key "$and" && isArray v).
  - destruct v; try exact Hst.
    apply compose_paired; [apply translateChildren_paired | exact Hst].
  - destruct (String.eqb key "$or" && isArray v); [|exact Hst].
    destruct v; try exact Hst.
    apply compose_paired; [apply translateChildren_paired | exact Hst].
Qed.

Lemma empty_clause_no_params (filter : jsval) :
  SQL.whereClause (SQL.buildSQLFilter filter) = "" ->
  SQL.params (SQL.buildSQLFilter filter) = [].
Proof.
  rewrite buildSQLFilter_loop.
  destruct (SQL.isEmptyFilter filter); [reflexivity|].
  unfold SQL.finish. cbn [SQL.whereClause SQL.params].
  intro E. apply (@fold_left_invariant SQL.acc (string * jsval)
                    (fun st => fst st = [] -> snd st = [])
                    entryStep (ownEntries filter) ([], [])).
  - reflexivity.
  - intros s e _. apply entryStep_paired.
  - now destruct (fst (fold_left entryStep (ownEntries filter) ([], []))).
Qed.

(** X13. A translation of [buildSQLFilter] is either empty, and then binds
    no parameter, or its clause starts with the keyword [WHERE]: the main
    query and the aggregation queries, which send the parameters whether or
    not they append the clause, never send a parameter without it. *)
Theorem tabular_clause_empty_or_where (filter : jsval) :
  (SQL.whereClause (SQL.buildSQLFilter filter) = ""
   /\ SQL.params (SQL.buildSQLFilter filter) = [])
  \/ startsWith (SQL.whereClause (SQL.buildSQLFilter filter)) "WHERE " = true.
Proof.
  destruct (String.eqb (SQL.whereClause (SQL.buildSQLFilter filter)) "")
    eqn:E.
  - apply String.eqb_eq in E. left. split; [exact E|].
    now apply empty_clause_no_params.
  - right. revert E. rewrite buildSQLFilter_loop.
    destruct (SQL.isEmptyFilter filter); [discriminate|].
    unfold SQL.finish. cbn [SQL.whereClause].
    destruct (fst (fold_left entryStep (ownEntries filter) ([], [])));
      [discriminate | reflexivity].
Qed.

Lemma translateChildren_kept (conds : list jsval) (subs : SQL.acc) :
  translateChildren conds subs
  = (fst subs
       ++ map (fun s => ("(" ++ SQL.whereClause s ++ ")")%string)
              (filter (fun s => negb (String.eqb (SQL.whereClause s) ""))
                      (map SQL.buildSQLFilter conds)),
     snd subs
       ++ flat_map SQL.params
            (filter (fun s => negb (String.eqb (SQL.whereClause s) ""))
                    (map SQL.buildSQLFilter conds)))%list.
Proof.
  revert subs. unfold translateChildren.
  induction conds as [|c conds IH]; intro subs.
  - cbn. rewrite !app_nil_r. now destruct subs.
  - cbn [fold_left map filter]. rewrite IH. unfold SQL.addChild.
    destruct (String.eqb (SQL.whereClause (SQL.buildSQLFilter c)) "");
      cbn [negb]; [reflexivity|].
    cbn [SQL.push fst snd map flat_map]. now rewrite <- !app_assoc.
Qed.

Lemma kept_params (conds : list jsval) :
  flat_map SQL.params
    (filter (fun s => negb (String.eqb (SQL.whereClause s) ""))
            (map SQL.buildSQLFilter conds))
  = flat_map SQL.params (map SQL.buildSQLFilter conds).
Proof.
  induction conds as [|c conds IH]; [reflexivity|].
  cbn [map filter flat_map].
  destruct (String.eqb (SQL.whereClause (SQL.buildSQLFilter c)) "") eqn:E;
    cbn [negb flat_map]; rewrite IH; [|reflexivity].
  apply String.eqb_eq in E. now rewrite (empty_clause_no_params _ E).
Qed.

(** X14. A filter that is one [$and] (or [$or]) over an array of
    conditions: the children are translated one by one, those with an empty
    clause are left out, the others are put in parentheses with their own
    [WHERE] keyword and joined by the connective; the parameters are those
    of the children in order. *)
Theorem tabular_connective_over_children
        (key connective : string) (conds : list jsval) :
  (key = "$and" /\ connective = " AND ")
  \/ (key = "$or" /\ connective = " OR ") ->
  SQL.buildSQLFilter (VObj [(key, VArr conds)])
  = SQL.mkSQLFilter
      (match filter (fun s => negb (String.eqb (SQL.whereClause s) ""))
                    (map SQL.buildSQLFilter conds) with
       | [] => ""
       | kept =>
           "WHERE "
           ++ join connective
                (map (fun s => "(" ++ SQL.whereClause s ++ ")") kept)
       end)
      (flat_map SQL.params (map SQL.buildSQLFilter conds)).
Proof.
  intros [[-> ->] | [-> ->]];
    rewrite buildSQLFilter_loop;
    change (SQL.isEmptyFilter (VObj [(_, VArr conds)])) with false;
    cbn [ownEntries fold_left entryStep startsWith chars
         list_ascii_of_string prefixb Ascii.eqb Bool.eqb String.eqb isArray
         andb];
    rewrite translateChildren_kept, kept_params;
    unfold SQL.compose, SQL.finish; cbn [fst snd app];
    (destruct (filter _ (map SQL.buildSQLFilter conds)) as [|s kept];
     [reflexivity|]); cbn [map app SQL.whereClause SQL.params join];
    reflexivity.
Qed.

(** X15. Entries the translator passes over: a member whose value is
    [null] or [undefined], and a member whose key starts with [$] unless it
    is [$and] or [$or] with an array. A filter made of such entries only,
    [$not] and [$nor] included, translates to the empty clause and selects
    every row. *)
Theorem tabular_entries_passed_over (o : props) :
  Forall (fun e =>
            snd e = VNull \/ snd e = VUndefined
            \/ (startsWith (fst e) "$" = true
                /\ (isArray (snd e) = false
                    \/ (fst e <> "$and" /\ fst e <> "$or"))))
         o ->
  SQL.buildSQLFilter (VObj o) = SQL.mkSQLFilter "" [].
Proof.
  intro Hall. rewrite buildSQLFilter_loop.
  destruct (SQL.isEmptyFilter (VObj o)); [reflexivity|].
  cbn [ownEntries].
  assert (E : fold_left entryStep o ([], []) = ([], []));
    [|now rewrite E].
  induction Hall as [|[key v] es He _ IH]; [reflexivity|].
  cbn [fold_left]. rewrite <- IH at 2. f_equal.
  cbn [fst snd] in He. unfold entryStep.
  destruct He as [-> | [-> | [Hs Hk]]].
  - destruct (startsWith key "$"); [|reflexivity].
    cbn [isArray]. now rewrite !andb_false_r.
  - destruct (startsWith key "$"); [|reflexivity].
    cbn [isArray]. now rewrite !andb_false_r.
  - rewrite Hs. destruct Hk as [Ha | [Hand Hor]].
    + now rewrite Ha, !andb_false_r.
    + apply String.eqb_neq in Hand, Hor. now rewrite Hand, Hor.
Qed.
End TabularShape.

Lemma tabular_connective_over_children_witness :
  SQL.buildSQLFilter (H := Sample.runtime)
    (VObj [("$or", VArr [ VObj [("status", VStr "paid")];
                          VObj [];
                          VObj [("amount", VObj [("$gt", VNum 100)])] ])])
  = SQL.mkSQLFilter "WHERE (WHERE status = ?) OR (WHERE amount > ?)"
                    [VStr "paid"; VNum 100].
Proof.
  exact (@tabular_connective_over_children Sample.runtime "$or" " OR "
           [ VObj [("status", VStr "paid")];
             VObj [];
             VObj [("amount", VObj [("$gt", VNum 100)])] ]
           (or_intror (conj eq_refl eq_refl))).
Defined.

Lemma tabular_entries_passed_over_witness :
  SQL.buildSQLFilter (H := Sample.runtime)
    (VObj [ ("$not", VObj [("status", VStr "void")]);
            ("$nor", VArr [VObj [("amount", VNum 0)]]);
            ("$and", VObj [("amount", VNum 1)]);
            ("customer", VNull) ])
  = SQL.mkSQLFilter "" [].
Proof.
  apply (@tabular_entries_passed_over Sample.runtime).
  repeat apply Forall_cons; [| | | |apply Forall_nil]; cbn [fst snd].
  - right; right. split; [reflexivity | right; split; discriminate].
  - right; right. split; [reflexivity | right; split; discriminate].
  - right; right. split; [reflexivity | now left].
  - now left.
Defined.

(** ** From the request to the WHERE clause *)

Lemma tabular_root_of_one (f : Filter) : SQL.resolveRoot [f] = collection f.
Proof.
  unfold SQL.resolveRoot, unique, dedupe.
  cbn [map dedupeFrom existsb List.length Nat.ltb Nat.leb orb].
  destruct (String.eqb "invoices" (collection f)) eqn:E; [|reflexivity].
  now apply String.eqb_eq in E.
Qed.

(** X16. Tabular backend, from the request to the clause: one filter that
    passes validation, with a comparison operator and a field that is
    neither an inherited member name nor starts with [$], is converted and
    translated to [WHERE field op ?] with the value of the filter as the
    only parameter. *)
Theorem tabular_comparison_translated (rt : JSRuntime) (f : Filter)
        (sqlOp : string) :
  SQL.validateFilter f = Ok true ->
  In (operator f, sqlOp)
     [ ("eq", "="); ("ne", "!="); ("gt", ">"); ("gte", ">=");
       ("lt", "<"); ("lte", "<=") ] ->
  inherited (field f) = false ->
  startsWith (field f) "$" = false ->
  (st <- SQL.convertFilters [f] ;;
   Ok (SQL.buildSQLFilter (VObj (fst st))))
  = Ok (SQL.mkSQLFilter ("WHERE " ++ field f ++ " " ++ sqlOp ++ " ?")
                        [value f]).
Proof.
  intros Hv Hop Hinh Hdollar.
  unfold SQL.convertFilters. cbn [forEachM]. unfold SQL.convertFilter.
  rewrite Hv. cbn [bind]. rewrite tabular_root_of_one.
  unfold resolveFieldPath. rewrite String.eqb_refl.
  rewrite (@setProp_empty _ _ Hinh). unfold getProp. cbn [getOwn].
  rewrite Hinh. cbn [truthy getOwn]. rewrite String.eqb_refl.
  cbn [replaceOwn]. rewrite String.eqb_refl.
  destruct f as [coll fld op v]. cbn [operator field value collection] in *.
  cbn [In] in Hop.
  repeat (destruct Hop as [Hop | Hop];
          [inversion Hop; subst op sqlOp; clear Hop|]); [ .. | destruct Hop].
  all: cbn [isAggregationTag existsb String.eqb Ascii.eqb Bool.eqb orb bind fst].
  all: rewrite buildSQLFilter_loop.
  all: change (SQL.isEmptyFilter (VObj [(fld, _)])) with false.
  all: cbn [ownEntries fold_left entryStep]; rewrite Hdollar.
  all: reflexivity.
Qed.

Lemma tabular_comparison_translated_witness :
  (st <- SQL.convertFilters (H := Sample.runtime)
           [mkFilter "invoices" "amount" "gt" (VNum 100)] ;;
   Ok (SQL.buildSQLFilter (H := Sample.runtime) (VObj (fst st))))
  = Ok (SQL.mkSQLFilter "WHERE amount > ?" [VNum 100]).
Proof.
  apply (@tabular_comparison_translated Sample.runtime
           (mkFilter "invoices" "amount" "gt" (VNum 100)) ">");
    [reflexivity | cbn; tauto | reflexivity | reflexivity].
Defined.

(** X17. Tabular backend: a validated filter with the operator [in] gives
    a list of one placeholder per item when its value is an array, and no
    condition at all when its value is anything else (the document backend
    wraps such a value in a one-element array). *)
Theorem tabular_in_translated (rt : JSRuntime) (f : Filter) :
  SQL.validateFilter f = Ok true ->
  operator f = "in" ->
  inherited (field f) = false ->
  startsWith (field f) "$" = false ->
  (st <- SQL.convertFilters [f] ;;
   Ok (SQL.buildSQLFilter (VObj (fst st))))
  = Ok (match value f with
        | VArr items =>
            SQL.mkSQLFilter
              ("WHERE " ++ field f ++ " IN ("
               ++ join ", " (map (fun _ => "?") items) ++ ")")
              items
        | _ => SQL.mkSQLFilter "" []
        end).
Proof.
  intros Hv Hop Hinh Hdollar.
  unfold SQL.convertFilters. cbn [forEachM]. unfold SQL.convertFilter.
  rewrite Hv. cbn [bind]. rewrite tabular_root_of_one.
  unfold resolveFieldPath. rewrite String.eqb_refl.
  rewrite (@setProp_empty _ _ Hinh). unfold getProp. cbn [getOwn].
  rewrite Hinh. cbn [truthy getOwn]. rewrite String.eqb_refl.
  cbn [replaceOwn]. rewrite String.eqb_refl. rewrite Hop.
  cbn [isAggregationTag existsb String.eqb Ascii.eqb Bool.eqb orb bind fst].
  rewrite buildSQLFilter_loop.
  change (SQL.isEmptyFilter (VObj [(field f, _)])) with false.
  cbn [ownEntries fold_left entryStep]. rewrite Hdollar.
  now destruct (value f).
Qed.

Lemma tabular_in_translated_witness :
  (st <- SQL.convertFilters (H := Sample.runtime)
           [mkFilter "invoices" "status" "in" (VStr "paid")] ;;
   Ok (SQL.buildSQLFilter (H := Sample.runtime) (VObj (fst st))))
  = Ok (SQL.mkSQLFilter "" []).
Proof.
  apply (@tabular_in_translated Sample.runtime
           (mkFilter "invoices" "status" "in" (VStr "paid")));
    reflexivity.
Defined.

(** ** A statement the database refuses *)

Section Swallowed.
Context `{JSRuntime} `{PathResolver}.
Variable RELATIONS : list Rel.t.

Lemma data_of_failure (pool : SQL.Pool) (queryPlan : SQL.QueryPlan)
      (filter : jsval) :
  SQL.data (SQL.executeSQLQuery pool queryPlan filter [])
  = SQL.data
      (SQL.executeSQLQuery
         (fun q ps => match pool q ps with
                      | Failure _ => Answer []
                      | rows => rows
                      end)
         queryPlan filter []).
Proof.
  unfold SQL.executeSQLQuery.
  destruct (SQL.tables queryPlan); [reflexivity|].
  now destruct (pool _ _).
Qed.

Lemma catchQuery_not_200 (e : jserror) : status (catchQuery e) <> 200%nat.
Proof.
  unfold catchQuery.
  destruct (includes (message e) "Invalid"
            || includes (message e) "validation"); discriminate.
Qed.

(** X18. Tabular backend, a request without aggregations: a statement the
    database refuses is answered like a statement that found no row. The
    handler reads only the rows of the result, so the answer is the one the
    same request gets from a database that returns no row where this one
    fails; when every statement fails, an answer with status 200 still says
    [success: true], with count 0 and no data. *)
Theorem tabular_failure_reads_as_no_rows
        (pool : SQL.Pool) (database : string) (filters : list Filter) :
  SQL.query RELATIONS pool database filters []
  = SQL.query RELATIONS
      (fun q ps => match pool q ps with
                   | Failure _ => Answer []
                   | rows => rows
                   end)
      database filters []
  /\ ((forall q ps, exists m, pool q ps = Failure m) ->
      forall r,
        SQL.query RELATIONS pool database filters [] = Ok r ->
        status r = 200%nat ->
        body r = VObj [ ("success", VBool true);
                        ("type", VStr "regular");
                        ("root", VStr (SQL.resolveRoot filters));
                        ("count", VNum 0);
                        ("data", VArr []) ]).
Proof.
  split.
  - unfold SQL.query. destruct (String.eqb database ""); [reflexivity|].
    destruct (SQL.convertFilters filters) as [st| |]; try reflexivity.
    cbn [bind]. unfold SQL.queryRegular.
    destruct (SQL.buildJoinPlan RELATIONS (SQL.resolveRoot filters)
                (map collection filters)) as [js| |]; try reflexivity.
    cbn [bind].
    destruct (SQL.validateFilters filters) as [[r|]| |]; try reflexivity.
    cbn [bind]. now rewrite <- data_of_failure.
  - intros Hfail r. unfold SQL.query.
    destruct (String.eqb database "");
      [intro E; inversion E; subst r; discriminate|].
    destruct (SQL.convertFilters filters) as [st|e|]; cbn [bind];
      [| intro E; inversion E; subst r; intro Hs;
         now apply catchQuery_not_200 in Hs
       | discriminate].
    unfold SQL.queryRegular.
    destruct (SQL.buildJoinPlan RELATIONS (SQL.resolveRoot filters)
                (map collection filters)) as [js|e|]; cbn [bind];
      [| intro E; inversion E; subst r; intro Hs;
         now apply catchQuery_not_200 in Hs
       | discriminate].
    destruct (SQL.validateFilters filters) as [early|e|] eqn:Ev; cbn [bind];
      [| intro E; inversion E; subst r; intro Hs;
         now apply catchQuery_not_200 in Hs
       | discriminate].
    destruct early as [r'|].
    + intro E. inversion E; subst r'. clear E. intro Hs. exfalso.
      revert Ev Hs. clear. induction filters as [|f rest IH]; [discriminate|].
      cbn [SQL.validateFilters].
      destruct (SQL.validateFilter f); cbn [bind]; try discriminate.
      destruct (String.eqb (collection f) "" || String.eqb (field f) ""
                || String.eqb (operator f) ""); [|exact IH].
      intro E. inversion E; subst r. discriminate.
    + intro E. inversion E; subst r. clear E. intros _. cbn [body].
      unfold SQL.executeSQLQuery. cbn [SQL.tables].
      destruct (Hfail (SQL.mainQuery
                         (SQL.mkQueryPlan [SQL.resolveRoot filters] js
                            (unique
                               ((SQL.resolveRoot filters ++ ".*")
                                :: map (fun f =>
                                          resolveFieldPath
                                            (SQL.resolveRoot filters)
                                            (collection f) (field f))
                                       (filter
                                          (fun f =>
                                             negb (String.eqb (collection f)
                                                     (SQL.resolveRoot filters)))
                                          filters))))
                         (VObj (fst st)))
                      (SQL.params (SQL.buildSQLFilter (VObj (fst st)))))
        as [m Em].
      rewrite Em. reflexivity.
Qed.
End Swallowed.

Lemma tabular_failure_reads_as_no_rows_witness :
  exists r,
    SQL.query (H := Sample.runtime) (H0 := Sample.bfs Mongo.RELATIONS)
              Mongo.RELATIONS (fun _ _ => Failure "connect ECONNREFUSED")
              "salesDB" [mkFilter "invoices" "amount" "gt" (VNum 100)] []
    = Ok r
    /\ status r = 200%nat
    /\ body r = VObj [ ("success", VBool true);
                       ("type", VStr "regular");
                       ("root", VStr "invoices");
                       ("count", VNum 0);
                       ("data", VArr []) ].
Proof.
  eexists. split; [reflexivity|]. split; [reflexivity|].
  apply (proj2 (@tabular_failure_reads_as_no_rows Sample.runtime
                  (Sample.bfs Mongo.RELATIONS) Mongo.RELATIONS
                  (fun _ _ => Failure "connect ECONNREFUSED") "salesDB"
                  [mkFilter "invoices" "amount" "gt" (VNum 100)]));
    [intros q ps; now exists "connect ECONNREFUSED"
    | reflexivity | reflexivity].
Defined.

(** ** Aggregate expressions of the tabular backend *)

(** X19. Tabular backend: an aggregation whose operation is not count, sum,
    avg, min or max (in any letter case) gets an entry with the error
    [Unsupported aggregation operation] and the value [null], whatever the
    database would answer: no statement is sent for it. *)
Theorem tabular_unsupported_aggregation
        (rt : JSRuntime) (pool : SQL.Pool) (queryPlan : SQL.QueryPlan)
        (filter : jsval) (a : SQL.Aggregation) :
  ~ In (toLowerCase (SQL.operation a)) ["count"; "sum"; "avg"; "min"; "max"] ->
  SQL.aggregationEntry pool queryPlan filter a
  = VObj [ ("operation", VStr (SQL.operation a));
           ("field", VStr (SQL.afield a));
           ("alias", VStr (SQL.resultAlias a));
           ("error", VStr ("Unsupported aggregation operation: "
                           ++ SQL.operation a));
           ("value", VNull) ].
Proof.
  intro Hop.
  assert (E : SQL.aggregateExpression a
              = Throw (JsError ("Unsupported aggregation operation: "
                                ++ SQL.operation a))).
  { unfold SQL.aggregateExpression.
    repeat match goal with
           | |- context [String.eqb (toLowerCase (SQL.operation a)) ?s] =>
               let Es := fresh "Es" in
               destruct (String.eqb (toLowerCase (SQL.operation a)) s) eqn:Es;
               [apply String.eqb_eq in Es; exfalso; apply Hop; rewrite Es;
                cbn [In]; tauto|]
           end.
    reflexivity. }
  unfold SQL.aggregationEntry, SQL.runAggregation, SQL.aggregationQuery.
  now rewrite E.
Qed.

Lemma tabular_unsupported_aggregation_witness :
  SQL.aggregationEntry (H := Sample.runtime)
    (fun _ _ => Answer [[("median_amount", VNum 7)]])
    (SQL.mkQueryPlan ["invoices"] [] ["amount"]) (VObj [])
    (SQL.mkAggregation "median" "invoices.amount" None)
  = VObj [ ("operation", VStr "median");
           ("field", VStr "invoices.amount");
           ("alias", VStr "median_invoices_amount");
           ("error", VStr "Unsupported aggregation operation: median");
           ("value", VNull) ].
Proof.
  apply (@tabular_unsupported_aggregation Sample.runtime
           (fun _ _ => Answer [[("median_amount", VNum 7)]])
           (SQL.mkQueryPlan ["invoices"] [] ["amount"]) (VObj [])
           (SQL.mkAggregation "median" "invoices.amount" None)).
  cbn. intros [E | [E | [E | [E | [E | []]]]]]; discriminate E.
Defined.

Lemma dotted_not_star (c f : string) : c ++ "." ++ f <> "*".
Proof.
  destruct c as [|x [|y c]]; cbn; discriminate.
Qed.

Lemma count_of_column (x : string) : "COUNT(" ++ x ++ ")" = "COUNT(*)" -> x = "*".
Proof.
  cbn. intro E. inversion E as [E'].
  destruct x as [|c [|d x]]; cbn in E'; try discriminate.
  - now inversion E'.
  - inversion E' as [[Ec E'']]. destruct x; discriminate.
Qed.


(** X20. Tabular backend: the handler qualifies the field of every
    aggregation of the request with its collection, so the field is never
    [*] and no aggregation of a request is sent as [COUNT( * )]: a count is
    the count of a column. *)
Theorem tabular_request_never_counts_rows (agg : AggregationOp) :
  SQL.aggregateExpression (SQL.transformAggregation agg) <> Ok "COUNT(*)"
  /\ (toLowerCase (agg_operator agg) = "count" ->
      SQL.aggregateExpression (SQL.transformAggregation agg)
      = Ok ("COUNT(" ++ (agg_collection agg ++ "." ++ agg_field agg)
            ++ ")")).
Proof.
  unfold SQL.aggregateExpression, SQL.transformAggregation.
  cbn [SQL.operation SQL.afield].
  rewrite (string_eqb_neq (@dotted_not_star (agg_collection agg)
                                            (agg_field agg))).
  split.
  - repeat match goal with
           | |- context [if ?b then _ else _] => destruct b
           end; try discriminate.
    intro E.
    assert (E' := f_equal (fun r => match r with Ok s => s | _ => "" end) E).
    cbv beta iota in E'. apply count_of_column in E'.
    now apply dotted_not_star in E'.
  - intros ->. reflexivity.
Qed.

Lemma tabular_request_never_counts_rows_witness :
  SQL.aggregateExpression
    (SQL.transformAggregation (mkAggregationOp "invoices" "*" "COUNT" None))
  = Ok "COUNT(invoices.*)".
Proof.
  apply (proj2 (tabular_request_never_counts_rows
                  (mkAggregationOp "invoices" "*" "COUNT" None))).
  reflexivity.
Defined.

(** ** Join clauses *)

Lemma splitDot_plain (l : list ascii) :
  existsb (Ascii.eqb "."%char) l = false -> splitDot l = [l].
Proof.
  induction l as [|c l IH]; [reflexivity|].
  cbn [existsb splitDot]. intro E. apply orb_false_iff in E.
  destruct E as [Ec El]. rewrite Ascii.eqb_sym in Ec.
  now rewrite Ec, (IH El).
Qed.

Lemma splitDot_dotted (a b : list ascii) :
  existsb (Ascii.eqb "."%char) a = false ->
  splitDot (a ++ "."%char :: b) = a :: splitDot b.
Proof.
  induction a as [|c a IH]; [reflexivity|].
  cbn [existsb app splitDot]. intro E. apply orb_false_iff in E.
  destruct E as [Ec Ea]. rewrite Ascii.eqb_sym in Ec.
  now rewrite Ec, (IH Ea).
Qed.

Lemma splitDot_qualified (t f : string) :
  includes t "." = false -> includes f "." = false ->
  splitDot (chars (t ++ "." ++ f)) = [chars t; chars f].
Proof.
  unfold includes. change (chars ".") with ["."%char].
  rewrite !includesb_one. intros Et Ef.
  rewrite chars_append. change (chars ("." ++ f)) with ("."%char :: chars f).
  now rewrite (@splitDot_dotted _ _ Et), (@splitDot_plain _ Ef).
Qed.

Lemma qualified_not_empty (t f : string) : String.eqb (t ++ "." ++ f) "" = false.
Proof. now destruct t. Qed.

(** X21. The planner writes the two ends of a join as [table.column] and
    the executor splits them at the dot again: for names that are not empty
    and hold no dot, the clause names exactly the tables and columns the
    planner put together. *)
Theorem join_clause_of_qualified_names
        (fromTable fromField toTable toField type : string) :
  Forall (fun name => name <> "" /\ includes name "." = false)
         [fromTable; fromField; toTable; toField] ->
  SQL.joinClause (SQL.mkJoinEdge (fromTable ++ "." ++ fromField)
                                 (toTable ++ "." ++ toField) type)
  = type ++ " JOIN " ++ toTable ++ " ON " ++ fromTable ++ "." ++ fromField
    ++ " = " ++ toTable ++ "." ++ toField.
Proof.
  intro Hall.
  inversion Hall as [|? ? [N1 D1] H1]; subst.
  inversion H1 as [|? ? [N2 D2] H2]; subst.
  inversion H2 as [|? ? [N3 D3] H3]; subst.
  inversion H3 as [|? ? [N4 D4] _]; subst.
  unfold SQL.joinClause. cbn [SQL.from SQL.to SQL.type].
  rewrite !qualified_not_empty. cbn [orb].
  rewrite (@splitDot_qualified _ _ D1 D2), (@splitDot_qualified _ _ D3 D4).
  cbn [nth]. rewrite !text_chars.
  now rewrite (@string_eqb_neq _ _ N1), (@string_eqb_neq _ _ N2),
    (@string_eqb_neq _ _ N3), (@string_eqb_neq _ _ N4).
Qed.

Lemma join_clause_of_qualified_names_witness :
  SQL.joinClause (SQL.mkJoinEdge "invoices.customer_id" "customers.id" "INNER")
  = "INNER JOIN customers ON invoices.customer_id = customers.id".
Proof.
  apply (@join_clause_of_qualified_names "invoices" "customer_id"
           "customers" "id" "INNER").
  repeat constructor; discriminate.
Defined.

(** ** The name the enhancer writes *)

Section EnhancerNames.
Context `{JSRuntime}.
Variable drv : Mongo.Driver.

Lemma resolveIdField_other_name (rec : props) (m : string * string) :
  m = ("product_id", "products") \/ m = ("category_id", "categories") ->
  getOwn "customers_name" (Mongo.resolveIdField drv rec m)
  = getOwn "customers_name" rec.
Proof.
  intros [-> | ->]; unfold Mongo.resolveIdField;
    (destruct (truthy (getProp rec _)); [|reflexivity]);
    (destruct (Mongo.findOne drv _ _) as [[doc|]|]; try reflexivity);
    cbv zeta;
    repeat match goal with
           | |- context [if ?b then _ else _] => destruct b
           end;
    repeat (rewrite getOwn_setProp_other by discriminate);
    reflexivity.
Qed.

Lemma resolveIdField_customer_name (rec doc : props) :
  truthy (getProp rec "customer_id") = true ->
  Mongo.findOne drv "customers" (getProp rec "customer_id")
  = Answer (Some doc) ->
  getOwn "customers_name"
         (Mongo.resolveIdField drv rec ("customer_id", "customers"))
  = Some (Mongo.orElse (getProp doc "name")
            (Mongo.orElse (getProp doc "title")
               (Mongo.orElse (getProp doc "label") (getProp doc "_id")))).
Proof.
  intros Hid Hdoc. unfold Mongo.resolveIdField. rewrite Hid, Hdoc.
  cbv zeta. change ("customers" ++ "_name") with "customers_name".
  destruct (truthy (getProp doc "zone"));
    destruct (truthy (getProp doc "region"));
    repeat (rewrite getOwn_setProp_other by discriminate);
    (destruct (truthy (getProp doc "name")) eqn:En;
     [rewrite getOwn_setProp_same by discriminate;
      unfold Mongo.orElse at 1; now rewrite En
     | now rewrite getOwn_setProp_same by discriminate]).
Qed.

(** X22. Document backend: for a row with a truthy [customer_id] whose
    customer is found, the enhanced row carries under [customers_name] the
    first truthy of the customer's [name], [title], [label] and [_id];
    the lookups of the product and of the category leave that member as it
    is. *)
Theorem enhancer_customer_name (record : jsval) (doc : props) :
  truthy (getProp (ownEntries record) "customer_id") = true ->
  Mongo.findOne drv "customers" (getProp (ownEntries record) "customer_id")
  = Answer (Some doc) ->
  exists o',
    Mongo.enhanceRecord drv record = VObj o'
    /\ getOwn "customers_name" o'
       = Some (Mongo.orElse (getProp doc "name")
                 (Mongo.orElse (getProp doc "title")
                    (Mongo.orElse (getProp doc "label")
                                  (getProp doc "_id")))).
Proof.
  intros Hid Hdoc. eexists. split; [reflexivity|].
  cbn [fold_left Mongo.idFieldMappings].
  rewrite resolveIdField_other_name by (now right).
  rewrite resolveIdField_other_name by (now left).
  now apply resolveIdField_customer_name.
Qed.
End EnhancerNames.

Lemma enhancer_customer_name_witness :
  exists o',
    Mongo.enhanceRecord (H := Sample.runtime) Sample.customerDriver
      (VObj [("customer_id", VNum 7); ("amount", VNum 120)])
    = VObj o'
    /\ getOwn "customers_name" o' = Some (VStr "Ann").
Proof.
  apply (@enhancer_customer_name Sample.runtime Sample.customerDriver
           (VObj [("customer_id", VNum 7); ("amount", VNum 120)])
           [("_id", VNum 7); ("name", VStr "Ann")]);
    reflexivity.
Defined.

(** ** The group stage *)

(** X23. Document backend: an aggregation whose operator is not count, sum,
    avg, min or max adds nothing to the [$group] stage; the stage is the
    one built from the other aggregations, and no error is raised for it
    (the tabular backend answers such an aggregation with an error
    entry). *)
Theorem group_stage_skips_other_operators
        (root : string) (ops : list AggregationOp) :
  Mongo.groupStage root ops
  = Mongo.groupStage root
      (filter (fun op => isAggregationTag (agg_operator op)) ops).
Proof.
  unfold Mongo.groupStage. generalize [("_id", VNull)].
  induction ops as [|op ops IH]; intro g; [reflexivity|].
  cbn [filter fold_left].
  destruct (isAggregationTag (agg_operator op)) eqn:E.
  - cbn [fold_left]. apply IH.
  - rewrite <- IH. f_equal.
    unfold isAggregationTag in E. cbn [existsb] in E.
    repeat (apply orb_false_iff in E; destruct E as [?E E]).
    cbn [existsb]. now rewrite E0, E1, E2, E3, E4.
Qed.

Lemma keys_setProp_NoDup (k : string) (v : jsval) (o : props) :
  NoDup (map fst o) -> NoDup (map fst (setProp k v o)).
Proof.
  intro Hnd. unfold setProp.
  destruct (String.eqb k "__proto__" && negb (hasOwn k o)); [exact Hnd|].
  unfold setOwn, hasOwn. destruct (getOwn k o) eqn:Eg.
  - now rewrite keys_replaceOwn.
  - apply keys_addOwn_NoDup; [now apply getOwn_None_iff | exact Hnd].
Qed.

Lemma find_skips {A} (p : A -> bool) (l1 l2 : list A) :
  Forall (fun x => p x = false) l1 -> find p (l1 ++ l2)%list = find p l2.
Proof.
  induction 1 as [|x l1 Hx _ IH]; [reflexivity|].
  cbn [app find]. now rewrite Hx.
Qed.

(** X24. Document backend: the [$group] stage has one member per alias.
    The member of an alias other than [__proto__] is the accumulator of the
    last aggregation computed under it (a count, a sum, an average, a
    minimum or a maximum, wherever it stands in the list), so of two sums
    without an alias only the second is computed; the alias [__proto__]
    adds no member. *)
Theorem group_stage_last_alias_wins (root : string) :
  (forall ops, NoDup (map fst (Mongo.groupStage root ops)))
  /\ (forall before op after a,
         groupAlias op = Some a ->
         a <> "__proto__" ->
         Forall (fun later => groupAlias later <> Some a) after ->
         getOwn a (Mongo.groupStage root (before ++ op :: after)%list)
         = Some (accumulator root op))
  /\ (forall ops, getOwn "__proto__" (Mongo.groupStage root ops) = None).
Proof.
  split; [|split].
  - intro ops. rewrite groupStage_fold.
    apply (fold_left_invariant (fun g => NoDup (map fst g))).
    + cbn. constructor; [intros [] | constructor].
    + intros g op _ Hg. destruct (groupAlias op); [|exact Hg].
      now apply keys_setProp_NoDup.
  - intros before op after a Ha Hproto Hafter.
    rewrite groupStage_lookup. unfold groupMember.
    rewrite (@string_eqb_neq _ _ Hproto).
    unfold lastWithAlias. rewrite rev_app_distr. cbn [rev].
    rewrite <- app_assoc. cbn [app]. rewrite find_skips.
    + cbn [find]. unfold hasAlias. rewrite Ha. now rewrite String.eqb_refl.
    + apply Forall_rev. apply Forall_impl with (2 := Hafter).
      intros later Hl. unfold hasAlias.
      destruct (groupAlias later) as [b|]; [|reflexivity].
      apply String.eqb_neq. congruence.
  - intro ops. now rewrite groupStage_lookup.
Qed.

Lemma group_stage_last_alias_wins_witness :
  getOwn "sum"
         (Mongo.groupStage "invoices"
            [ mkAggregationOp "invoices" "amount" "sum" None;
              mkAggregationOp "invoices" "tax" "sum" None;
              mkAggregationOp "invoices" "amount" "count" None ])
  = Some (VObj [("$sum", VStr "$tax")]).
Proof.
  apply (proj1 (proj2 (group_stage_last_alias_wins "invoices"))
           [mkAggregationOp "invoices" "amount" "sum" None]
           (mkAggregationOp "invoices" "tax" "sum" None)
           [mkAggregationOp "invoices" "amount" "count" None]
           "sum");
    [reflexivity | discriminate | repeat constructor; discriminate].
Defined.

(** ** The schema of a table *)

Lemma validTableName_no_backtick (name : string) :
  Schema.validTableName name = true -> includes name "`" = false.
Proof.
  unfold Schema.validTableName, includes.
  change (chars "`") with ["`"%char]. rewrite includesb_one.
  destruct (chars name) as [|c l] eqn:E; [discriminate|].
  generalize (c :: l). clear. intros l Hall.
  induction l as [|c l IH]; [reflexivity|].
  cbn [forallb existsb] in *. apply andb_true_iff in Hall.
  destruct Hall as [Hc Hl]. rewrite (IH Hl), orb_false_r.
  destruct (Ascii.eqb "`"%char c) eqn:Ec; [|reflexivity].
  apply Ascii.eqb_eq in Ec. subst c. discriminate Hc.
Qed.

(** X25. [getTableSchema] sends a statement only for a name made of
    letters, digits, [_] and [$]: when it reports success the name holds no
    backtick, the statement sent was [DESCRIBE `name`] and there is one
    column per row of its answer; for any other name it answers
    [Invalid table name] whatever the database holds. *)
Theorem table_schema_of_checked_name (pool : SQL.Pool) (name : string) :
  (Schema.success (Schema.getTableSchema pool name) = true ->
   includes name "`" = false
   /\ exists rows,
        pool ("DESCRIBE `" ++ name ++ "`") [] = Answer rows
        /\ Schema.columns (Schema.getTableSchema pool name)
           = map Schema.column rows)
  /\ (Schema.validTableName name = false ->
      Schema.getTableSchema pool name
      = Schema.mkTableSchema false name (Some "Invalid table name") []).
Proof.
  unfold Schema.getTableSchema, Schema.describeStatement. split.
  - destruct (Schema.validTableName name) eqn:Ev; cbn [negb];
      [|discriminate].
    destruct (pool ("DESCRIBE `" ++ name ++ "`") []) as [rows|m] eqn:Ep;
      [|discriminate].
    intros _. split; [now apply validTableName_no_backtick|].
    exists rows. now split.
  - now intros ->.
Qed.

Lemma table_schema_of_checked_name_witness :
  (includes "invoices" "`" = false
   /\ exists rows,
        Sample.emptyPool "DESCRIBE `invoices`" [] = Answer rows
        /\ Schema.columns (Schema.getTableSchema Sample.emptyPool "invoices")
           = map Schema.column rows)
  /\ Schema.getTableSchema Sample.emptyPool "invoices` x"
     = Schema.mkTableSchema false "invoices` x" (Some "Invalid table name") [].
Proof.
  split.
  - apply (proj1 (@table_schema_of_checked_name Sample.emptyPool "invoices")).
    reflexivity.
  - apply (proj2 (@table_schema_of_checked_name Sample.emptyPool
                    "invoices` x")).
    reflexivity.
Defined.

(** ** The update of a saved query *)

Section UpdateFacts.
Context `{JSRuntime} `{QueryConfig.JSON}.

Lemma setFields_cases (updates : jsval) (st : list string * list jsval) :
  QueryConfig.setFields updates = Ok st ->
  exists name description filters aggregation,
    st = QueryConfig.addField "aggregation" aggregation
           (QueryConfig.stringify aggregation)
           (QueryConfig.addField "filters" filters
              (QueryConfig.stringify filters)
              (QueryConfig.addField "description" description description
                 (QueryConfig.addField "name" name name ([], [])))).
Proof.
  unfold QueryConfig.setFields. intro E.
  apply bind_Ok in E. destruct E as [name [_ E]].
  apply bind_Ok in E. destruct E as [description [_ E]].
  apply bind_Ok in E. destruct E as [filters [_ E]].
  apply bind_Ok in E. destruct E as [aggregation [_ E]].
  exists name, description, filters, aggregation. now inversion E.
Qed.

(** X26. [updateQueryConfig]: the statement it sends names only the
    members of the update that are not [undefined], has exactly one
    placeholder per value bound, and the identifier of the configuration is
    the last value, the one of [WHERE id = ?]. *)
Theorem update_statement_binds_every_value
        (id updates : jsval) (statement : string) (values : list jsval) :
  QueryConfig.updateCall id updates = Ok (Some (statement, values)) ->
  countPlaceholders statement = List.length values
  /\ (exists set, values = (set ++ [id])%list)
  /\ startsWith statement "UPDATE query_configs SET " = true.
Proof.
  unfold QueryConfig.updateCall. intro E. apply bind_Ok in E.
  destruct E as [st [Est E]].
  assert (Hst : statement = QueryConfig.updateStatement (fst st)
                /\ values = (snd st ++ [id])%list).
  { destruct (fst st) as [|fld flds]; [discriminate|].
    inversion E. now split. }
  clear E. destruct Hst as [-> ->].
  split; [|split; [now exists (snd st) | reflexivity]].
  destruct (@setFields_cases _ _ Est)
    as [name [description [filters [aggregation ->]]]].
  clear Est. unfold QueryConfig.addField in *.
  destruct (QueryConfig.isUndefined name);
    destruct (QueryConfig.isUndefined description);
    destruct (QueryConfig.isUndefined filters);
    destruct (QueryConfig.isUndefined aggregation);
    reflexivity.
Qed.

(** X27. [updateQueryConfig] reports success only when its statement ran
    and the header of the result counts a row; an update with none of the
    four members sends no statement and answers [No fields to update]. *)
Theorem update_outcome (execute : QueryConfig.Executor) (id updates : jsval) :
  (forall out,
      QueryConfig.updateQueryConfig execute id updates = Ok out ->
      QueryConfig.success out = true ->
      exists statement values header affectedRows,
        QueryConfig.updateCall id updates = Ok (Some (statement, values))
        /\ execute statement values = Answer header
        /\ QueryConfig.member header "affectedRows" = Ok affectedRows
        /\ QueryConfig.isZero affectedRows = false)
  /\ (Forall (fun k => QueryConfig.member updates k = Ok VUndefined)
             ["name"; "description"; "filters"; "aggregation"] ->
      QueryConfig.updateQueryConfig execute id updates
      = Ok (QueryConfig.failed "No fields to update")).
Proof.
  unfold QueryConfig.updateQueryConfig. split.
  - intros out.
    destruct (QueryConfig.updateCall id updates)
      as [[[statement values]|]|e|];
      try (intro E; inversion E; subst out; discriminate);
      try discriminate.
    destruct (execute statement values) as [header|m] eqn:Ex;
      [|intro E; inversion E; subst out; discriminate].
    destruct (QueryConfig.member header "affectedRows")
      as [affectedRows|e|] eqn:Em;
      try (intro E; inversion E; subst out; discriminate);
      try discriminate.
    destruct (QueryConfig.isZero affectedRows) eqn:Ez;
      [intro E; inversion E; subst out; discriminate|].
    intros _ _. now exists statement, values, header, affectedRows.
  - intro Hall.
    inversion Hall as [|? ? E1 H1]; subst.
    inversion H1 as [|? ? E2 H2]; subst.
    inversion H2 as [|? ? E3 H3]; subst.
    inversion H3 as [|? ? E4 _]; subst.
    unfold QueryConfig.updateCall, QueryConfig.setFields.
    now rewrite E1, E2, E3, E4.
Qed.
End UpdateFacts.

Lemma update_statement_binds_every_value_witness :
  countPlaceholders
    "UPDATE query_configs SET name = ?, filters = ? WHERE id = ?"
  = List.length [VStr "Monthly totals"; VStr "[]"; VStr "7"]
  /\ (exists set,
         [VStr "Monthly totals"; VStr "[]"; VStr "7"]
         = (set ++ [VStr "7"])%list)
  /\ startsWith "UPDATE query_configs SET name = ?, filters = ? WHERE id = ?"
                "UPDATE query_configs SET "
     = true.
Proof.
  exact (@update_statement_binds_every_value QueryConfig.exampleJSON
           (VStr "7")
           (VObj [("name", VStr "Monthly totals"); ("filters", VArr [])])
           _ _ eq_refl).
Defined.

Lemma update_outcome_witness :
  (exists statement values header affectedRows,
      QueryConfig.updateCall (H0 := QueryConfig.exampleJSON) (VStr "7")
        (VObj [("name", VStr "Monthly totals")])
      = Ok (Some (statement, values))
      /\ Answer (VObj [("affectedRows", VNum 1)]) = Answer header
      /\ QueryConfig.member header "affectedRows" = Ok affectedRows
      /\ QueryConfig.isZero (H := Sample.runtime) affectedRows = false)
  /\ QueryConfig.updateQueryConfig (H := Sample.runtime)
       (H0 := QueryConfig.exampleJSON)
       (fun _ _ => Answer (VObj [("affectedRows", VNum 1)]))
       (VStr "7") (VObj [("title", VStr "Monthly totals")])
     = Ok (QueryConfig.failed "No fields to update").
Proof.
  split.
  - apply (proj1 (@update_outcome Sample.runtime QueryConfig.exampleJSON
                    (fun _ _ => Answer (VObj [("affectedRows", VNum 1)]))
                    (VStr "7") (VObj [("name", VStr "Monthly totals")]))
                 (QueryConfig.mkOutcome true None
                    (Some "Configuration updated successfully")));
      reflexivity.
  - apply (proj2 (@update_outcome Sample.runtime QueryConfig.exampleJSON
                    (fun _ _ => Answer (VObj [("affectedRows", VNum 1)]))
                    (VStr "7") (VObj [("title", VStr "Monthly totals")]))).
    repeat constructor.
Defined.

(** ** The answer for an incomplete filter *)

Lemma listed_not_empty (s : string) (l : list string) :
  existsb (String.eqb s) l = true -> existsb (String.eqb "") l = false ->
  String.eqb s "" = false.
Proof.
  intros Hs Hl. apply String.eqb_neq. intros ->. congruence.
Qed.

Lemma document_validated_names (f : Filter) (b : bool) :
  Mongo.validateFilter f = Ok b ->
  String.eqb (collection f) "" = false /\ String.eqb (operator f) "" = false.
Proof.
  unfold Mongo.validateFilter.
  destruct (existsb (String.eqb (collection f)) Mongo.allowedCollections)
    eqn:Ec; cbn [negb]; [|discriminate].
  destruct (includes (field f) "$" || includes (field f) ".");
    [discriminate|].
  destruct (existsb (String.eqb (operator f)) Mongo.allowedOperators)
    eqn:Eo; cbn [negb]; [|discriminate].
  intros _. split; eapply listed_not_empty; eauto.
Qed.

Lemma tabular_validated_names (f : Filter) (b : bool) :
  SQL.validateFilter f = Ok b ->
  String.eqb (collection f) "" = false /\ String.eqb (operator f) "" = false.
Proof.
  unfold SQL.validateFilter.
  destruct (existsb (String.eqb (collection f)) SQL.allowedTables)
    eqn:Ec; cbn [negb]; [|discriminate].
  destruct (includes (field f) "`" || includes (field f) ";");
    [discriminate|].
  destruct (existsb (String.eqb (operator f)) Mongo.allowedOperators)
    eqn:Eo; cbn [negb]; [|discriminate].
  intros _. split; eapply listed_not_empty; eauto.
Qed.

Lemma document_early_answer (filters : list Filter) (r : Response) :
  Mongo.validateFilters filters = Ok (Some r) ->
  r = mkResponse 400
        (errorBody "Each filter must have collection, field, and operator")
  /\ exists before f after,
       filters = (before ++ f :: after)%list
       /\ field f = "" /\ collection f <> "" /\ operator f <> "".
Proof.
  intro E. induction filters as [|f rest IH]; [discriminate|].
  cbn [Mongo.validateFilters] in E.
  destruct (Mongo.validateFilter f) as [b| |] eqn:Ev; try discriminate.
  cbn [bind] in E. destruct (@document_validated_names _ _ Ev) as [Ec Eo].
  rewrite Ec, Eo, orb_false_r in E. cbn [orb] in E.
  destruct (String.eqb (field f) "") eqn:Ef.
  - inversion E. split; [reflexivity|]. exists [], f, rest.
    apply String.eqb_eq in Ef. apply String.eqb_neq in Ec, Eo.
    now repeat split.
  - destruct (IH E) as [Hr [before [g [after [-> Hg]]]]].
    split; [exact Hr|]. now exists (f :: before), g, after.
Qed.

Lemma tabular_early_answer (filters : list Filter) (r : Response) :
  SQL.validateFilters filters = Ok (Some r) ->
  r = mkResponse 400
        (errorBody "Each filter must have collection, field, and operator")
  /\ exists before f after,
       filters = (before ++ f :: after)%list
       /\ field f = "" /\ collection f <> "" /\ operator f <> "".
Proof.
  intro E. induction filters as [|f rest IH]; [discriminate|].
  cbn [SQL.validateFilters] in E.
  destruct (SQL.validateFilter f) as [b| |] eqn:Ev; try discriminate.
  cbn [bind] in E. destruct (@tabular_validated_names _ _ Ev) as [Ec Eo].
  rewrite Ec, Eo, orb_false_r in E. cbn [orb] in E.
  destruct (String.eqb (field f) "") eqn:Ef.
  - inversion E. split; [reflexivity|]. exists [], f, rest.
    apply String.eqb_eq in Ef. apply String.eqb_neq in Ec, Eo.
    now repeat split.
  - destruct (IH E) as [Hr [before [g [after [-> Hg]]]]].
    split; [exact Hr|]. now exists (f :: before), g, after.
Qed.

(** X28. The check [!f.collection || !f.field || !f.operator] of the
    regular path comes after [validateFilter], which refuses an empty
    collection and an empty operator: on both servers the answer
    [Each filter must have collection, field, and operator] is given only
    for a filter whose field is empty, and whose collection and operator
    are not. *)
Theorem incomplete_filter_answer (filters : list Filter) (r : Response) :
  Mongo.validateFilters filters = Ok (Some r)
  \/ SQL.validateFilters filters = Ok (Some r) ->
  r = mkResponse 400
        (errorBody "Each filter must have collection, field, and operator")
  /\ exists before f after,
       filters = (before ++ f :: after)%list
       /\ field f = "" /\ collection f <> "" /\ operator f <> "".
Proof.
  intros [E | E];
    [now apply document_early_answer | now apply tabular_early_answer].
Qed.

Lemma incomplete_filter_answer_witness :
  mkResponse 400
    (errorBody "Each filter must have collection, field, and operator")
  = mkResponse 400
      (errorBody "Each filter must have collection, field, and operator")
  /\ exists before f after,
       [ mkFilter "invoices" "amount" "gt" (VNum 100);
         mkFilter "customers" "" "eq" (VStr "Ann") ]
       = (before ++ f :: after)%list
       /\ field f = "" /\ collection f <> "" /\ operator f <> "".
Proof.
  apply (@incomplete_filter_answer
           [ mkFilter "invoices" "amount" "gt" (VNum 100);
             mkFilter "customers" "" "eq" (VStr "Ann") ]).
  left. reflexivity.
Defined.

(** ** The answers of the two [/query] handlers *)

Lemma catchQuery_answer (e : jserror) : queryAnswer (catchQuery e).
Proof.
  unfold catchQuery, queryAnswer.
  destruct (includes (message e) "Invalid"
            || includes (message e) "validation").
  - right; left. split; [reflexivity | now eexists].
  - now right; right.
Qed.

Lemma success_answer (o : props) :
  getOwn "success" o = Some (VBool true) -> queryAnswer (mkResponse 200 (VObj o)).
Proof. intro E. left. split; [reflexivity | now exists o]. Qed.

Lemma early_answer (msg : string) :
  queryAnswer (mkResponse 400 (errorBody msg)).
Proof. right; left. split; [reflexivity | now exists msg]. Qed.

Section Answers.
Context `{JSRuntime} `{JSText} `{PathResolver}.

Lemma document_regular_answer (drv : Mongo.Driver) (filters : list Filter)
      (r : Response) :
  Mongo.queryRegular drv filters = Ok r -> queryAnswer r.
Proof.
  unfold Mongo.queryRegular. intro E.
  apply bind_Ok in E. destruct E as [joins [_ E]].
  apply bind_Ok in E. destruct E as [[early|] [Ev E]].
  - inversion E; subst early.
    destruct (document_early_answer _ Ev) as [-> _]. apply early_answer.
  - apply bind_Ok in E. destruct E as [pipeline [_ E]].
    apply bind_Ok in E. destruct E as [detailedData [_ E]].
    inversion E. now apply success_answer.
Qed.

Lemma document_both_answer (drv : Mongo.Driver) (filters : list Filter)
      (aggregation : list AggregationOp) (r : Response) :
  Mongo.queryBoth drv filters aggregation = Ok r -> queryAnswer r.
Proof.
  unfold Mongo.queryBoth. intro E.
  apply bind_Ok in E. destruct E as [detailedPipeline [_ E]].
  apply bind_Ok in E. destruct E as [detailedData [_ E]].
  apply bind_Ok in E. destruct E as [aggregationPipeline [_ E]].
  apply bind_Ok in E. destruct E as [aggregationData [_ E]].
  inversion E. now apply success_answer.
Qed.

Lemma tabular_regular_answer (RELATIONS : list Rel.t) (pool : SQL.Pool)
      (filters : list Filter) (sqlFilter : props) (r : Response) :
  SQL.queryRegular RELATIONS pool filters sqlFilter = Ok r -> queryAnswer r.
Proof.
  unfold SQL.queryRegular. intro E.
  apply bind_Ok in E. destruct E as [joins [_ E]].
  apply bind_Ok in E. destruct E as [[early|] [Ev E]].
  - inversion E; subst early.
    destruct (tabular_early_answer _ Ev) as [-> _]. apply early_answer.
  - inversion E. now apply success_answer.
Qed.

Lemma tabular_both_answer (RELATIONS : list Rel.t) (pool : SQL.Pool)
      (filters : list Filter) (aggregation : list AggregationOp)
      (sqlFilter : props) (r : Response) :
  SQL.queryBoth RELATIONS pool filters aggregation sqlFilter = Ok r ->
  queryAnswer r.
Proof.
  unfold SQL.queryBoth. intro E.
  apply bind_Ok in E. destruct E as [detailedQueryPlan [_ E]].
  apply bind_Ok in E. destruct E as [aggregationQueryPlan [_ E]].
  inversion E. now apply success_answer.
Qed.

(** An answer of either [/query] handler is one of three: status 200 with
    [success: true], status 400 with a message, or status 500 with the
    generic message. *)
Lemma query_answer_returned
        (drv : Mongo.Driver) (RELATIONS : list Rel.t) (pool : SQL.Pool)
        (database : string) (filters : list Filter)
        (aggregation : list AggregationOp) (r : Response) :
  Mongo.query drv database filters aggregation = Ok r
  \/ SQL.query RELATIONS pool database filters aggregation = Ok r ->
  queryAnswer r.
Proof.
  intros [E | E].
  - unfold Mongo.query in E. destruct (String.eqb database "").
    + inversion E. apply early_answer.
    + destruct (_ <- Mongo.getDB drv database ;;
                match aggregation with
                | [] => Mongo.queryRegular drv filters
                | _ :: _ => Mongo.queryBoth drv filters aggregation
                end) as [r'|e|] eqn:Eq; [| |discriminate].
      * inversion E; subst r'. apply bind_Ok in Eq.
        destruct Eq as [_ [_ Eq]]. destruct aggregation.
        -- now apply document_regular_answer in Eq.
        -- now apply document_both_answer in Eq.
      * inversion E. apply catchQuery_answer.
  - unfold SQL.query in E. destruct (String.eqb database "").
    + inversion E. apply early_answer.
    + destruct (st <- SQL.convertFilters filters ;;
                match aggregation with
                | [] => SQL.queryRegular RELATIONS pool filters (fst st)
                | _ :: _ =>
                    SQL.queryBoth RELATIONS pool filters aggregation (fst st)
                end) as [r'|e|] eqn:Eq; [| |discriminate].
      * inversion E; subst r'. apply bind_Ok in Eq.
        destruct Eq as [st [_ Eq]]. destruct aggregation.
        -- now apply tabular_regular_answer in Eq.
        -- now apply tabular_both_answer in Eq.
      * inversion E. apply catchQuery_answer.
Qed.
End Answers.

(** ** Which values are coerced, and which are bound as they stand *)

Section Bound.
Context `{JSRuntime}.

Lemma push_snd (c : string) (ps : list jsval) (st : SQL.acc) :
  snd (SQL.push c ps st) = (snd st ++ ps)%list.
Proof. reflexivity. Qed.

Lemma fold_snd_additive {E} (f : SQL.acc -> E -> SQL.acc) :
  (forall st e, snd (f st e) = (snd st ++ snd (f ([], []) e))%list) ->
  forall es st,
    snd (fold_left f es st)
    = (snd st ++ flat_map (fun e => snd (f ([], []) e)) es)%list.
Proof.
  intros Hf es. induction es as [|e es IH]; intro st.
  - cbn. now rewrite app_nil_r.
  - cbn [fold_left flat_map]. rewrite IH, Hf. now rewrite app_assoc.
Qed.

Lemma operatorCondition_snd (column : string) (st : SQL.acc)
      (e : string * jsval) :
  snd (SQL.operatorCondition column st e)
  = (snd st ++ snd (SQL.operatorCondition column ([], []) e))%list.
Proof.
  destruct e as [op v]. unfold SQL.operatorCondition.
  destruct (SQL.SQL_OPERATORS op); [|now rewrite app_nil_r].
  destruct (String.eqb op "$in" || String.eqb op "$nin").
  - destruct v; try (now rewrite app_nil_r). reflexivity.
  - destruct (String.eqb op "$regex"); [|reflexivity].
    destruct v; try (now rewrite app_nil_r). reflexivity.
Qed.

Lemma buildCondition_snd (key : string) (v : jsval) (st : SQL.acc) :
  snd (SQL.buildCondition key v st)
  = (snd st ++ snd (SQL.buildCondition key v ([], [])))%list.
Proof.
  unfold SQL.buildCondition.
  destruct v; try (now rewrite app_nil_r);
    destruct (typeofObject _ && negb (isArray _)); try reflexivity;
    rewrite (fold_snd_additive _ (operatorCondition_snd key));
    now rewrite (fold_snd_additive _ (operatorCondition_snd key) _ ([], [])).
Qed.

Lemma entryStep_snd (st : SQL.acc) (e : string * jsval) :
  snd (entryStep st e) = (snd st ++ snd (entryStep ([], []) e))%list.
Proof.
  destruct e as [key v]. unfold entryStep.
  destruct (startsWith key "$"); [|apply buildCondition_snd].
  destruct (String.eqb key "$and" && isArray v).
  - destruct v; try (now rewrite app_nil_r). reflexivity.
  - destruct (String.eqb key "$or" && isArray v); [|now rewrite app_nil_r].
    destruct v; try (now rewrite app_nil_r). reflexivity.
Qed.

Lemma params_of_entries (o : props) :
  SQL.params (SQL.buildSQLFilter (VObj o))
  = snd (fold_left entryStep o ([], [])).
Proof.
  rewrite buildSQLFilter_loop. cbn [ownEntries].
  destruct o as [|e o]; reflexivity.
Qed.

Lemma params_of_member (e : string * jsval) :
  SQL.params (SQL.buildSQLFilter (VObj [e])) = snd (entryStep ([], []) e).
Proof. now rewrite params_of_entries. Qed.

Lemma params_members (o : props) :
  SQL.params (SQL.buildSQLFilter (VObj o))
  = flat_map (fun e => SQL.params (SQL.buildSQLFilter (VObj [e]))) o.
Proof.
  rewrite params_of_entries, (fold_snd_additive _ entryStep_snd).
  cbn [snd app]. apply flat_map_ext. intro e. now rewrite params_of_member.
Qed.

Lemma params_connective (key : string) (conds : list jsval) :
  key = "$and" \/ key = "$or" ->
  SQL.params (SQL.buildSQLFilter (VObj [(key, VArr conds)]))
  = flat_map (fun c => SQL.params (SQL.buildSQLFilter c)) conds.
Proof.
  intros [-> | ->]; rewrite params_of_member;
    cbn [entryStep startsWith chars list_ascii_of_string prefixb Ascii.eqb
         Bool.eqb String.eqb isArray andb];
    unfold SQL.compose; cbn [snd app];
    rewrite translateChildren_kept, kept_params; cbn [snd app];
    now rewrite flat_map_concat_map, map_map, <- flat_map_concat_map.
Qed.

Lemma params_skipped (key : string) (v : jsval) :
  startsWith key "$" = true ->
  isArray v = false \/ (key <> "$and" /\ key <> "$or") ->
  SQL.params (SQL.buildSQLFilter (VObj [(key, v)])) = [].
Proof.
  intros Hs Hk. rewrite params_of_member. unfold entryStep. rewrite Hs.
  destruct Hk as [Ha | [Hand Hor]].
  - now rewrite Ha, !andb_false_r.
  - now rewrite (@string_eqb_neq _ _ Hand), (@string_eqb_neq _ _ Hor).
Qed.

Lemma params_value (key : string) (v : jsval) :
  startsWith key "$" = false ->
  SQL.params (SQL.buildSQLFilter (VObj [(key, v)]))
  = match v with
    | VNull | VUndefined => []
    | _ =>
        if typeofObject v && negb (isArray v)
        then flat_map (fun c => SQL.params
                                  (SQL.buildSQLFilter (VObj [(key, VObj [c])])))
                      (ownEntries v)
        else [v]
    end.
Proof.
  intro Hs. rewrite params_of_member. unfold entryStep. rewrite Hs.
  assert (Hfold : forall es,
             snd (fold_left (SQL.operatorCondition key) es ([], []))
             = flat_map (fun c => SQL.params
                                    (SQL.buildSQLFilter
                                       (VObj [(key, VObj [c])]))) es).
  { intro es. rewrite (fold_snd_additive _ (operatorCondition_snd key)).
    cbn [snd app]. apply flat_map_ext. intro c.
    rewrite params_of_member. unfold entryStep. rewrite Hs.
    reflexivity. }
  unfold SQL.buildCondition.
  destruct v; try reflexivity;
    destruct (typeofObject _ && negb (isArray _)); try reflexivity;
    apply Hfold.
Qed.

Lemma params_operator (key op : string) (v : jsval) :
  startsWith key "$" = false ->
  SQL.params (SQL.buildSQLFilter (VObj [(key, VObj [(op, v)])]))
  = match SQL.SQL_OPERATORS op with
    | None => []
    | Some _ =>
        if String.eqb op "$in" || String.eqb op "$nin"
        then match v with VArr items => items | _ => [] end
        else if String.eqb op "$regex"
        then match v with VStr s => [VStr (likePattern s)] | _ => [] end
        else [v]
    end.
Proof.
  intro Hs. rewrite params_of_member. unfold entryStep. rewrite Hs.
  cbn [SQL.buildCondition typeofObject isArray negb andb ownEntries fold_left].
  unfold SQL.operatorCondition.
  destruct (SQL.SQL_OPERATORS op); [|reflexivity].
  destruct (String.eqb op "$in" || String.eqb op "$nin");
    [now destruct v|].
  destruct (String.eqb op "$regex"); [now destruct v | reflexivity].
Qed.
End Bound.

(** C4 (amended). Document backend: the value of a comparison ([eq],
    [ne], [gt], [gte], [lt], [lte]), each item of an array given to [in]
    and the two bounds of [between] are coerced as the specification
    orders it: a 24-digit hexadecimal string becomes an ObjectId; otherwise
    a string that begins like an ISO date and that the runtime parses
    becomes a date; otherwise a numeric non-blank string becomes a number;
    otherwise the value is unchanged. No other value is coerced: a value
    given to [in] that is no array is wrapped as it stands, [contains]
    takes the value as it stands and [startsWith] and [endsWith] take its
    text. Tabular backend: no coercion. The parameters of a filter object
    are those of its members, one member at a time; the members of [$and]
    and [$or] give the parameters of their children in order and the other
    members whose key starts with [$] give none; a member [field: value]
    binds the value as it stands, nothing for [null] and [undefined], and
    for a condition object the parameters of its operators one at a time;
    an operator binds its value as it stands, the items of an array as
    they stand for [$in] and [$nin], and for [$regex] the pattern with
    [.*] and [*] rewritten to [%], the one value that is not bound as it
    stands. *)
Theorem coercion_document_only :
  (forall (rt : JSRuntime) (v : jsval), Mongo.coerce v = coerceInSpecOrder v)
  /\ (forall (rt : JSRuntime) (tx : JSText) (fld op : string) (v : jsval),
         In op ["eq"; "ne"; "gt"; "gte"; "lt"; "lte"] ->
         conditionOf (Mongo.mkMatchFilter fld op v)
         = Ok [("$" ++ op, coerceInSpecOrder v)])
  /\ (forall (rt : JSRuntime) (tx : JSText) (fld : string) (v : jsval),
         conditionOf (Mongo.mkMatchFilter fld "in" v)
         = Ok [("$in", match v with
                       | VArr items => VArr (map coerceInSpecOrder items)
                       | _ => VArr [v]
                       end)])
  /\ (forall (rt : JSRuntime) (tx : JSText) (fld : string) (o : props),
         conditionOf (Mongo.mkMatchFilter fld "between" (VObj o))
         = Ok [ ("$gte", coerceInSpecOrder (getProp o "from"));
                ("$lte", coerceInSpecOrder (getProp o "to")) ])
  /\ (forall (rt : JSRuntime) (tx : JSText) (fld : string) (v : jsval),
         conditionOf (Mongo.mkMatchFilter fld "contains" v)
         = Ok [("$regex", v); ("$options", VStr "i")]
         /\ conditionOf (Mongo.mkMatchFilter fld "startsWith" v)
            = (t <- templateText v ;;
               Ok [("$regex", VStr ("^" ++ t)); ("$options", VStr "i")])
         /\ conditionOf (Mongo.mkMatchFilter fld "endsWith" v)
            = (t <- templateText v ;;
               Ok [("$regex", VStr (t ++ "$")); ("$options", VStr "i")]))
  /\ (forall (rt : JSRuntime) (o : props),
         SQL.params (SQL.buildSQLFilter (VObj o))
         = flat_map (fun e => SQL.params (SQL.buildSQLFilter (VObj [e]))) o)
  /\ (forall (rt : JSRuntime) (key : string) (conds : list jsval),
         key = "$and" \/ key = "$or" ->
         SQL.params (SQL.buildSQLFilter (VObj [(key, VArr conds)]))
         = flat_map (fun c => SQL.params (SQL.buildSQLFilter c)) conds)
  /\ (forall (rt : JSRuntime) (key : string) (v : jsval),
         startsWith key "$" = true ->
         isArray v = false \/ (key <> "$and" /\ key <> "$or") ->
         SQL.params (SQL.buildSQLFilter (VObj [(key, v)])) = [])
  /\ (forall (rt : JSRuntime) (key : string) (v : jsval),
         startsWith key "$" = false ->
         SQL.params (SQL.buildSQLFilter (VObj [(key, v)]))
         = match v with
           | VNull | VUndefined => []
           | _ =>
               if typeofObject v && negb (isArray v)
               then flat_map
                      (fun c => SQL.params
                                  (SQL.buildSQLFilter
                                     (VObj [(key, VObj [c])])))
                      (ownEntries v)
               else [v]
           end)
  /\ (forall (rt : JSRuntime) (key op : string) (v : jsval),
         startsWith key "$" = false ->
         SQL.params (SQL.buildSQLFilter (VObj [(key, VObj [(op, v)])]))
         = match SQL.SQL_OPERATORS op with
           | None => []
           | Some _ =>
               if String.eqb op "$in" || String.eqb op "$nin"
               then match v with VArr items => items | _ => [] end
               else if String.eqb op "$regex"
               then match v with
                    | VStr s => [VStr (likePattern s)]
                    | _ => []
                    end
               else [v]
           end).
Proof.
  split; [intros rt v; apply coerce_in_spec_order|].
  split.
  { intros rt tx fld op v Hin. rewrite <- coerce_in_spec_order.
    now apply conditionOf_comparison. }
  split.
  { intros rt tx fld v.
    destruct v as [| | b | z | n | s | h | d | items | o | k];
      try reflexivity.
    change (conditionOf (Mongo.mkMatchFilter fld "in" (VArr items)))
      with (@Ok props [("$in", VArr (map Mongo.coerceItem items))]).
    do 4 f_equal. apply map_ext. intro a.
    now rewrite coerceItem_coerce, coerce_in_spec_order. }
  split.
  { intros rt tx fld o. rewrite <- !coerce_in_spec_order. reflexivity. }
  split; [intros rt tx fld v; repeat split; reflexivity|].
  split; [intros rt o; apply params_members|].
  split; [intros rt key conds; apply params_connective|].
  split; [intros rt key v; apply params_skipped|].
  split; [intros rt key v; apply params_value|].
  intros rt key op v. apply params_operator.
Qed.

Lemma coercion_document_only_witness :
  conditionOf (H := Sample.runtime) (H0 := Sample.jstext)
    (Mongo.mkMatchFilter "amount" "gt" (VStr "2024-01-15"))
  = Ok [("$gt", VDate "2024-01-15")]
  /\ SQL.params (SQL.buildSQLFilter (H := Sample.runtime)
                   (VObj [("$or", VArr [ VObj [("a", VStr "1")];
                                         VObj [("b", VStr "2")] ])]))
     = [VStr "1"; VStr "2"]
  /\ SQL.params (SQL.buildSQLFilter (H := Sample.runtime)
                   (VObj [("$not", VObj [("a", VStr "1")])]))
     = []
  /\ SQL.params (SQL.buildSQLFilter (H := Sample.runtime)
                   (VObj [("amount", VStr "0012")]))
     = [VStr "0012"]
  /\ SQL.params (SQL.buildSQLFilter (H := Sample.runtime)
                   (VObj [("name", VObj [("$regex", VStr "a.*")])]))
     = [VStr "a%"].
Proof.
  destruct coercion_document_only
    as [_ [Hcmp [_ [_ [_ [_ [Hconn [Hskip [Hval Hop]]]]]]]]].
  split.
  { apply (Hcmp Sample.runtime Sample.jstext "amount" "gt"
                (VStr "2024-01-15")).
    right. right. left. reflexivity. }
  split.
  { apply (Hconn Sample.runtime "$or"
                 [VObj [("a", VStr "1")]; VObj [("b", VStr "2")]]).
    now right. }
  split.
  { apply (Hskip Sample.runtime "$not" (VObj [("a", VStr "1")]));
      [reflexivity | now left]. }
  split.
  { apply (Hval Sample.runtime "amount" (VStr "0012")). reflexivity. }
  apply (Hop Sample.runtime "name" "$regex" (VStr "a.*")). reflexivity.
Defined.

(** ** The runs the model covers *)

Lemma bind_covered {A B} (r : result A) (k : A -> result B) :
  r <> Beyond -> (forall a, r = Ok a -> k a <> Beyond) -> bind r k <> Beyond.
Proof.
  destruct r as [a|e|]; cbn [bind]; intros Hr Hk;
    [now apply Hk | discriminate | contradiction].
Qed.

Lemma forEachM_covered {A S} (P : S -> Prop) (body : S -> A -> result S)
      (xs : list A) (s : S) :
  P s ->
  (forall s x, In x xs -> P s ->
               body s x <> Beyond /\ forall s', body s x = Ok s' -> P s') ->
  forEachM body xs s <> Beyond.
Proof.
  revert s. induction xs as [|x xs IH]; intros s Hs Hbody; [discriminate|].
  cbn [forEachM]. destruct (Hbody s x (or_introl eq_refl) Hs) as [Hc Hp].
  apply bind_covered; [exact Hc|].
  intros s' E. apply IH; [now apply Hp|].
  intros s0 y Hy. apply Hbody. now right.
Qed.

Lemma await_covered {A} (r : reply A) : await r <> Beyond.
Proof. now destruct r. Qed.

Lemma qualified_not_proto (coll fld : string) :
  coll ++ "." ++ fld <> "__proto__".
Proof.
  intro E. assert (Hin : In "."%char (chars (coll ++ "." ++ fld))).
  { rewrite chars_append. apply in_or_app. right. now left. }
  rewrite E in Hin. cbn in Hin.
  repeat (destruct Hin as [Hin | Hin]; [discriminate Hin|]). exact Hin.
Qed.

Lemma resolveFieldPath_not_proto (root coll fld : string) :
  fld <> "__proto__" -> resolveFieldPath root coll fld <> "__proto__".
Proof.
  intro Hf. unfold resolveFieldPath.
  destruct (String.eqb coll root); [exact Hf | apply qualified_not_proto].
Qed.

Section Covered.
Context `{JSRuntime} `{JSText} `{PathResolver}.

Lemma templateText_covered (v : jsval) : templateText v <> Beyond.
Proof.
  induction v as [| | b | z | s | s | h | s | items IH | o IH | k]
    using jsval_ind; try discriminate.
  - cbn [templateText].
    induction IH as [|x xs Hx _ IHxs]; [discriminate|].
    apply bind_covered.
    + destruct x; try discriminate; exact Hx.
    + intros t _. destruct xs; [discriminate|].
      apply bind_covered; [exact IHxs | discriminate].
  - cbn [templateText]. now destruct (hasOwn "toString" o).
Qed.

Lemma readMember_covered (v : jsval) (k : string) :
  Mongo.readMember v k <> Beyond.
Proof. now destruct v. Qed.

Lemma standard_operator_covered (k : string) (op : jsval -> result props)
      (v : jsval) :
  Mongo.assoc k Mongo.STANDARD_OPERATORS = Some op -> op v <> Beyond.
Proof.
  intro E. apply assoc_In in E. cbn [Mongo.STANDARD_OPERATORS In] in E.
  repeat (destruct E as [E | E];
          [inversion E; subst; clear E;
           try discriminate;
           try (apply bind_covered;
                [apply templateText_covered | discriminate]);
           try (apply bind_covered; [apply readMember_covered|];
                intros lo _; apply bind_covered;
                [apply readMember_covered | discriminate])|]).
  destruct E.
Qed.

Lemma getProp_of_conditions (m : props) (k : string) :
  Forall (fun kv => exists c, snd kv = VObj c) m ->
  (exists c, getProp m k = VObj c)
  \/ (getOwn k m = None
      /\ getProp m k = if inherited k then VBuiltin k else VUndefined).
Proof.
  intro Hall. unfold getProp. destruct (getOwn k m) as [v|] eqn:Eg.
  - left. assert (Hin : In (k, v) m).
    { clear Hall. induction m as [|[k0 v0] m IH]; [discriminate|].
      cbn [getOwn] in Eg. destruct (String.eqb k0 k) eqn:E.
      - apply String.eqb_eq in E. inversion Eg. subst. now left.
      - right. now apply IH. }
    rewrite Forall_forall in Hall. exact (Hall _ Hin).
  - right. now split.
Qed.

Lemma conditions_replaceOwn (k : string) (c : props) (m : props) :
  Forall (fun kv => exists c, snd kv = VObj c) m ->
  Forall (fun kv => exists c, snd kv = VObj c) (replaceOwn k (VObj c) m).
Proof.
  intro Hall. apply Forall_forall. intros e He. apply In_replaceOwn in He.
  destruct He as [-> | He]; [now eexists|].
  rewrite Forall_forall in Hall. now apply Hall.
Qed.

Lemma conditions_setProp (k : string) (c : props) (m : props) :
  Forall (fun kv => exists c, snd kv = VObj c) m ->
  Forall (fun kv => exists c, snd kv = VObj c) (setProp k (VObj c) m).
Proof.
  intro Hall. apply Forall_forall. intros e He. apply In_setProp in He.
  destruct He as [-> | He]; [now eexists|].
  rewrite Forall_forall in Hall. now apply Hall.
Qed.

(** [buildMatch] on filters whose operators are not names of members of
    [Object.prototype] and whose fields are not [__proto__]: the run stays
    in the model. *)
Lemma buildMatchFrom_covered (filters : list Mongo.MatchFilter) :
  Forall (fun f => inherited (Mongo.moperator f) = false
                   /\ Mongo.mfield f <> "__proto__") filters ->
  forall m,
    Forall (fun kv => exists c, snd kv = VObj c) m ->
    Mongo.buildMatchFrom m filters <> Beyond.
Proof.
  induction 1 as [|f rest [Hop Hfld] _ IH]; intros m Hm; [discriminate|].
  cbn [Mongo.buildMatchFrom]. unfold Mongo.OPERATORS. rewrite Hop.
  destruct (Mongo.assoc (Mongo.moperator f) Mongo.AGGREGATION_OPERATORS);
    [discriminate|].
  destruct (Mongo.assoc (Mongo.moperator f) Mongo.STANDARD_OPERATORS)
    as [op|] eqn:Eop; [|discriminate].
  apply bind_covered; [exact (@standard_operator_covered _ _ (Mongo.mvalue f) Eop)|].
  intros condition _.
  destruct (@getProp_of_conditions _ (Mongo.mfield f) Hm) as [[c Ec] | [Eo Ep]].
  - rewrite Ec. apply IH. now apply conditions_replaceOwn.
  - rewrite Ep. destruct (inherited (Mongo.mfield f)).
    + rewrite (@string_eqb_neq _ _ Hfld). now apply IH.
    + cbn [truthy]. apply IH. now apply conditions_setProp.
Qed.

Lemma buildMatch_covered (filters : list Mongo.MatchFilter) :
  Forall (fun f => inherited (Mongo.moperator f) = false
                   /\ Mongo.mfield f <> "__proto__") filters ->
  Mongo.buildMatch filters <> Beyond.
Proof.
  intro Hall. apply buildMatchFrom_covered; [exact Hall | constructor].
Qed.

Lemma document_pathEdges_covered (path : list string) :
  Mongo.pathEdges path <> Beyond.
Proof.
  induction path as [|a [|b rest] IH]; try discriminate.
  cbn [Mongo.pathEdges] in *.
  destruct (findRelation Mongo.RELATIONS a b); [|discriminate].
  apply bind_covered; [exact IH | discriminate].
Qed.

Lemma document_buildJoinPlan_covered (root : string) (filters : list Filter) :
  Mongo.buildJoinPlan root filters <> Beyond.
Proof.
  unfold Mongo.buildJoinPlan, Mongo.collectJoins.
  apply bind_covered; [|discriminate].
  apply (forEachM_covered (fun _ => True)); [exact I|].
  intros joins f _ _. split; [|trivial].
  destruct (String.eqb (collection f) root); [discriminate|].
  destruct (findPath root (collection f)); [|discriminate].
  apply bind_covered; [apply document_pathEdges_covered | discriminate].
Qed.

Lemma tabular_pathEdges_covered (RELATIONS : list Rel.t) (path : list string) :
  SQL.pathEdges RELATIONS path <> Beyond.
Proof.
  induction path as [|a [|b rest] IH]; try discriminate.
  cbn [SQL.pathEdges] in *.
  destruct (findRelation RELATIONS a b); [|discriminate].
  apply bind_covered; [exact IH | discriminate].
Qed.

Lemma tabular_buildJoinPlan_covered (RELATIONS : list Rel.t) (root : string)
      (targets : list string) :
  SQL.buildJoinPlan RELATIONS root targets <> Beyond.
Proof.
  unfold SQL.buildJoinPlan, SQL.collectJoins.
  apply bind_covered; [|discriminate].
  apply (forEachM_covered (fun _ => True)); [exact I|].
  intros joins c _ _. split; [|trivial].
  destruct (String.eqb c root); [discriminate|].
  destruct (findPath root c); [|discriminate].
  apply bind_covered; [apply tabular_pathEdges_covered | discriminate].
Qed.

Lemma document_validateFilter_covered (f : Filter) :
  Mongo.validateFilter f <> Beyond.
Proof.
  unfold Mongo.validateFilter.
  repeat match goal with
         | |- context [if ?b then _ else _] => destruct b
         end; discriminate.
Qed.

Lemma tabular_validateFilter_covered (f : Filter) :
  SQL.validateFilter f <> Beyond.
Proof.
  unfold SQL.validateFilter.
  repeat match goal with
         | |- context [if ?b then _ else _] => destruct b
         end; discriminate.
Qed.

Lemma document_validateFilters_covered (filters : list Filter) :
  Mongo.validateFilters filters <> Beyond.
Proof.
  induction filters as [|f rest IH]; [discriminate|].
  cbn [Mongo.validateFilters].
  apply bind_covered; [apply document_validateFilter_covered|].
  intros _ _.
  now destruct (String.eqb (collection f) "" || String.eqb (field f) ""
                || String.eqb (operator f) "").
Qed.

Lemma tabular_validateFilters_covered (filters : list Filter) :
  SQL.validateFilters filters <> Beyond.
Proof.
  induction filters as [|f rest IH]; [discriminate|].
  cbn [SQL.validateFilters].
  apply bind_covered; [apply tabular_validateFilter_covered|].
  intros _ _.
  now destruct (String.eqb (collection f) "" || String.eqb (field f) ""
                || String.eqb (operator f) "").
Qed.

Lemma toMatchFilters_plain (root : string) (filters : list Filter) :
  Forall (fun f => field f <> "__proto__" /\ inherited (operator f) = false)
         filters ->
  Forall (fun f => inherited (Mongo.moperator f) = false
                   /\ Mongo.mfield f <> "__proto__")
         (Mongo.toMatchFilters root filters).
Proof.
  intro Hall. unfold Mongo.toMatchFilters. apply Forall_map.
  apply Forall_impl with (2 := Hall). intros f [Hf Hop].
  cbn [Mongo.moperator Mongo.mfield]. split; [exact Hop|].
  now apply resolveFieldPath_not_proto.
Qed.

Lemma Forall_filter {A} (P : A -> Prop) (p : A -> bool) (l : list A) :
  Forall P l -> Forall P (filter p l).
Proof.
  intro Hall. apply Forall_forall. intros x Hx. apply filter_In in Hx.
  rewrite Forall_forall in Hall. now apply Hall.
Qed.

Lemma document_detailed_covered (filters : list Filter) :
  Forall (fun f => field f <> "__proto__" /\ inherited (operator f) = false)
         filters ->
  Mongo.buildDetailedRecordsPipeline filters <> Beyond.
Proof.
  intro Hall. unfold Mongo.buildDetailedRecordsPipeline.
  apply bind_covered; [apply document_buildJoinPlan_covered|].
  intros joins _.
  destruct (Mongo.nonAggregationMatchFilters (Mongo.resolveRoot filters)
                                             filters) as [|mf mfs] eqn:E;
    [discriminate|].
  apply bind_covered; [|discriminate].
  apply buildMatch_covered. rewrite <- E.
  apply Forall_filter. now apply toMatchFilters_plain.
Qed.

Lemma document_aggregation_covered (filters : list Filter)
      (ops : list AggregationOp) :
  Forall (fun f => field f <> "__proto__" /\ inherited (operator f) = false)
         filters ->
  Mongo.buildAggregationPipeline filters ops <> Beyond.
Proof.
  intro Hall. rewrite aggregation_pipeline_extends_detailed.
  apply bind_covered; [now apply document_detailed_covered | discriminate].
Qed.

Lemma document_query_covered (drv : Mongo.Driver) (database : string)
      (filters : list Filter) (aggregation : list AggregationOp) :
  Forall (fun f => field f <> "__proto__" /\ inherited (operator f) = false)
         filters ->
  Mongo.query drv database filters aggregation <> Beyond.
Proof.
  intro Hall. unfold Mongo.query.
  destruct (String.eqb database ""); [discriminate|].
  assert (Hin : (_ <- Mongo.getDB drv database ;;
                 match aggregation with
                 | [] => Mongo.queryRegular drv filters
                 | _ :: _ => Mongo.queryBoth drv filters aggregation
                 end) <> Beyond).
  { apply bind_covered.
    - unfold Mongo.getDB. now destruct (Mongo.connect drv database).
    - intros _ _. destruct aggregation.
      + unfold Mongo.queryRegular.
        apply bind_covered; [apply document_buildJoinPlan_covered|].
        intros joins _.
        apply bind_covered; [apply document_validateFilters_covered|].
        intros [early|] _; [discriminate|].
        apply bind_covered.
        * destruct (Mongo.toMatchFilters (Mongo.resolveRoot filters) filters)
            as [|mf mfs] eqn:E; [discriminate|].
          apply bind_covered; [|discriminate].
          apply buildMatch_covered. rewrite <- E.
          now apply toMatchFilters_plain.
        * intros pipeline _.
          apply bind_covered; [apply await_covered | discriminate].
      + unfold Mongo.queryBoth.
        apply bind_covered; [now apply document_detailed_covered|].
        intros detailedPipeline _.
        apply bind_covered; [apply await_covered|].
        intros detailedData _.
        apply bind_covered; [now apply document_aggregation_covered|].
        intros aggregationPipeline _.
        apply bind_covered; [apply await_covered | discriminate]. }
  destruct (_ <- Mongo.getDB drv database ;; _); [discriminate.. | ].
  contradiction.
Qed.

Lemma convertFilter_covered (root : string) (st : SQL.converted) (f : Filter) :
  field f <> "__proto__" ->
  Forall (fun kv => exists c, snd kv = VObj c) (fst st) ->
  SQL.convertFilter root st f <> Beyond
  /\ forall st', SQL.convertFilter root st f = Ok st' ->
                 Forall (fun kv => exists c, snd kv = VObj c) (fst st').
Proof.
  intros Hf Hst. unfold SQL.convertFilter. cbv zeta.
  destruct (SQL.validateFilter f) as [b|e|] eqn:Ev;
    [|split; [discriminate | intros st' E; discriminate E]
     |now apply tabular_validateFilter_covered in Ev].
  cbn [bind]. destruct st as [sqlFilter aggregationOps]. cbn [fst] in Hst.
  destruct (isAggregationTag (operator f)).
  { split; [discriminate|]. intros st' E. inversion E. exact Hst. }
  pose proof (@resolveFieldPath_not_proto root (collection f) (field f) Hf)
    as Hp.
  set (fieldPath := resolveFieldPath root (collection f) (field f)) in *.
  match goal with
  | |- context [replaceOwn fieldPath _ ?sf] => set (sqlFilter' := sf) in *
  end.
  assert (Hst' : Forall (fun kv => exists c, snd kv = VObj c) sqlFilter').
  { subst sqlFilter'. destruct (truthy (getProp sqlFilter fieldPath));
      [exact Hst | now apply conditions_setProp]. }
  clearbody sqlFilter'.
  destruct (@getProp_of_conditions sqlFilter' fieldPath Hst')
    as [[c Ec] | [Eo Ep]].
  - rewrite Ec. split; [discriminate|]. intros st' E. inversion E.
    cbn [fst]. now apply conditions_replaceOwn.
  - rewrite Ep. destruct (inherited fieldPath).
    + rewrite (@string_eqb_neq _ _ Hp). split; [discriminate|].
      intros st' E. inversion E. exact Hst'.
    + split; [discriminate|]. intros st' E. inversion E. exact Hst'.
Qed.

Lemma convertFilters_covered (filters : list Filter) :
  Forall (fun f => field f <> "__proto__") filters ->
  SQL.convertFilters filters <> Beyond.
Proof.
  intro Hall. unfold SQL.convertFilters.
  apply (forEachM_covered
           (fun st : SQL.converted =>
              Forall (fun kv => exists c, snd kv = VObj c) (fst st)));
    [constructor|].
  intros st f Hin Hst. rewrite Forall_forall in Hall.
  now apply convertFilter_covered; [apply Hall|].
Qed.

Lemma tabular_query_covered (RELATIONS : list Rel.t) (pool : SQL.Pool)
      (database : string) (filters : list Filter)
      (aggregation : list AggregationOp) :
  Forall (fun f => field f <> "__proto__") filters ->
  SQL.query RELATIONS pool database filters aggregation <> Beyond.
Proof.
  intro Hall. unfold SQL.query.
  destruct (String.eqb database ""); [discriminate|].
  assert (Hin : (st <- SQL.convertFilters filters ;;
                 match aggregation with
                 | [] => SQL.queryRegular RELATIONS pool filters (fst st)
                 | _ :: _ =>
                     SQL.queryBoth RELATIONS pool filters aggregation (fst st)
                 end) <> Beyond).
  { apply bind_covered; [now apply convertFilters_covered|].
    intros st _. destruct aggregation.
    - unfold SQL.queryRegular.
      apply bind_covered; [apply tabular_buildJoinPlan_covered|].
      intros joins _.
      apply bind_covered; [apply tabular_validateFilters_covered|].
      intros [early|] _; discriminate.
    - unfold SQL.queryBoth, SQL.buildDetailedQueryPlan,
        SQL.buildAggregationQueryPlan.
      apply bind_covered.
      + apply bind_covered; [apply tabular_buildJoinPlan_covered|].
        discriminate.
      + intros detailedQueryPlan _. apply bind_covered; [|discriminate].
        apply bind_covered; [apply tabular_buildJoinPlan_covered|].
        discriminate. }
  destruct (st <- SQL.convertFilters filters ;; _); [discriminate.. | ].
  contradiction.
Qed.
End Covered.

(** ** What [buildMatch] returns, on the runs the model covers *)

Section MatchResult.
Context `{JSRuntime} `{JSText}.

(** X12. For filters whose operators are not names of members of
    [Object.prototype] and whose fields are not [__proto__], [buildMatch]
    throws or returns a match object; when it returns one, every filter had
    one of the eleven operators that build a condition (an aggregation
    operator or an unknown one makes it throw), every key of the object is
    the field of a filter, and every value is a condition object. *)
Theorem buildMatch_result_shape (filters : list Mongo.MatchFilter) :
  Forall (fun f => inherited (Mongo.moperator f) = false
                   /\ Mongo.mfield f <> "__proto__") filters ->
  (exists e, Mongo.buildMatch filters = Throw e)
  \/ (exists m,
         Mongo.buildMatch filters = Ok m
         /\ Forall (fun f => In (Mongo.moperator f)
                                [ "eq"; "ne"; "gt"; "gte"; "lt"; "lte";
                                  "startsWith"; "endsWith"; "contains";
                                  "in"; "between" ])
                   filters
         /\ forall k v, In (k, v) m ->
                        In k (map Mongo.mfield filters)
                        /\ exists c, v = VObj c).
Proof.
  intro Hall.
  assert (Hc : Mongo.buildMatch filters <> Beyond)
    by now apply buildMatch_covered.
  destruct (Mongo.buildMatch filters) as [m|e|] eqn:E;
    [right | left; now exists e | contradiction].
  exists m. split; [reflexivity|].
  destruct (buildMatchFrom_shape _ _ E) as [Hops Hin].
  split; [exact Hops|]. intros k v Hkv.
  destruct (Hin k v Hkv) as [[] | Hk]. exact Hk.
Qed.
End MatchResult.

Lemma buildMatch_result_shape_witness :
  (exists e,
      Mongo.buildMatch (H := Sample.runtime) (H0 := Sample.jstext)
        [ Mongo.mkMatchFilter "amount" "gt" (VNum 100);
          Mongo.mkMatchFilter "status" "in" (VArr [VStr "paid"; VStr "open"]) ]
      = Throw e)
  \/ (exists m,
         Mongo.buildMatch (H := Sample.runtime) (H0 := Sample.jstext)
           [ Mongo.mkMatchFilter "amount" "gt" (VNum 100);
             Mongo.mkMatchFilter "status" "in"
               (VArr [VStr "paid"; VStr "open"]) ]
         = Ok m
         /\ Forall (fun f => In (Mongo.moperator f)
                                [ "eq"; "ne"; "gt"; "gte"; "lt"; "lte";
                                  "startsWith"; "endsWith"; "contains";
                                  "in"; "between" ])
                   [ Mongo.mkMatchFilter "amount" "gt" (VNum 100);
                     Mongo.mkMatchFilter "status" "in"
                       (VArr [VStr "paid"; VStr "open"]) ]
         /\ forall k v, In (k, v) m ->
                        In k ["amount"; "status"] /\ exists c, v = VObj c).
Proof.
  apply (@buildMatch_result_shape Sample.runtime Sample.jstext
           [ Mongo.mkMatchFilter "amount" "gt" (VNum 100);
             Mongo.mkMatchFilter "status" "in"
               (VArr [VStr "paid"; VStr "open"]) ]).
  repeat constructor; discriminate.
Defined.

(** ** The answers of the two [/query] handlers, on the runs the model
    covers *)

(** X29. For every request in which no filter has the field [__proto__]
    and no filter has an operator named like a member of
    [Object.prototype], and whatever the database does, each [/query]
    handler gives an answer, and the answer is one of three: status 200
    with [success: true], status 400 with a message, or status 500 with the
    generic message [Internal server error]; the text of an error is never
    sent with status 500. *)
Theorem query_answers
        (rt : JSRuntime) (tx : JSText) (pr : PathResolver)
        (drv : Mongo.Driver) (RELATIONS : list Rel.t) (pool : SQL.Pool)
        (database : string) (filters : list Filter)
        (aggregation : list AggregationOp) :
  Forall (fun f => field f <> "__proto__" /\ inherited (operator f) = false)
         filters ->
  (exists r, Mongo.query drv database filters aggregation = Ok r
             /\ queryAnswer r)
  /\ (exists r, SQL.query RELATIONS pool database filters aggregation = Ok r
                /\ queryAnswer r).
Proof.
  intro Hall. split.
  - assert (Hc : Mongo.query drv database filters aggregation <> Beyond)
      by now apply document_query_covered.
    destruct (Mongo.query drv database filters aggregation) as [r|e|] eqn:E;
      [|exfalso|contradiction].
    + exists r. split; [reflexivity|].
      now apply (query_answer_returned drv RELATIONS pool database filters
                   aggregation (or_introl E)).
    + unfold Mongo.query in E. destruct (String.eqb database "");
        [discriminate|].
      destruct (_ <- Mongo.getDB drv database ;; _); discriminate.
  - assert (Hf : Forall (fun f => field f <> "__proto__") filters).
    { apply Forall_impl with (2 := Hall). tauto. }
    assert (Hc : SQL.query RELATIONS pool database filters aggregation
                 <> Beyond)
      by now apply tabular_query_covered.
    destruct (SQL.query RELATIONS pool database filters aggregation)
      as [r|e|] eqn:E; [|exfalso|contradiction].
    + exists r. split; [reflexivity|].
      now apply (query_answer_returned drv RELATIONS pool database filters
                   aggregation (or_intror E)).
    + unfold SQL.query in E. destruct (String.eqb database "");
        [discriminate|].
      destruct (st <- SQL.convertFilters filters ;; _); discriminate.
Qed.

Lemma query_answers_witness :
  (exists r,
      Mongo.query (H := Sample.runtime) (H0 := Sample.jstext)
        (H1 := Sample.bfs Mongo.RELATIONS) Sample.emptyDriver "salesDB"
        [mkFilter "invoices" "amount" "between"
                  (VObj [("from", VNum 10); ("to", VNum 20)])] []
      = Ok r
      /\ queryAnswer r)
  /\ (exists r,
         SQL.query (H := Sample.runtime) (H0 := Sample.bfs Mongo.RELATIONS)
           Mongo.RELATIONS Sample.emptyPool "salesDB"
           [mkFilter "invoices" "amount" "between"
                     (VObj [("from", VNum 10); ("to", VNum 20)])] []
         = Ok r
         /\ queryAnswer r).
Proof.
  apply (@query_answers Sample.runtime Sample.jstext
           (Sample.bfs Mongo.RELATIONS) Sample.emptyDriver Mongo.RELATIONS
           Sample.emptyPool "salesDB"
           [mkFilter "invoices" "amount" "between"
                     (VObj [("from", VNum 10); ("to", VNum 20)])]
           []).
  repeat constructor; discriminate.
Defined.

(** ** [between] on the paths of the two servers *)

Lemma document_object_value_error (f : Filter) (o : props) :
  value f = VObj o ->
  In (collection f) Mongo.allowedCollections ->
  includes (field f) "$" = false -> includes (field f) "." = false ->
  In (operator f) Mongo.allowedOperators ->
  Mongo.validateFilter f
  = Throw (JsError "Object values not allowed for security reasons").
Proof.
  intros Ev Hc Hs Hd Ho. unfold Mongo.validateFilter.
  apply existsb_eqb_In in Hc, Ho. rewrite Hc, Hs, Hd, Ho, Ev.
  reflexivity.
Qed.

Lemma tabular_object_value_error (f : Filter) (o : props) :
  value f = VObj o ->
  In (collection f) SQL.allowedTables ->
  includes (field f) "`" = false -> includes (field f) ";" = false ->
  In (operator f) Mongo.allowedOperators ->
  SQL.validateFilter f
  = Throw (JsError "Object values not allowed for security reasons").
Proof.
  intros Ev Hc Hs Hd Ho. unfold SQL.validateFilter.
  apply existsb_eqb_In in Hc, Ho. rewrite Hc, Hs, Hd, Ho, Ev.
  reflexivity.
Qed.

Lemma document_validateFilters_refuses (filters : list Filter) (f : Filter)
      (o : props) :
  In f filters -> value f = VObj o ->
  (exists e, Mongo.validateFilters filters = Throw e)
  \/ (exists r, Mongo.validateFilters filters = Ok (Some r)
                /\ status r = 400%nat).
Proof.
  intros Hin Ev. induction filters as [|g rest IH]; [destruct Hin|].
  cbn [Mongo.validateFilters].
  destruct (Mongo.validateFilter g) as [b|e|] eqn:Eg;
    [|left; now exists e|now apply document_validateFilter_covered in Eg].
  cbn [bind].
  destruct (String.eqb (collection g) "" || String.eqb (field g) ""
            || String.eqb (operator g) "");
    [right; eexists; split; reflexivity|].
  destruct Hin as [-> | Hin]; [|now apply IH].
  destruct (proj1 (@validateFilter_object_value f o Ev)) as [msg Em].
  rewrite Em in Eg. discriminate Eg.
Qed.

Lemma convertFilters_refuses (rt : JSRuntime) (root : string)
      (filters : list Filter) (f : Filter) (o : props) :
  In f filters -> value f = VObj o ->
  forall st st', forEachM (SQL.convertFilter root) filters st <> Ok st'.
Proof.
  intros Hin Ev. induction filters as [|g rest IH]; [destruct Hin|].
  intros st st' E. cbn [forEachM] in E. apply bind_Ok in E.
  destruct E as [s1 [E1 E2]]. destruct Hin as [-> | Hin].
  - unfold SQL.convertFilter in E1.
    destruct (proj2 (@validateFilter_object_value f o Ev)) as [msg Em].
    rewrite Em in E1. discriminate E1.
  - now apply (IH Hin s1 st').
Qed.

(** C7 (amended). A [between] filter whose value is an object, on a field
    that is not the name of a member of [Object.prototype], is translated
    by the document backend into one condition on the field, with [$gte] on
    the coerced [from] and [$lte] on the coerced [to]. [validateFilter] of
    both servers throws for every filter whose value is an object; when the
    collection, the field name and the operator are allowed, the error is
    [Object values not allowed for security reasons], which the handlers
    answer with status 500 and the generic message. A request with such a
    filter is never answered with status 200 on the regular path of the
    document backend, nor on any path of the tabular backend (here for
    requests without a field [__proto__]). It is accepted where no
    validation runs, on the aggregation path of the document backend: a
    [between] filter on a field of [invoices] reaches the [$match] stage,
    and the request is answered with status 200 when the database
    answers. *)
Theorem between_translated_but_not_validated :
  (forall (rt : JSRuntime) (tx : JSText) (fld : string) (o : props),
      inherited fld = false ->
      Mongo.buildMatch [Mongo.mkMatchFilter fld "between" (VObj o)]
      = Ok [(fld, VObj [ ("$gte", Mongo.coerce (getProp o "from"));
                         ("$lte", Mongo.coerce (getProp o "to")) ])])
  /\ (forall (f : Filter) (o : props),
         value f = VObj o ->
         (exists msg, Mongo.validateFilter f = Throw (JsError msg))
         /\ (exists msg, SQL.validateFilter f = Throw (JsError msg))
         /\ (In (collection f) Mongo.allowedCollections ->
             includes (field f) "$" = false ->
             includes (field f) "." = false ->
             In (operator f) Mongo.allowedOperators ->
             Mongo.validateFilter f
             = Throw (JsError
                        "Object values not allowed for security reasons"))
         /\ (In (collection f) SQL.allowedTables ->
             includes (field f) "`" = false ->
             includes (field f) ";" = false ->
             In (operator f) Mongo.allowedOperators ->
             SQL.validateFilter f
             = Throw (JsError
                        "Object values not allowed for security reasons")))
  /\ catchQuery (JsError "Object values not allowed for security reasons")
     = mkResponse 500 (errorBody "Internal server error")
  /\ (forall (rt : JSRuntime) (tx : JSText) (pr : PathResolver)
             (drv : Mongo.Driver) (database : string)
             (filters : list Filter) (f : Filter) (o : props),
         In f filters -> value f = VObj o ->
         exists r, Mongo.query drv database filters [] = Ok r
                   /\ status r <> 200%nat)
  /\ (forall (rt : JSRuntime) (pr : PathResolver) (RELATIONS : list Rel.t)
             (pool : SQL.Pool) (database : string) (filters : list Filter)
             (aggregation : list AggregationOp) (f : Filter) (o : props),
         In f filters -> value f = VObj o ->
         Forall (fun g => field g <> "__proto__") filters ->
         exists r, SQL.query RELATIONS pool database filters aggregation = Ok r
                   /\ status r <> 200%nat)
  /\ (forall (rt : JSRuntime) (tx : JSText) (pr : PathResolver)
             (fld : string) (o : props),
         inherited fld = false ->
         Mongo.buildDetailedRecordsPipeline
           [mkFilter "invoices" fld "between" (VObj o)]
         = Ok [VObj [("$match",
                      VObj [(fld,
                             VObj [ ("$gte", Mongo.coerce (getProp o "from"));
                                    ("$lte", Mongo.coerce (getProp o "to")) ])])]])
  /\ (forall (rt : JSRuntime) (tx : JSText) (pr : PathResolver)
             (drv : Mongo.Driver) (database fld : string) (o : props)
             (op : AggregationOp) (ops : list AggregationOp),
         database <> "" ->
         Mongo.connect drv database = None ->
         (forall coll pipeline,
             exists rows, Mongo.aggregate drv coll pipeline = Answer rows) ->
         inherited fld = false ->
         exists r,
           Mongo.query drv database
             [mkFilter "invoices" fld "between" (VObj o)] (op :: ops)
           = Ok r
           /\ status r = 200%nat).
Proof.
  split; [intros; now apply buildMatch_between|].
  split.
  { intros f o Ev.
    destruct (@validateFilter_object_value f o Ev) as [Hm Hs].
    split; [exact Hm|]. split; [exact Hs|].
    split; [intros; now apply (@document_object_value_error f o)
           | intros; now apply (@tabular_object_value_error f o)]. }
  split; [reflexivity|].
  split.
  { intros rt tx pr drv database filters f o Hin Ev. unfold Mongo.query.
    destruct (String.eqb database "");
      [eexists; split; [reflexivity | discriminate]|].
    unfold Mongo.getDB. destruct (Mongo.connect drv database) as [m|];
      [eexists; split; [reflexivity | apply catchQuery_not_200]|].
    cbn [bind]. unfold Mongo.queryRegular.
    pose proof (document_buildJoinPlan_covered (Mongo.resolveRoot filters)
                  filters) as Hj.
    destruct (Mongo.buildJoinPlan (Mongo.resolveRoot filters) filters)
      as [joins|e|]; [|eexists; split; [reflexivity | apply catchQuery_not_200]
                      |contradiction].
    cbn [bind].
    destruct (@document_validateFilters_refuses filters f o Hin Ev)
      as [[e Ee] | [r [Er Hr]]]; rewrite ?Ee, ?Er; cbn [bind].
    - eexists; split; [reflexivity | apply catchQuery_not_200].
    - exists r. split; [reflexivity|]. rewrite Hr. discriminate. }
  split.
  { intros rt pr RELATIONS pool database filters aggregation f o Hin Ev Hall.
    unfold SQL.query.
    destruct (String.eqb database "");
      [eexists; split; [reflexivity | discriminate]|].
    assert (Hc : SQL.convertFilters filters <> Beyond)
      by now apply convertFilters_covered.
    destruct (SQL.convertFilters filters) as [st|e|] eqn:E;
      [|eexists; split; [reflexivity | apply catchQuery_not_200]
       |contradiction].
    exfalso. unfold SQL.convertFilters in E.
    now apply (@convertFilters_refuses rt (SQL.resolveRoot filters) filters
                 f o Hin Ev ([], []) st). }
  split; [intros; now apply detailed_pipeline_between|].
  intros rt tx pr drv database fld o op ops Hdb Hconn Hagg Hfld.
  unfold Mongo.query. rewrite (@string_eqb_neq _ _ Hdb).
  unfold Mongo.getDB. rewrite Hconn. cbn [bind]. unfold Mongo.queryBoth.
  rewrite aggregation_pipeline_extends_detailed.
  rewrite (@detailed_pipeline_between rt tx pr fld o Hfld). cbn [bind].
  destruct (Hagg (Mongo.resolveRoot
                    [mkFilter "invoices" fld "between" (VObj o)])
                 [VObj [("$match",
                         VObj [(fld,
                                VObj [ ("$gte", Mongo.coerce (getProp o "from"));
                                       ("$lte", Mongo.coerce (getProp o "to")) ])])]])
    as [rows1 E1].
  rewrite E1. cbn [await bind].
  match goal with
  | |- context [Mongo.aggregate drv ?c ?p] =>
      destruct (Hagg c p) as [rows2 E2]; rewrite E2
  end.
  cbn [await bind]. eexists. split; reflexivity.
Qed.

Lemma between_translated_but_not_validated_witness :
  let f := mkFilter "invoices" "amount" "between"
                    (VObj [("from", VStr "10"); ("to", VNum 20)]) in
  Mongo.buildMatch (H := Sample.runtime) (H0 := Sample.jstext)
    [Mongo.mkMatchFilter "amount" "between"
       (VObj [("from", VStr "10"); ("to", VNum 20)])]
  = Ok [("amount", VObj [("$gte", VNumber "10"); ("$lte", VNum 20)])]
  /\ Mongo.validateFilter f
     = Throw (JsError "Object values not allowed for security reasons")
  /\ SQL.validateFilter f
     = Throw (JsError "Object values not allowed for security reasons")
  /\ (exists r,
         Mongo.query (H := Sample.runtime) (H0 := Sample.jstext)
           (H1 := Sample.bfs Mongo.RELATIONS) Sample.emptyDriver "salesDB"
           [f] []
         = Ok r
         /\ status r <> 200%nat)
  /\ (exists r,
         SQL.query (H := Sample.runtime) (H0 := Sample.bfs Mongo.RELATIONS)
           Mongo.RELATIONS Sample.emptyPool "salesDB" [f] []
         = Ok r
         /\ status r <> 200%nat)
  /\ (exists r,
         Mongo.query (H := Sample.runtime) (H0 := Sample.jstext)
           (H1 := Sample.bfs Mongo.RELATIONS) Sample.emptyDriver "salesDB"
           [f] [mkAggregationOp "invoices" "amount" "count" None]
         = Ok r
         /\ status r = 200%nat).
Proof.
  cbv zeta.
  destruct between_translated_but_not_validated
    as [Hmatch [Hvalidate [_ [Hregular [Htabular [_ Haccepted]]]]]].
  split.
  { exact (Hmatch Sample.runtime Sample.jstext "amount"
                  [("from", VStr "10"); ("to", VNum 20)] eq_refl). }
  destruct (Hvalidate (mkFilter "invoices" "amount" "between"
                         (VObj [("from", VStr "10"); ("to", VNum 20)]))
                      [("from", VStr "10"); ("to", VNum 20)] eq_refl)
    as [_ [_ [Hdoc Htab]]].
  split.
  { apply Hdoc; [now left | reflexivity | reflexivity | cbn; tauto]. }
  split.
  { apply Htab; [now left | reflexivity | reflexivity | cbn; tauto]. }
  split.
  { apply (Hregular Sample.runtime Sample.jstext (Sample.bfs Mongo.RELATIONS)
             Sample.emptyDriver "salesDB" _
             (mkFilter "invoices" "amount" "between"
                       (VObj [("from", VStr "10"); ("to", VNum 20)]))
             [("from", VStr "10"); ("to", VNum 20)]);
      [now left | reflexivity]. }
  split.
  { apply (Htabular Sample.runtime (Sample.bfs Mongo.RELATIONS)
             Mongo.RELATIONS Sample.emptyPool "salesDB" _ []
             (mkFilter "invoices" "amount" "between"
                       (VObj [("from", VStr "10"); ("to", VNum 20)]))
             [("from", VStr "10"); ("to", VNum 20)]);
      [now left | reflexivity | repeat constructor; discriminate]. }
  apply (Haccepted Sample.runtime Sample.jstext (Sample.bfs Mongo.RELATIONS)
           Sample.emptyDriver "salesDB" "amount"
           [("from", VStr "10"); ("to", VNum 20)]
           (mkAggregationOp "invoices" "amount" "count" None) []);
    [discriminate | reflexivity | intros; now eexists | reflexivity].
Defined.
